(** * The conversational-session layer of [app7.py]

    A shallow embedding of the session orchestration code of the job-search
    assistant: the retry wrapper [safe_api_call], the remote operations built
    on it, the run/poll engine [run_assistant], the lifecycle functions
    [start_chat], [send_initial_messages] and [reset_chat], and the question
    quota enforced by [chat_interface] and [main].

    Python mutates one shared [SessionState] object and raises exceptions
    through the call stack, so the code is embedded in a state-and-exception
    monad over a store that holds the session object, the remote service and
    a trace of the effects the claims speak about (remote invocations,
    [time.sleep], [st.error]).  The [while] loop of [run_assistant] has no
    bound in the source; the embedding gives it a fuel argument and a
    distinct [OutOfFuel] outcome.

    The sidebar form and the buttons of [main] are embedded in the same
    monad, the widgets' values being inputs of a script run.  The text
    cleaning of [extract_and_clean_text] is a pure function on the code
    points of the page text (module [Scraping]); parsing the HTML and
    fetching the page are left to their libraries. *)

From Stdlib Require Import List String Ascii ZArith NArith Bool Lia DecimalString.
Import ListNotations.

Open Scope string_scope.
Open Scope Z_scope.

(** ** Module constants (lines 12-16) *)

Definition MAX_RETRIES : Z := 3.
Definition RETRY_DELAY : Z := 2.
Definition MAX_RESUME_SIZE : Z := 5 * 1024 * 1024.
Definition MAX_JOB_DESCRIPTION_LENGTH : Z := 50000.
Definition MAX_QUESTIONS_PER_SESSION : Z := 500.

(** ** Python helpers *)

(** [str(n)] for an integer. *)
Definition str_of_int (n : Z) : string := NilZero.string_of_int (Z.to_int n).

(** [range(n)]. *)
Definition range (n : Z) : list Z := map Z.of_nat (seq 0 (Z.to_nat n)).

(** Truth value of a string: empty is false. *)
Definition truthy (s : string) : bool := negb (String.eqb s "").

(** ** Data *)

(** A transcript entry, the dict [{"role": ..., "content": ...}]. *)
Record Entry := mkEntry { role : string; content : string }.

(** The session object (lines 22-36).  The field [start_chat] shares its name
    with the function [start_chat], so the record lives in a module. *)
Module SessionState.

Record t := mk {
  start_chat : bool;
  thread_id : option string;
  buttons_shown : bool;
  resume_text : string;
  job_description_text : string;
  job_type : string;
  messages : list Entry;
  processing : bool;
  job_input_method : string;
  job_url : string;
  resume_input_method : string;
  assistant_is_typing : bool;
  question_count : Z
}.

(** [SessionState.__init__]. *)
Definition init : t := {|
  start_chat := false;
  thread_id := None;
  buttons_shown := false;
  resume_text := "";
  job_description_text := "";
  job_type := "";
  messages := [];
  processing := false;
  job_input_method := "url";
  job_url := "";
  resume_input_method := "paste";
  assistant_is_typing := false;
  question_count := 0
|}.

(** Attribute assignment [state.f = v], one setter per field. *)
Definition set_start_chat (v : bool) (s : t) : t :=
  let (_, b, c, d, e, f, g, h, i, j, k, l, m) := s in mk v b c d e f g h i j k l m.
Definition set_thread_id (v : option string) (s : t) : t :=
  let (a, _, c, d, e, f, g, h, i, j, k, l, m) := s in mk a v c d e f g h i j k l m.
Definition set_buttons_shown (v : bool) (s : t) : t :=
  let (a, b, _, d, e, f, g, h, i, j, k, l, m) := s in mk a b v d e f g h i j k l m.
Definition set_resume_text (v : string) (s : t) : t :=
  let (a, b, c, _, e, f, g, h, i, j, k, l, m) := s in mk a b c v e f g h i j k l m.
Definition set_job_description_text (v : string) (s : t) : t :=
  let (a, b, c, d, _, f, g, h, i, j, k, l, m) := s in mk a b c d v f g h i j k l m.
Definition set_job_type (v : string) (s : t) : t :=
  let (a, b, c, d, e, _, g, h, i, j, k, l, m) := s in mk a b c d e v g h i j k l m.
Definition set_messages (v : list Entry) (s : t) : t :=
  let (a, b, c, d, e, f, _, h, i, j, k, l, m) := s in mk a b c d e f v h i j k l m.
Definition set_processing (v : bool) (s : t) : t :=
  let (a, b, c, d, e, f, g, _, i, j, k, l, m) := s in mk a b c d e f g v i j k l m.
Definition set_job_input_method (v : string) (s : t) : t :=
  let (a, b, c, d, e, f, g, h, _, j, k, l, m) := s in mk a b c d e f g h v j k l m.
Definition set_job_url (v : string) (s : t) : t :=
  let (a, b, c, d, e, f, g, h, i, _, k, l, m) := s in mk a b c d e f g h i v k l m.
Definition set_resume_input_method (v : string) (s : t) : t :=
  let (a, b, c, d, e, f, g, h, i, j, _, l, m) := s in mk a b c d e f g h i j v l m.
Definition set_assistant_is_typing (v : bool) (s : t) : t :=
  let (a, b, c, d, e, f, g, h, i, j, k, _, m) := s in mk a b c d e f g h i j k v m.
Definition set_question_count (v : Z) (s : t) : t :=
  let (a, b, c, d, e, f, g, h, i, j, k, l, _) := s in mk a b c d e f g h i j k l v.

End SessionState.

Module SS := SessionState.

Abbreviation SessionState := SessionState.t.

(** What the remote service hands back. *)
Record Thread := mkThread { Thread_id : string }.

(** A run object: [run.id], [run.status]. *)
Record Run := mkRun { Run_id : string; Run_status : string }.

(** One block of [message.content]; only a text block has [.text.value]. *)
Inductive ContentBlock :=
| TextContentBlock (value : string)
| ImageFileContentBlock (file_id : string).

(** A thread message: [message.run_id] (None for a message no run produced),
    [message.role], [message.content]. *)
Record Message := mkMessage {
  Message_run_id : option string;
  Message_role : string;
  Message_content : list ContentBlock
}.

(** A file handed over by [st.file_uploader]: [.size], [.type], and what
    pdfminer's [extract_text] does on its bytes (the text, or the [str] of
    the exception it raises). *)
Record UploadedFile := mkUploadedFile {
  UploadedFile_size : Z;
  UploadedFile_type : string;
  extract_text : string + string
}.

(** What one run of the script reads from outside the session object: the
    value every widget returns, and the results of the two text-acquisition
    collaborators [fetch_content] (None unless the HTTP status is 200) and
    [extract_and_clean_text] on the fetched page. *)
Record Inputs := mkInputs {
  start_new_session_button : bool;
  job_type_selectbox : string;
  resume_input_radio : string;
  resume_file_uploader : option UploadedFile;
  resume_text_area : string;
  job_input_radio : string;
  job_description_text_area : string;
  job_url_text_input : string;
  start_chat_button : bool;
  exit_chat_button : bool;
  chat_input : option string;
  predefined_question_selectbox : string;
  fetch_content : option string;
  extract_and_clean_text : string
}.

(** [len(text)]: Python counts code points, so the continuation bytes of the
    UTF-8 encoding are skipped. *)
Fixpoint len (text : string) : Z :=
  match text with
  | EmptyString => 0
  | String c rest =>
      (if (128 <=? Z.of_nat (nat_of_ascii c)) && (Z.of_nat (nat_of_ascii c) <? 192)
       then 0 else 1) + len rest
  end.

(** [d[key]] on a dict kept as an association list. *)
Fixpoint dict_get (d : list (string * string)) (key : string) : option string :=
  match d with
  | [] => None
  | (k, v) :: rest => if String.eqb k key then Some v else dict_get rest key
  end.

(** [validate_resume] (lines 55-62). *)
Definition validate_resume (uploaded_file : option UploadedFile) : bool * string :=
  match uploaded_file with
  | None => (false, "No file uploaded")
  | Some f =>
      if UploadedFile_size f >? MAX_RESUME_SIZE
      then (false, "File size exceeds " ++ str_of_int (MAX_RESUME_SIZE / (1024 * 1024))
                   ++ " MB limit")
      else if negb (String.eqb (UploadedFile_type f) "application/pdf")
      then (false, "Only PDF files are accepted")
      else (true, "")
  end.

(** [validate_job_description] (lines 64-69). *)
Definition validate_job_description (text : string) : bool * string :=
  if negb (truthy text) then (false, "Job description is empty")
  else if len text >? MAX_JOB_DESCRIPTION_LENGTH
  then (false, "Job description exceeds " ++ str_of_int MAX_JOB_DESCRIPTION_LENGTH
               ++ " characters")
  else (true, "").

(** ** Prompt texts

    The two seed prompts of [send_initial_messages] (lines 242-257) and the
    dict [predefined_questions] of [chat_interface] (lines 270-292), as an
    association list in the dict's order. *)

Definition initial_prompt (state : SessionState) : string :=
  "
    Utkarsh is applying for a "
  ++ SS.job_type state
  ++ " role. Please review and analyze the provided job description, highlighting the following points in bullets: Company Name, Role, Desired Years of Experience, Expectations from the company (desired skill set for the role in 2-3 short points), and Alignment (how Utkarsh's skills, projects, and experiences align with the job requirements in 2-3 short bullet points). If the job description is irrelevant or incomplete, kindly request a resubmission. Keep your response within 125 words. Job Info: "
  ++ SS.job_description_text state
  ++ ", and Here are Utkarsh optional notes: "
  ++ SS.resume_text state
  ++ "
    ".

Definition second_prompt : string :=
  "
    Based on Utkarsh’s profile and the provided job description, create seven distinct LinkedIn connection request messages for different target audiences in the job funnel- Hiring Manager, Recruiter, Alumnus, and Cold Network. Each message should be under 350 characters, convey enthusiasm for the opportunity, highlight Utkarsh's relevant experiences and projects that align with the job description. If possible, include metrics and use abbreviations. Use the following templates for reference:
    HM Message 1: ‘Hi [HM Name],
 I'd love to discuss a [Role-short form] within your team at [Company Name]. My [relevant experience] aligns well with [specific skills needed by team].’
    Recruiter Message 1: ‘Hi [Recruiter],(/n)I’m interested in the [Role-short form] position at [Company name]. My [relevant background] and [x]+ yrs of [relevant experience] align well with the team's needs. I'd appreciate a chance to chat!’
    Alumnus Message: ‘Hi Alumnus,/n I’m a fellow [School Short form] alum (20XX). I’m interested in a [Role- short form] role at [Company], and my [relevant experience] aligns closely with the [skills team is seeking]. I’d appreciate any insights or a referral if possible!’
    Cold Message 1: ‘I admire your team at [Company] for [relevant work team is doing]. My [relevant experience] aligns with a [opportunity in your team], and I'd appreciate a chance to chat!’
    Cold Message 2: 'I've always admired [Company] for its [relevant work]. I’m interested in a [Role- Short form] role in [Specific Team/Product]. My 4+ yrs of PM experience [relevant experience] align well with the team's needs. I'd appreciate a chance to chat!'
    Cold Message 3: 'Hi (Their Name),I know you’re busy. I just wanted to say, for X role you have open: 
 You’re looking for (X years of experience) in PM: I have (Y years of experience) 
 You’re looking for (Z functional experience): I did that at (A company) 
 Your company is going after (B mission): I dig that 
 (Insert proof of work). Let’s chat?',
    Cold Message 4: 'Hey (HM Name), I believe my (X experience) qualifies me for your (Y role), and I love what (Z company is doing). Let’s connect?'
    ".

Definition predefined_questions : list (string * string) :=
  [ ("Select a predefined question",
     "");
    ("LinkedIn Request | Hiring Manager (300 characters)",
     "Based on {candidate name}'s resume and the provided job description, create four distinct LinkedIn connection request messages for the hiring manager of the job. Each message should be under 300 characters, convey enthusiasm for the opportunity, and highlight relevant experience and qualifications. If possible, include metrics and use abbreviations. Use a different combination of templates and experiences for each example: ‘Hi [HM Name],(/n)I'm interested in the [Role- short form] at [Company Name]. I have [highlight relevant experience and background], which I believe will make me a great fit for your team.’ Option 2: ‘ Hi [HM Name],(/n)I’m interested in the [Role- short form] in your team. My x+ yrs of PM experience- [relevant experience] aligns well with the position, and could [contribute to product’s success].’ Option 3: ‘Hi [HM Name],
 I'd love to discuss a [Role-short form] within your team at [Company Name]. My [relevant experience] aligns well with [specific skills needed by team].’ ");
    ("LinkedIn Request | Recruiter (300 characters)",
     " Based on the candidate's resume and the provided job description, create four distinct LinkedIn connection request messages for the recruiter of the job. Each message should be under 300 characters, convey enthusiasm for the opportunity, and highlight relevant experience and qualifications. If possible, include metrics and use abbreviations. Use a different combination of templates and experiences for each example: ‘Hi [Recruiter],(/n)I’m interested in the [Role-short form] position at [Company name]. My [relevant background] and [x]+ yrs of [relevant experience] align well with the team's needs. I'd love to discuss this further!’ Option2: ‘Hi [Recruiter],(/n)I'm interested in a [Role- short form] role at [Company name] and believe my [relevant background] is a strong fit. My [x]+ yrs [relevant experience] align perfectly with the team's needs. I'd love to discuss this further!’ Option 3: ‘Hi [Recruiter],(/n)I'm interested in a [Role- short form] at [Company name]. My [relevant background] and [x] yrs of PM experience in [relevant experience] aligns well with the position. I believe I will be a great fit to the team!'");
    ("LinkedIn Request | Alumni Referral (300 characters)",
     "Based on the candidate's resume and the provided job description, create four distinct LinkedIn connection request messages to an alumni for referral. Each message should be under 300 characters, convey enthusiasm for the opportunity, and highlight relevant experience and qualifications. Use abbreviations when possible. Use a different combination of templates and experiences for each example: ‘Hi Alumnus,/n I’m a fellow [School Short form] alum (20XX). Would you be open to referring me for a [Role- short form] role at [Company]? My [relevant experience] aligns well with [relevant experience the team is looking for]. Grateful for your help!’ Option 2: ‘Hi Alumnus,/n I’m a fellow [School Short form] alum (20XX). I’m interested in a [Role- short form] role at [Company], and my [relevant experience] aligns closely with the [skills team is seeking]. I’d appreciate any insights or a referral if possible!’");
    ("LinkedIn Request | Cold Network (300 characters)",
     "Based on the candidate's resume and the provided job description, create four distinct LinkedIn connection request messages to cold network. Each message should be under 300 characters, convey enthusiasm for the opportunity, and highlight relevant experience and qualifications. Use abbreviations when possible. Use a different combination of templates and experiences for each example: ‘I admire your team at [Company] for [relevant work team is doing]. My [relevant experience] aligns with a [opportunity in your team], and I'd appreciate a chance to chat!’ Option2: ‘I've always admired [Company] for its [relevant work]. I'm very interested in a [Role-Short form at Company], and my [relevant background] is a strong fit. I'd love to chat!’");
    ("Linkedin InMail | Hiring Manager",
     "Based on candidate resume and the provided job description, create two distinct LinkedIn messages for the hiring manager of the job. Each message should be under 200 words, convey enthusiasm for the opportunity, and highlight relevant experience and qualifications that align with the job requirements. If possible, include metrics and use abbreviations. Use following templates as example: ‘Hi HM,/n I've long admired [Company] for [relevant work]. I'm very interested in the [Role] within your team, and my [relevant background] is a strong fit.
 My [x]+ years of [relevant experience] align well with the team’s needs:
 [three short bullet points with metrics if possible].
 I'd love to connect and discuss this opportunity further. Here is a link to my product portfolio: [link]’ Option2: ‘Hi [HM Name],
 I'd love to discuss a [Role-short form] within your team at [Company Name]. My [relevant background] and [x]+ years of [relevant experience] align closely with the role: :
 [three short bullet points with metrics if possible]. I'm passionate about [the target company sector] and admire [Company's innovating approach]. I’d love to discuss this opportunity further. Here is my product portfolio: [link]'");
    ("Linkedin InMail | Recruiter",
     "Based on candidate resume and the provided job description, create two distinct LinkedIn messages for the recruiter of the job. Each message should be under 200 words, convey enthusiasm for the opportunity, and highlight relevant experience and qualifications that align with the job requirements. If possible, include metrics and use abbreviations. Use following templates as example: ‘Hi Recruiter,/n I've long admired [Company] for [relevant work]. I'm very interested in the [Role] at [Company Name], and my [relevant background] is a strong fit.
 My [x]+ years of [relevant experience] align well with the team’s needs:
 [three short bullet points with metrics if possible].
 I'd love to connect and discuss this opportunity further. Here is the job link: [link]’ Option2: ‘Hi [Recruiter],
 I've been following [Company Name] for a while now- big admirer of [Company relevant highlight]. I'm interested in a [Role- short form] role at [Company name] and believe my [relevant background] aligns well with the team's needs: 
 [three short bullet points with metrics if possible].I'd appreciate the chance to discuss this further. My resume is attached for your review.  Here is the job link: [link]’");
    ("Linkedin InMail | Alumni Referral",
     "Based on candidate resume and the provided job description, create two distinct LinkedIn messages for cold network. Each message should be under 200 words, convey enthusiasm for the opportunity, and highlight relevant experience and qualifications that align with the job requirements. If possible, include metrics and use abbreviations. Use different relevant experiences and use the following template as example : ‘Hi [Alumnus],
 I’m a [School Short form] alum (20XX)! 
 I've been following [Company Name] for a while now- big admirer of [Company relevant highlight]. I'm interested in a [Role- short form] role at [Company name] and believe my [relevant background] aligns well with the team's needs: 
 [two short bullet points with metrics if possible].
  I'd be incredibly grateful if you can help me to connect to the hiring team or refer me to the position if possible. 
 Here is my product portfolio: [link]  
Job Link: [Link]’  
 Thanks in advance!’");
    ("Linkedin InMail | Cold Referral",
     "Based on candidate resume and the provided job description, create two distinct LinkedIn messages for cold network. Each message should be under 200 words, convey enthusiasm for the opportunity, and highlight relevant experience and qualifications that align with the job requirements. If possible, include metrics and use abbreviations. Use different relevant experiences and use the following template as example : ‘Hi [Name],
 I've been following [Company Name] for a while now- big admirer of [Company relevant highlight]. I'm interested in a [Role- short form] role at [Company name] and believe my [relevant background] aligns well with the team's needs: 
 [two short bullet points with metrics if possible].
 If there's an opportunity to connect with the team and discuss my qualifications further, I'd be incredibly grateful! 
 Here is my product portfolio: [link]  
Job Link: [Link]’");
    ("Cold Email | Hiring Manager",
     "Based on the candidate resume and the provided job description, craft a cold email to the hiring manager. The email should be under 300 words, mention three relevant pointers highlighting the candidate's skills and experiences, and express interest in the role. Share that the resume and a portfolio have been attached for reference.");
    ("Cold Email | Hiring Manager | Aakash ",
     "Body: Hi (Their Name),I know you’re busy. I just wanted to say, for X role you have open: 
 You’re looking for (X years of experience) in PM: I have (Y years of experience) 
 You’re looking for (Z functional experience): I did that at (A company) 
 Your company is going after (B mission): I dig that 
 (Insert proof of work). Let’s chat?") ].

(** ** Exceptions and outcomes *)

Inductive Exn :=
| APIError (msg : string)          (* class APIError, line 43 *)
| RemoteException (e : string)     (* raised by a remote call, not an OpenAIError *)
| AttributeError
| IndexError
| KeyError (key : string)
| TypeError
| ValueError (msg : string).

(** How a piece of code ends: it returns, it raises, it calls [st.rerun()]
    (which stops the script run), or the embedding's fuel ran out inside the
    polling loop. *)
Inductive Result (A : Type) :=
| Val (a : A)
| Exc (e : Exn)
| Rerun
| OutOfFuel.

Arguments Val {A} a.
Arguments Exc {A} e.
Arguments Rerun {A}.
Arguments OutOfFuel {A}.

(** One raw invocation of a remote operation: it returns, raises an error
    of the library (the class the handler of [safe_api_call] means to catch;
    with its [str(e)]), or raises anything else. *)
Inductive Raised (A : Type) :=
| Returns (a : A)
| RaisesOpenAIError (e : string)
| RaisesOther (e : string).

Arguments Returns {A} a.
Arguments RaisesOpenAIError {A} e.
Arguments RaisesOther {A} e.

(** The remote operations with the arguments they are invoked with. *)
Inductive Op :=
| ThreadsCreate
| MessagesCreate (thread_id : option string) (role content : string)
| RunsCreate (thread_id : option string) (assistant_id : string)
| RunsRetrieve (thread_id : option string) (run_id : string)
| MessagesList (thread_id : option string).

(** The effects recorded in the trace, oldest first. *)
Inductive Event :=
| EvCall (op : Op)          (* one invocation of a raw remote operation *)
| EvSleep (secs : Z)        (* time.sleep(secs) *)
| EvError (msg : string).   (* st.error(msg) or st.sidebar.error(msg) *)

Definition is_call (e : Event) : bool :=
  match e with EvCall _ => true | _ => false end.

Definition is_retrieve (e : Event) : bool :=
  match e with EvCall (RunsRetrieve _ _) => true | _ => false end.

(** ** The remote service and the monad *)

Section Core.

(** The state of the remote service is left abstract. *)
Variable W : Type.

Definition RemoteCall (A : Type) : Type := W -> Raised A * W.

(** [openai.beta.threads.*], as functions of the remote state. *)
Record Remote := mkRemote {
  threads_create : RemoteCall Thread;
  messages_create : option string -> string -> string -> RemoteCall unit;
  runs_create : option string -> string -> RemoteCall Run;
  runs_retrieve : option string -> string -> RemoteCall Run;
  messages_list : option string -> RemoteCall (list Message)
}.

Variable openai : Remote.

(** The store: the session object [state], the key
    [st.session_state.previous_question] (absent until first written), the
    remote service, and the trace. *)
Record Store := mkStore {
  state : SessionState;
  previous_question : option string;
  world : W;
  trace : list Event
}.

Definition M (A : Type) : Type := Store -> Result A * Store.

Definition ret {A} (a : A) : M A := fun s => (Val a, s).

Definition bind {A B} (m : M A) (k : A -> M B) : M B :=
  fun s =>
    match m s with
    | (Val a, s') => k a s'
    | (Exc e, s') => (Exc e, s')
    | (Rerun, s') => (Rerun, s')
    | (OutOfFuel, s') => (OutOfFuel, s')
    end.

Notation "x <- m ;; k" := (bind m (fun x => k))
  (at level 100, m at next level, right associativity).
Notation "m ;; k" := (bind m (fun _ => k))
  (at level 100, right associativity).

Definition raise {A} (e : Exn) : M A := fun s => (Exc e, s).

(** [st.rerun()]. *)
Definition st_rerun {A} : M A := fun s => (Rerun, s).

Definition out_of_fuel {A} : M A := fun s => (OutOfFuel, s).

Definition emit (e : Event) : M unit :=
  fun s => (Val tt, mkStore (state s) (previous_question s) (world s) (trace s ++ [e])).

(** [time.sleep(secs)]. *)
Definition time_sleep (secs : Z) : M unit := emit (EvSleep secs).

(** [st.error(msg)]. *)
Definition st_error (msg : string) : M unit := emit (EvError msg).

(** Reading and updating the session object. *)
Definition get_state : M SessionState := fun s => (Val (state s), s).

Definition update_state (f : SessionState -> SessionState) : M unit :=
  fun s => (Val tt, mkStore (f (state s)) (previous_question s) (world s) (trace s)).

Definition get_previous_question : M (option string) :=
  fun s => (Val (previous_question s), s).

Definition set_previous_question (q : string) : M unit :=
  fun s => (Val tt, mkStore (state s) (Some q) (world s) (trace s)).

(** One invocation of the raw remote operation [op]: recorded in the trace,
    then run on the remote state. *)
Definition invoke {A} (op : Op) (func : RemoteCall A) : M (Raised A) :=
  fun s =>
    let (r, w') := func (world s) in
    (Val r, mkStore (state s) (previous_question s) w' (trace s ++ [EvCall op])).

(** Attribute access on a value that may be [None]. *)
Definition attr {A B} (o : option A) (f : A -> B) : M B :=
  match o with
  | Some a => ret (f a)
  | None => raise AttributeError
  end.

(** ** The retry wrapper (lines 46-53)

    The [for] loop over [range(MAX_RETRIES)]; falling off the end of the loop
    returns [None].  [func] is the remote operation with its arguments
    applied, and [op] is the name under which its invocations enter the
    trace.

    The handler of line 50 names the class it catches as
    [openai.error.OpenAIError], an expression Python evaluates when an
    exception reaches the handler.  The program reaches the service through
    [openai.beta.threads], which the library has from version 1.0 on, and
    that library has no module [openai.error]: the lookup raises
    [AttributeError], whatever the operation raised, and the body of the
    handler is not reached. *)

(** The module [openai.error] of the library before version 1.0. *)
Inductive ErrorModule := LegacyErrors.

(** [openai.error] in the library the program runs with: no such
    attribute. *)
Definition openai_error : option ErrorModule := None.

Fixpoint safe_api_call_loop {A} (op : Op) (func : RemoteCall A)
    (attempts : list Z) : M (option A) :=
  match attempts with
  | [] => ret None
  | attempt :: rest =>
      r <- invoke op func ;;
      match r with
      | Returns a => ret (Some a)
      | RaisesOpenAIError e =>
          attr openai_error (fun error => error) ;;
          if attempt =? MAX_RETRIES - 1
          then raise (APIError ("API call failed after " ++ str_of_int MAX_RETRIES
                                ++ " attempts: " ++ e))
          else (time_sleep RETRY_DELAY ;; safe_api_call_loop op func rest)
      | RaisesOther e =>
          attr openai_error (fun error => error) ;;
          raise (RemoteException e)
      end
  end.

Definition safe_api_call {A} (op : Op) (func : RemoteCall A) : M (option A) :=
  safe_api_call_loop op func (range MAX_RETRIES).

(** ** The wrapped remote operations (lines 79-100) *)

Definition create_thread : M (option Thread) :=
  safe_api_call ThreadsCreate (threads_create openai).

Definition create_message (thread_id : option string) (role content : string)
    : M (option unit) :=
  safe_api_call (MessagesCreate thread_id role content)
                (messages_create openai thread_id role content).

Definition create_run (thread_id : option string) (assistant_id : string)
    : M (option Run) :=
  safe_api_call (RunsCreate thread_id assistant_id)
                (runs_create openai thread_id assistant_id).

Definition get_run_status (thread_id : option string) (run_id : string)
    : M (option Run) :=
  safe_api_call (RunsRetrieve thread_id run_id)
                (runs_retrieve openai thread_id run_id).

Definition get_messages (thread_id : option string) : M (option (list Message)) :=
  safe_api_call (MessagesList thread_id) (messages_list openai thread_id).

(** ** The run/poll engine (lines 335-354) *)

(** The [while run.status != 'completed'] loop (lines 340-342); [fuel]
    bounds the number of iterations. *)
Fixpoint poll_until_completed (fuel : nat) (run : option Run) : M Run :=
  match run with
  | None => raise AttributeError
  | Some r =>
      if negb (String.eqb (Run_status r) "completed") then
        match fuel with
        | O => out_of_fuel
        | S fuel' =>
            time_sleep 1 ;;
            st <- get_state ;;
            run' <- get_run_status (SS.thread_id st) (Run_id r) ;;
            poll_until_completed fuel' run'
        end
      else ret r
  end.

(** [message.run_id == run.id]. *)
Definition run_id_eqb (mid : option string) (rid : string) : bool :=
  match mid with
  | Some i => String.eqb i rid
  | None => false
  end.

(** The list comprehension of lines 346-349. *)
Definition assistant_messages_of (messages : list Message) (run : Run) : list Message :=
  filter (fun message =>
            run_id_eqb (Message_run_id message) (Run_id run)
            && String.eqb (Message_role message) "assistant")
         messages.

(** [message.content[0].text.value]. *)
Definition first_text_value (message : Message) : M string :=
  match Message_content message with
  | [] => raise IndexError
  | TextContentBlock value :: _ => ret value
  | ImageFileContentBlock _ :: _ => raise AttributeError
  end.

(** [state.messages.append(entry)]. *)
Definition messages_append (entry : Entry) : M unit :=
  update_state (fun s => SS.set_messages (SS.messages s ++ [entry]) s).

(** The [for] loop of lines 351-352. *)
Fixpoint append_assistant_messages (assistant_messages : list Message) : M unit :=
  match assistant_messages with
  | [] => ret tt
  | message :: rest =>
      value <- first_text_value message ;;
      messages_append (mkEntry "assistant" value) ;;
      append_assistant_messages rest
  end.

(** [run_assistant] (lines 335-354). *)
Definition run_assistant (fuel : nat) (assistant_id : string) : M unit :=
  st <- get_state ;;
  run <- create_run (SS.thread_id st) assistant_id ;;
  update_state (SS.set_assistant_is_typing true) ;;
  run <- poll_until_completed fuel run ;;
  st <- get_state ;;
  messages <- get_messages (SS.thread_id st) ;;
  match messages with
  | None => raise TypeError
  | Some messages =>
      append_assistant_messages (assistant_messages_of messages run) ;;
      update_state (SS.set_assistant_is_typing false)
  end.

(** ** The lifecycle functions *)

(** [reset_chat] (lines 356-366), as the function it is on the session
    object. *)
Definition reset_chat (state : SessionState) : SessionState :=
  let state := SS.set_messages [] state in
  let state := SS.set_start_chat false state in
  let state := SS.set_thread_id None state in
  let state := SS.set_buttons_shown false state in
  let state := SS.set_assistant_is_typing false state in
  let state := SS.set_question_count 0 state in
  let state := SS.set_resume_text "" state in
  let state := SS.set_job_description_text "" state in
  let state := SS.set_job_type "" state in
  SS.set_job_url "" state.

(** [send_initial_messages] (lines 241-260). *)
Definition send_initial_messages (fuel : nat) (assistant_id : string) : M unit :=
  st <- get_state ;;
  create_message (SS.thread_id st) "user" (initial_prompt st) ;;
  run_assistant fuel assistant_id ;;
  st <- get_state ;;
  create_message (SS.thread_id st) "user" second_prompt ;;
  run_assistant fuel assistant_id.

(** [start_chat] (lines 224-239). *)
Definition start_chat (fuel : nat) (assistant_id : string) : M unit :=
  update_state (SS.set_start_chat true) ;;
  update_state (SS.set_buttons_shown false) ;;
  update_state (SS.set_messages []) ;;
  update_state (SS.set_processing false) ;;
  update_state (SS.set_assistant_is_typing false) ;;
  set_previous_question "Select a predefined question" ;;
  thread <- create_thread ;;
  id <- attr thread Thread_id ;;
  update_state (SS.set_thread_id (Some id)) ;;
  send_initial_messages fuel assistant_id.

(** ** The chat page (lines 262-333)

    The widgets' values are arguments: [user_input] is what [st.chat_input]
    returns and [selected_question] what the select box returns.  Rendering
    calls ([st.container], [st.chat_message], [st.markdown], [st.spinner])
    touch neither the session nor the remote service and are left out. *)

Definition limit_message : string :=
  "You have reached the maximum number of questions ("
  ++ str_of_int MAX_QUESTIONS_PER_SESSION
  ++ ") for this session. Please start a new session.".

Definition option_string_eqb (o : option string) (s : string) : bool :=
  match o with
  | Some x => String.eqb x s
  | None => false
  end.

Definition chat_interface (fuel : nat) (assistant_id : string)
    (user_input : option string) (selected_question : string) : M unit :=
  (match user_input with
   | Some user_input =>
       if truthy user_input then
         st <- get_state ;;
         if SS.question_count st <? MAX_QUESTIONS_PER_SESSION then
           update_state (fun s => SS.set_question_count (SS.question_count s + 1) s) ;;
           messages_append (mkEntry "user" user_input) ;;
           st <- get_state ;;
           create_message (SS.thread_id st) "user" user_input ;;
           run_assistant fuel assistant_id ;;
           st_rerun
         else
           st_error limit_message ;;
           update_state reset_chat ;;
           st_rerun
       else ret tt
   | None => ret tt
   end) ;;
  st <- get_state ;;
  if SS.start_chat st && negb (SS.assistant_is_typing st) then
    previous <- get_previous_question ;;
    (match previous with
     | None => set_previous_question "Select a predefined question"
     | Some _ => ret tt
     end) ;;
    previous <- get_previous_question ;;
    if negb (String.eqb selected_question "Select a predefined question")
       && negb (option_string_eqb previous selected_question)
    then
      st <- get_state ;;
      if SS.question_count st <? MAX_QUESTIONS_PER_SESSION then
        update_state (fun s => SS.set_question_count (SS.question_count s + 1) s) ;;
        match dict_get predefined_questions selected_question with
        | None => raise (KeyError selected_question)
        | Some detailed_question =>
            messages_append (mkEntry "user" selected_question) ;;
            st <- get_state ;;
            create_message (SS.thread_id st) "user" detailed_question ;;
            run_assistant fuel assistant_id ;;
            set_previous_question selected_question ;;
            st_rerun
        end
      else
        st_error limit_message ;;
        update_state reset_chat ;;
        st_rerun
    else ret tt
  else ret tt.

(** ** The script (lines 122-222) *)

(** [extract_pdf_content] (lines 71-77). *)
Definition extract_pdf_content (uploaded_file : UploadedFile) : M string :=
  match extract_text uploaded_file with
  | inl text => ret text
  | inr e => raise (ValueError ("Error extracting PDF content: " ++ e))
  end.

Definition session_limit_message : string :=
  "You have reached the maximum number of questions ("
  ++ str_of_int MAX_QUESTIONS_PER_SESSION
  ++ ") for this session. This assistant is currently in beta, there is a limit of questions per session. Please start a new session.".

(** The sidebar form (lines 141-174). *)
Definition sidebar_form (ui : Inputs) : M unit :=
  update_state (SS.set_job_type (job_type_selectbox ui)) ;;
  update_state (SS.set_resume_input_method (resume_input_radio ui)) ;;
  st <- get_state ;;
  (if String.eqb (SS.resume_input_method st) "Upload Context" then
     match resume_file_uploader ui with
     | Some uploaded_resume =>
         let (is_valid, message) := validate_resume (Some uploaded_resume) in
         if is_valid then
           text <- extract_pdf_content uploaded_resume ;;
           update_state (SS.set_resume_text text)
         else st_error message
     | None => ret tt
     end
   else update_state (SS.set_resume_text (resume_text_area ui))) ;;
  update_state (SS.set_job_input_method (job_input_radio ui)) ;;
  st <- get_state ;;
  if String.eqb (SS.job_input_method st) "Enter Job Description"
  then update_state (SS.set_job_description_text (job_description_text_area ui))
  else update_state (SS.set_job_url (job_url_text_input ui)).

(** The [Start Chat] button (lines 176-199). *)
Definition start_chat_clicked (ui : Inputs) : M unit :=
  st <- get_state ;;
  if negb (truthy (SS.job_type st))
     || (String.eqb (SS.job_input_method st) "Enter Job Description"
         && negb (truthy (SS.job_description_text st)))
     || (String.eqb (SS.job_input_method st) "Enter Job URL"
         && negb (truthy (SS.job_url st)))
  then st_error "Please fill in all required fields marked with :red[*]"
  else if String.eqb (SS.job_input_method st) "Enter Job Description" then
    let (is_valid, message) := validate_job_description (SS.job_description_text st) in
    if is_valid then update_state (SS.set_processing true) ;; st_rerun
    else st_error message
  else if truthy (SS.job_url st) then
    match fetch_content ui with
    | Some html_content =>
        if truthy html_content then
          update_state (SS.set_job_description_text (extract_and_clean_text ui)) ;;
          update_state (SS.set_processing true) ;;
          st_rerun
        else
          st_error "Failed to retrieve content. Please check the URL and try again." ;;
          time_sleep 2
    | None =>
        st_error "Failed to retrieve content. Please check the URL and try again." ;;
        time_sleep 2
    end
  else st_error "Please enter a valid Job URL.".

(** [main].  [get_session_state] (lines 38-41) hands back the one session
    object of the store, which starts as [SessionState.init]. *)
Definition main (fuel : nat) (assistant_id : string) (ui : Inputs) : M unit :=
  st <- get_state ;;
  if SS.question_count st >=? MAX_QUESTIONS_PER_SESSION then
    st_error session_limit_message ;;
    if start_new_session_button ui
    then update_state reset_chat ;; st_rerun
    else ret tt
  else
    sidebar_form ui ;;
    (if start_chat_button ui then start_chat_clicked ui else ret tt) ;;
    st <- get_state ;;
    (if SS.processing st then
       start_chat fuel assistant_id ;;
       update_state (SS.set_processing false) ;;
       st_rerun
     else ret tt) ;;
    (if exit_chat_button ui
     then update_state reset_chat ;; st_rerun
     else ret tt) ;;
    st <- get_state ;;
    if SS.start_chat st
    then chat_interface fuel assistant_id (chat_input ui) (predefined_question_selectbox ui)
    else ret tt.

End Core.

Arguments Store W : clear implicits.
Arguments M W A : clear implicits.
Arguments ret {W A} a.
Arguments bind {W A B} m k.
Arguments raise {W A} e.
Arguments st_rerun {W A}.
Arguments out_of_fuel {W A}.
Arguments emit {W} e.
Arguments time_sleep {W} secs.
Arguments st_error {W} msg.
Arguments get_state {W}.
Arguments update_state {W} f.
Arguments get_previous_question {W}.
Arguments set_previous_question {W} q.
Arguments invoke {W A} op func.
Arguments attr {W A B} o f.
Arguments safe_api_call_loop {W A} op func attempts.
Arguments safe_api_call {W A} op func.
Arguments create_thread {W} openai.
Arguments create_message {W} openai thread_id role content.
Arguments create_run {W} openai thread_id assistant_id.
Arguments get_run_status {W} openai thread_id run_id.
Arguments get_messages {W} openai thread_id.
Arguments poll_until_completed {W} openai fuel run.
Arguments first_text_value {W} message.
Arguments messages_append {W} entry.
Arguments append_assistant_messages {W} assistant_messages.
Arguments run_assistant {W} openai fuel assistant_id.
Arguments send_initial_messages {W} openai fuel assistant_id.
Arguments start_chat {W} openai fuel assistant_id.
Arguments chat_interface {W} openai fuel assistant_id user_input selected_question.
Arguments extract_pdf_content {W} uploaded_file.
Arguments sidebar_form {W} ui.
Arguments start_chat_clicked {W} ui.
Arguments main {W} openai fuel assistant_id ui.
Arguments mkStore {W} state previous_question world trace.
Arguments state {W} s.
Arguments previous_question {W} s.
Arguments world {W} s.
Arguments trace {W} s.
Arguments threads_create {W} r.
Arguments messages_create {W} r.
Arguments runs_create {W} r.
Arguments runs_retrieve {W} r.
Arguments messages_list {W} r.

(** ** A scripted remote service

    A remote service that answers every operation from a script: the
    responses still pending, then one response repeated for ever. *)

Record Script (A : Type) := mkScript {
  pending : list (Raised A);
  afterwards : Raised A
}.

Arguments mkScript {A} pending afterwards.
Arguments pending {A} s.
Arguments afterwards {A} s.

Definition next {A} (q : Script A) : Raised A * Script A :=
  match pending q with
  | [] => (afterwards q, q)
  | r :: rest => (r, mkScript rest (afterwards q))
  end.

Record Scripted := mkScripted {
  on_threads_create : Script Thread;
  on_messages_create : Script unit;
  on_runs_create : Script Run;
  on_runs_retrieve : Script Run;
  on_messages_list : Script (list Message)
}.

Definition scripted : Remote Scripted := {|
  threads_create := fun w =>
    let (r, q) := next (on_threads_create w) in
    (r, mkScripted q (on_messages_create w) (on_runs_create w)
                     (on_runs_retrieve w) (on_messages_list w));
  messages_create := fun _ _ _ w =>
    let (r, q) := next (on_messages_create w) in
    (r, mkScripted (on_threads_create w) q (on_runs_create w)
                     (on_runs_retrieve w) (on_messages_list w));
  runs_create := fun _ _ w =>
    let (r, q) := next (on_runs_create w) in
    (r, mkScripted (on_threads_create w) (on_messages_create w) q
                     (on_runs_retrieve w) (on_messages_list w));
  runs_retrieve := fun _ _ w =>
    let (r, q) := next (on_runs_retrieve w) in
    (r, mkScripted (on_threads_create w) (on_messages_create w) (on_runs_create w)
                     q (on_messages_list w));
  messages_list := fun _ w =>
    let (r, q) := next (on_messages_list w) in
    (r, mkScripted (on_threads_create w) (on_messages_create w) (on_runs_create w)
                     (on_runs_retrieve w) q)
|}.

(** A store for the scripted service, with an empty trace. *)
Definition store_of (st : SessionState) (w : Scripted) : Store Scripted :=
  mkStore st None w [].

(** A session in which a chat is going on: thread [T1], [n] questions asked. *)
Definition chatting (n : Z) : SessionState :=
  SS.set_question_count n
    (SS.set_thread_id (Some "T1") (SS.set_start_chat true SS.init)).

Definition text_message (run_id : option string) (role text : string) : Message :=
  mkMessage run_id role [TextContentBlock text].

(** The scripted service of the scenarios: thread [T1], every message
    accepted, run [R1] created as [queued]; the status requests answer from
    [polls] and the message list is [listing]. *)
Definition service (polls : Script Run) (listing : list Message) : Scripted :=
  mkScripted (mkScript [] (Returns (mkThread "T1")))
             (mkScript [] (Returns tt))
             (mkScript [] (Returns (mkRun "R1" "queued")))
             polls
             (mkScript [] (Returns listing)).

(** What the thread holds in the scenarios: a reply of an earlier run, the
    user's question, and two messages of run [R1]. *)
Definition thread_listing : list Message :=
  [ text_message (Some "R0") "assistant" "an earlier reply";
    text_message None "user" "hi";
    text_message (Some "R1") "assistant" "hello";
    text_message (Some "R1") "assistant" "how can I help?" ].

(** Every status request reports the run as failed. *)
Definition run_fails : Scripted :=
  service (mkScript [] (Returns (mkRun "R1" "failed"))) thread_listing.


(** A session with two entries in the transcript and five questions asked. *)
Definition prior_session : SessionState :=
  SS.set_messages [mkEntry "user" "hi"; mkEntry "assistant" "hello"] (chatting 5).

(** A run of the script in which the user touches nothing. *)
Definition idle : Inputs :=
  mkInputs false "Product Management" "Paste your context" None ""
           "Enter Job URL" "" "" false false None "Select a predefined question"
           None "".

(** Every status request meets the transient error. *)
Definition status_outage : Scripted :=
  service (mkScript [] (RaisesOpenAIError "connection reset")) thread_listing.

(** The status requests answer queued, in_progress, in_progress, completed. *)
Definition four_polls : Scripted :=
  service (mkScript [Returns (mkRun "R1" "queued"); Returns (mkRun "R1" "in_progress");
                     Returns (mkRun "R1" "in_progress")]
                    (Returns (mkRun "R1" "completed")))
          thread_listing.

(** The run is created as queued; the status requests answer in_progress,
    in_progress, completed. *)
Definition three_polls : Scripted :=
  service (mkScript [Returns (mkRun "R1" "in_progress"); Returns (mkRun "R1" "in_progress")]
                    (Returns (mkRun "R1" "completed")))
          thread_listing.

(** Thread creation meets the transient error at every attempt. *)
Definition no_threads : Scripted :=
  mkScripted (mkScript [] (RaisesOpenAIError "service unavailable"))
             (mkScript [] (Returns tt))
             (mkScript [] (Returns (mkRun "R1" "queued")))
             (mkScript [] (Returns (mkRun "R1" "completed")))
             (mkScript [] (Returns thread_listing)).

(** Thread creation fails twice with the transient error, then succeeds. *)
Definition flaky_threads : Scripted :=
  mkScripted (mkScript [RaisesOpenAIError "timeout"; RaisesOpenAIError "rate limit"]
                       (Returns (mkThread "T1")))
             (mkScript [] (Returns tt))
             (mkScript [] (Returns (mkRun "R1" "queued")))
             (mkScript [] (Returns (mkRun "R1" "completed")))
             (mkScript [] (Returns thread_listing)).

(** ** Further scenarios *)

(** The run is handed back as completed when it is created. *)
Definition completed_at_once (listing : list Message) : Scripted :=
  mkScripted (mkScript [] (Returns (mkThread "T1")))
             (mkScript [] (Returns tt))
             (mkScript [] (Returns (mkRun "R1" "completed")))
             (mkScript [] (Returns (mkRun "R1" "completed")))
             (mkScript [] (Returns listing)).

(** The second message of run [R1] is an image. *)
Definition listing_with_image : list Message :=
  [ text_message (Some "R1") "assistant" "hello";
    mkMessage (Some "R1") "assistant" [ImageFileContentBlock "file-1"];
    text_message (Some "R1") "assistant" "how can I help?" ].

(** The run is created as queued; the status requests answer in_progress,
    then completed; the second message of the run is an image. *)
Definition image_reply : Scripted :=
  service (mkScript [Returns (mkRun "R1" "in_progress")]
                    (Returns (mkRun "R1" "completed")))
          listing_with_image.

(** No message is accepted: posting meets the transient error every time. *)
Definition no_posting : Scripted :=
  mkScripted (mkScript [] (Returns (mkThread "T1")))
             (mkScript [] (RaisesOpenAIError "overloaded"))
             (mkScript [] (Returns (mkRun "R1" "queued")))
             (mkScript [] (Returns (mkRun "R1" "completed")))
             (mkScript [] (Returns thread_listing)).

(** A run of the script in which the user, having pasted a resume and a job
    URL, clicks [Exit Chat]. *)
Definition leaving : Inputs :=
  mkInputs false "Product Management" "Paste your context" None "my resume"
           "Enter Job URL" "" "https://example.org/job" false true None
           "Select a predefined question" None "".

(** A run of the script in which a resume of 6 MB is uploaded. *)
Definition large_upload : Inputs :=
  mkInputs false "Product Management" "Upload Context"
           (Some (mkUploadedFile (6 * 1024 * 1024) "application/pdf" (inl "resume")))
           "" "Enter Job URL" "" "" false false None
           "Select a predefined question" None "".

(** The session after the sidebar form took a pasted job description. *)
Definition form_filled : SessionState :=
  SS.set_job_description_text "Product manager, payments"
    (SS.set_job_input_method "Enter Job Description"
       (SS.set_job_type "Product Management" SS.init)).

(** ** Vocabulary of the statements *)

(** The remote state after [n] invocations of [func], and what the
    invocation number [n] (counting from 0) answers. *)
Fixpoint world_after {W A} (func : RemoteCall W A) (n : nat) (w : W) : W :=
  match n with
  | O => w
  | S n' => world_after func n' (snd (func w))
  end.

Definition response {W A} (func : RemoteCall W A) (n : nat) (w : W) : Raised A :=
  fst (func (world_after func n w)).


(** The transcript entry [run_assistant] makes of a thread message. *)
Definition entry_of_message (message : Message) (entry : Entry) : Prop :=
  role entry = "assistant"
  /\ exists rest, Message_content message = TextContentBlock (content entry) :: rest.

(** The quota invariant. *)
Definition within_quota (st : SessionState) : Prop :=
  0 <= SS.question_count st <= MAX_QUESTIONS_PER_SESSION.

(** The trace of [n] polls of a run: a sleep of one time unit, then the
    status request. *)
Fixpoint poll_trace (thread_id : option string) (run_id : string) (n : nat)
    : list Event :=
  match n with
  | O => []
  | S n' => EvSleep 1 :: EvCall (RunsRetrieve thread_id run_id)
            :: poll_trace thread_id run_id n'
  end.

(** The remote service handed [run] back, from [runs.create] or from
    [runs.retrieve]. *)
Definition handed_back {W} (openai : Remote W) (run : Run) : Prop :=
  exists thread_id x w w',
    runs_create openai thread_id x w = (Returns run, w')
    \/ runs_retrieve openai thread_id x w = (Returns run, w').

(** The remote service listed [messages] for some thread. *)
Definition listed {W} (openai : Remote W) (messages : list Message) : Prop :=
  exists thread_id w w', messages_list openai thread_id w = (Returns messages, w').

(** [post m s Q]: running [m] from the store [s] ends in an outcome and a
    store that satisfy [Q]. *)
Definition post {W A} (m : M W A) (s : Store W)
    (Q : Result A -> Store W -> Prop) : Prop :=
  Q (fst (m s)) (snd (m s)).

(** The polling loop, seen from the remote service.  Starting from [run] in
    the remote state [w], a status request is made while the status is not
    [completed], each one for the id of the run last handed back; after [n]
    requests the service has handed back [last], the first run it reports
    as [completed], and is in the state [w'].  [events] is what the loop adds
    to the trace. *)
Inductive polled {W} (openai : Remote W) (thread_id : option string)
    : nat -> Run -> W -> list Event -> Run -> W -> Prop :=
| polled_done run w :
    Run_status run = "completed" ->
    polled openai thread_id 0 run w [] run w
| polled_step n run w next w1 events last w' :
    Run_status run <> "completed" ->
    runs_retrieve openai thread_id (Run_id run) w = (Returns next, w1) ->
    polled openai thread_id n next w1 events last w' ->
    polled openai thread_id (S n) run w
           (EvSleep 1 :: EvCall (RunsRetrieve thread_id (Run_id run)) :: events)
           last w'.

(** One run of the assistant on [thread_id] that the service completed,
    from the remote state [w] to [w']: the run is created, polled [polls]
    times until it is handed back as [run] with status [completed], and the
    messages of the thread are then listed as [messages].  [events] is what
    this adds to the trace. *)
Definition completed_run {W} (openai : Remote W) (thread_id : option string)
    (assistant_id : string) (w : W) (polls : nat) (run : Run)
    (messages : list Message) (events : list Event) (w' : W) : Prop :=
  exists created w1 polling w2,
    runs_create openai thread_id assistant_id w = (Returns created, w1)
    /\ polled openai thread_id polls created w1 polling run w2
    /\ messages_list openai thread_id w2 = (Returns messages, w')
    /\ events = (EvCall (RunsCreate thread_id assistant_id) :: polling
                 ++ [EvCall (MessagesList thread_id)])%list.

(** Where the entries [appended] by one call of [run_assistant] come from:
    a run of the assistant that the service completed, starting in the
    remote state [w]; the entries are those of the first messages, in the
    order of the listing, that carry the id of that run and the role
    [assistant], and of all of them when [whole] holds. *)
Definition from_completed_run {W} (openai : Remote W) (thread_id : option string)
    (assistant_id : string) (w : W) (whole : Prop) (appended : list Entry)
    (events : list Event) (w' : W) : Prop :=
  exists polls run messages taken rest,
    completed_run openai thread_id assistant_id w polls run messages events w'
    /\ Run_status run = "completed"
    /\ assistant_messages_of messages run = (taken ++ rest)%list
    /\ Forall (fun m => Message_run_id m = Some (Run_id run)
                        /\ Message_role m = "assistant") (taken ++ rest)%list
    /\ Forall2 entry_of_message taken appended
    /\ (whole -> rest = []).

(** What a submission from the chat page that went through has done, from
    the store [s] to the store [s']: the question was posted to the
    session's thread as a user message (for a predefined question, the
    detailed prompt kept under the label selected), one user entry with the
    question was appended to the transcript, and after it the entries of the
    run that followed, a run that the service completed. *)
Definition submitted {W} (openai : Remote W) (assistant_id : string) (s : Store W)
    (user_input : option string) (selected_question : string)
    (s' : Store W) : Prop :=
  exists question posted w1 appended events,
    ((user_input = Some question /\ posted = question)
     \/ (selected_question = question
         /\ dict_get predefined_questions question = Some posted))
    /\ messages_create openai (SS.thread_id (state s)) "user" posted (world s)
       = (Returns tt, w1)
    /\ from_completed_run openai (SS.thread_id (state s)) assistant_id w1 True
                          appended events (world s')
    /\ SS.messages (state s')
       = (SS.messages (state s) ++ mkEntry "user" question :: appended)%list
    /\ trace s'
       = (trace s
          ++ EvCall (MessagesCreate (SS.thread_id (state s)) "user" posted)
          :: events)%list.

(** What a seeding that went through has done, from the store [s] to the
    store [s']: each of the two seed prompts was posted to the session's
    thread as a user message and followed by a run that the service
    completed; the entries of the two runs were appended to the transcript,
    and no entry for the prompts. *)
Definition seeded {W} (openai : Remote W) (assistant_id : string)
    (s s' : Store W) : Prop :=
  exists w1 appended1 events1 w2 w3 appended2 events2,
    messages_create openai (SS.thread_id (state s)) "user" (initial_prompt (state s))
                    (world s) = (Returns tt, w1)
    /\ from_completed_run openai (SS.thread_id (state s)) assistant_id w1 True
                          appended1 events1 w2
    /\ messages_create openai (SS.thread_id (state s)) "user" second_prompt w2
       = (Returns tt, w3)
    /\ from_completed_run openai (SS.thread_id (state s)) assistant_id w3 True
                          appended2 events2 (world s')
    /\ s' = mkStore (SS.set_assistant_is_typing false
                       (SS.set_messages (SS.messages (state s) ++ appended1 ++ appended2)
                                        (state s)))
                    (previous_question s) (world s')
                    (trace s
                     ++ EvCall (MessagesCreate (SS.thread_id (state s)) "user"
                                               (initial_prompt (state s)))
                     :: events1
                     ++ EvCall (MessagesCreate (SS.thread_id (state s)) "user"
                                               second_prompt)
                     :: events2).

(** A transcript every entry of which is accounted for: it is made of user
    entries and of blocks of entries, each block being what one call of
    [run_assistant] appended from a run that the service completed. *)
Inductive justified {W} (openai : Remote W) : list Entry -> Prop :=
| justified_nil : justified openai []
| justified_user entries text :
    justified openai entries ->
    justified openai (entries ++ [mkEntry "user" text])
| justified_run entries thread_id assistant_id w whole appended events w' :
    justified openai entries ->
    from_completed_run openai thread_id assistant_id w whole appended events w' ->
    justified openai (entries ++ appended).

Definition justified_session {W} (openai : Remote W) (st : SessionState) : Prop :=
  justified openai (SS.messages st).

(** [m] never writes [question_count]. *)
Definition keeps_count {W A} (m : M W A) : Prop :=
  forall s, SS.question_count (state (snd (m s))) = SS.question_count (state s).

(** [m] never returns: it ends in an exception, in [st.rerun()], or in the
    polling loop. *)
Definition no_return {W A} (m : M W A) : Prop :=
  forall s a, fst (m s) <> Val a.

(** What one operation may do to the count: the session stays within the
    quota, and the count does not go down unless the session was reset. *)
Definition quota_kept {W} (n : Z) (s' : Store W) : Prop :=
  within_quota (state s')
  /\ (n <= SS.question_count (state s') \/ exists st0, state s' = reset_chat st0).

(** The store after a series of runs of the script, each with its inputs
    (and the fuel of its polling loops); the session object lives on from one
    run to the next, however the run ended. *)
Fixpoint after_runs {W} (openai : Remote W) (assistant_id : string)
    (runs : list (nat * Inputs)) (s : Store W) : Store W :=
  match runs with
  | [] => s
  | (fuel, ui) :: rest =>
      after_runs openai assistant_id rest (snd (main openai fuel assistant_id ui s))
  end.

(** ** Vocabulary of the further properties *)

(** The exception [message.content[0].text.value] ends in, if any. *)
Definition first_text_failure (message : Message) : option Exn :=
  match Message_content message with
  | [] => Some IndexError
  | TextContentBlock _ :: _ => None
  | ImageFileContentBlock _ :: _ => Some AttributeError
  end.

(** Every field of the session object but [messages] and
    [assistant_is_typing]. *)
Definition outside_run (st : SessionState)
    : bool * option string * bool * string * string * string
      * bool * string * string * string * Z :=
  (SS.start_chat st, SS.thread_id st, SS.buttons_shown st, SS.resume_text st,
   SS.job_description_text st, SS.job_type st, SS.processing st,
   SS.job_input_method st, SS.job_url st, SS.resume_input_method st,
   SS.question_count st).

(** [m], run from a session that satisfies [I], adds to the trace only
    events that satisfy [P], and a session that satisfies [I] is what it
    returns with. *)
Definition emits {W A} (I : SessionState -> Prop) (P : Event -> Prop)
    (m : M W A) : Prop :=
  forall s, I (state s) ->
    exists events,
      trace (snd (m s)) = (trace s ++ events)%list
      /\ Forall P events
      /\ (forall a, fst (m s) = Val a -> I (state (snd (m s)))).

(** What [run_assistant] may put in the trace for the thread [thread_id]:
    the sleeps of the polling loop and of the retry wrapper, and the
    requests about runs and messages of that thread. *)
Definition run_event (thread_id : option string) (assistant_id : string)
    (ev : Event) : Prop :=
  match ev with
  | EvSleep secs => secs = 1 \/ secs = RETRY_DELAY
  | EvCall (RunsCreate t a) => t = thread_id /\ a = assistant_id
  | EvCall (RunsRetrieve t _) => t = thread_id
  | EvCall (MessagesList t) => t = thread_id
  | _ => False
  end.

(** The thread a remote request addresses, if it addresses one. *)
Definition thread_of (ev : Event) : option (option string) :=
  match ev with
  | EvCall (MessagesCreate thread_id _ _) => Some thread_id
  | EvCall (RunsCreate thread_id _) => Some thread_id
  | EvCall (RunsRetrieve thread_id _) => Some thread_id
  | EvCall (MessagesList thread_id) => Some thread_id
  | _ => None
  end.

(** What seeding a chat may put in the trace: the events of its runs, and
    the two seed prompts posted as user messages. *)
Definition seed_event (st : SessionState) (thread_id : option string)
    (assistant_id : string) (ev : Event) : Prop :=
  run_event thread_id assistant_id ev
  \/ ev = EvCall (MessagesCreate thread_id "user" (initial_prompt st))
  \/ ev = EvCall (MessagesCreate thread_id "user" second_prompt).

(** The number of user entries of a transcript. *)
Definition user_entries (entries : list Entry) : Z :=
  Z.of_nat (List.length (filter (fun e => String.eqb (role e) "user") entries)).

(** What holds of the transcript and the count together: every user entry
    of the transcript was counted, and the transcript holds user and
    assistant entries only. *)
Definition transcript_counted (st : SessionState) : Prop :=
  0 <= SS.question_count st
  /\ user_entries (SS.messages st) <= SS.question_count st
  /\ Forall (fun e => role e = "user" \/ role e = "assistant") (SS.messages st).

(** [m], run from a session that satisfies [I], leaves a session that
    satisfies [I], however it ends. *)
Definition maintains {W A} (I : SessionState -> Prop) (m : M W A) : Prop :=
  forall s, I (state s) -> I (state (snd (m s))).

(** What a run of the script may do to the count [n] it starts with. *)
Definition count_step {W} (n : Z) (s' : Store W) : Prop :=
  SS.question_count (state s') = n
  \/ SS.question_count (state s') = n + 1
  \/ SS.question_count (state s') = 0.

(** ** Cleaning the text of a page (lines 114-120)

    Python strings are sequences of code points, and the string methods used
    here look at code points (the white space of [str.strip], the line
    boundaries of [str.splitlines]), so in this part a [str] is the list of
    its code points. *)
Module Scraping.

Local Open Scope list_scope.
Local Open Scope N_scope.

Abbreviation str := (list N).

(** [re.sub(r'C+', repl, text)] for a class [C] of characters: every maximal
    run of characters of the class becomes one [repl].  [inside] says that
    the character before was in the class. *)
Fixpoint sub_runs (in_class : N -> bool) (repl : N) (inside : bool) (text : str) : str :=
  match text with
  | [] => []
  | c :: rest =>
      if in_class c
      then if inside
           then sub_runs in_class repl true rest
           else repl :: sub_runs in_class repl true rest
      else c :: sub_runs in_class repl false rest
  end.

Definition re_sub_plus (in_class : N -> bool) (repl : N) (text : str) : str :=
  sub_runs in_class repl false text.

(** The line boundaries of [str.splitlines]: LF, CR, VT, FF, FS, GS, RS, NEL,
    LINE SEPARATOR and PARAGRAPH SEPARATOR. *)
Definition is_line_boundary (c : N) : bool :=
  (c =? 10) || (c =? 13) || (c =? 11) || (c =? 12) || (c =? 28) || (c =? 29)
  || (c =? 30) || (c =? 133) || (c =? 8232) || (c =? 8233).

(** [str.isspace] on one character, the white space [str.strip()] removes. *)
Definition is_space (c : N) : bool :=
  ((9 <=? c) && (c <=? 13)) || ((28 <=? c) && (c <=? 31)) || (c =? 32)
  || (c =? 133) || (c =? 160) || (c =? 5760) || ((8192 <=? c) && (c <=? 8202))
  || (c =? 8232) || (c =? 8233) || (c =? 8239) || (c =? 8287) || (c =? 12288).

(** [text.splitlines()]: the lines without their boundaries; CR LF is one
    boundary; a boundary at the very end opens no further line. *)
Fixpoint splitlines (text : str) : list str :=
  match text with
  | [] => []
  | c :: rest =>
      if is_line_boundary c then
        [] :: match rest with
              | c' :: rest' =>
                  if (c =? 13) && (c' =? 10) then splitlines rest' else splitlines rest
              | [] => []
              end
      else
        match splitlines rest with
        | [] => [[c]]
        | line :: lines => (c :: line) :: lines
        end
  end.

(** [text.lstrip()], [text.rstrip()], [text.strip()]. *)
Fixpoint lstrip (text : str) : str :=
  match text with
  | [] => []
  | c :: rest => if is_space c then lstrip rest else text
  end.

Definition rstrip (text : str) : str := rev (lstrip (rev text)).

Definition strip (text : str) : str := rstrip (lstrip text).

(** [sep.join(parts)]. *)
Fixpoint join (sep : str) (parts : list str) : str :=
  match parts with
  | [] => []
  | [part] => part
  | part :: rest => part ++ sep ++ join sep rest
  end.

(** Truth value of a string. *)
Definition nonempty (text : str) : bool :=
  match text with [] => false | _ => true end.

(** [extract_and_clean_text] from line 117 on; [raw_text] is what
    [soup.get_text(separator='\n')] returned for the page. *)
Definition extract_and_clean_text (raw_text : str) : str :=
  let cleaned_text := re_sub_plus (fun c => c =? 10) 10 raw_text in
  let cleaned_text := re_sub_plus (fun c => (c =? 32) || (c =? 9)) 32 cleaned_text in
  let cleaned_text :=
    join [10] (map strip (filter (fun line => nonempty (strip line))
                                 (splitlines cleaned_text))) in
  strip cleaned_text.

(** Vocabulary of the statements about the cleaning. *)

(** No character of the class directly follows another one of the class;
    [prev] says whether the character before [text] is in the class. *)
Fixpoint runs_free (in_class : N -> bool) (prev : bool) (text : str) : bool :=
  match text with
  | [] => true
  | c :: rest =>
      if in_class c then negb prev && runs_free in_class true rest
      else runs_free in_class false rest
  end.

Definition spaces_or_tabs (c : N) : bool := (c =? 32) || (c =? 9).

(** A line as the cleaning leaves it: not empty, no white space at either
    end, no line boundary and no tab inside, no two spaces in a row. *)
Definition tidy (line : str) : Prop :=
  line <> []
  /\ strip line = line
  /\ Forall (fun c => is_line_boundary c = false /\ c <> 9) line
  /\ runs_free spaces_or_tabs false line = true.

Definition visible (text : str) : str := filter (fun c => negb (is_space c)) text.

End Scraping.

(** * Properties *)

(** Equations between session objects are settled field by field. *)
Ltac session_eq :=
  repeat match goal with
         | H : state _ = _ |- _ => rewrite H; clear H
         | H : previous_question _ = _ |- _ => rewrite H; clear H
         end;
  simpl;
  match goal with
  | |- context [state ?s] => destruct (state s); simpl; rewrite ?app_nil_r; reflexivity
  | |- _ => reflexivity
  end.

Section Facts.

Variable W : Type.
Variable openai : Remote W.

Implicit Types (s : Store W) (st : SessionState).

(** ** The monad *)

Lemma bind_unfold {A B} (m : M W A) (k : A -> M W B) s :
  bind m k s =
  match m s with
  | (Val a, s') => k a s'
  | (Exc e, s') => (Exc e, s')
  | (Rerun, s') => (Rerun, s')
  | (OutOfFuel, s') => (OutOfFuel, s')
  end.
Proof. reflexivity. Qed.

Lemma bind_val {A B} (m : M W A) (k : A -> M W B) s a s' :
  m s = (Val a, s') -> bind m k s = k a s'.
Proof. intros H. rewrite bind_unfold, H. reflexivity. Qed.

Lemma bind_exc {A B} (m : M W A) (k : A -> M W B) s e s' :
  m s = (Exc e, s') -> bind m k s = (Exc e, s').
Proof. intros H. rewrite bind_unfold, H. reflexivity. Qed.

Lemma bind_rerun {A B} (m : M W A) (k : A -> M W B) s s' :
  m s = (Rerun, s') -> bind m k s = (Rerun, s').
Proof. intros H. rewrite bind_unfold, H. reflexivity. Qed.


(** The rules of [post]. *)
Lemma post_conseq {A} (m : M W A) s (Q Q' : Result A -> Store W -> Prop) :
  post m s Q -> (forall r s', Q r s' -> Q' r s') -> post m s Q'.
Proof. unfold post. auto. Qed.

Lemma post_bind {A B} (m : M W A) (k : A -> M W B) s (Q : Result B -> Store W -> Prop) :
  post m s (fun r s1 =>
              match r with
              | Val a => post (k a) s1 Q
              | Exc e => Q (Exc e) s1
              | Rerun => Q Rerun s1
              | OutOfFuel => Q OutOfFuel s1
              end) ->
  post (bind m k) s Q.
Proof.
  unfold post. rewrite bind_unfold.
  destruct (m s) as [[a|e| |] s1]; simpl; auto.
Qed.

Lemma post_ret {A} (a : A) s (Q : Result A -> Store W -> Prop) :
  Q (Val a) s -> post (ret a) s Q.
Proof. unfold post. auto. Qed.

Lemma post_raise {A} e s (Q : Result A -> Store W -> Prop) :
  Q (Exc e) s -> post (raise e) s Q.
Proof. unfold post. auto. Qed.

Lemma post_rerun {A} s (Q : Result A -> Store W -> Prop) :
  Q Rerun s -> post st_rerun s Q.
Proof. unfold post. auto. Qed.

Lemma post_out_of_fuel {A} s (Q : Result A -> Store W -> Prop) :
  Q OutOfFuel s -> post out_of_fuel s Q.
Proof. unfold post. auto. Qed.

Lemma post_get_state s (Q : Result SessionState -> Store W -> Prop) :
  Q (Val (state s)) s -> post get_state s Q.
Proof. unfold post. auto. Qed.

Lemma post_update_state f s (Q : Result unit -> Store W -> Prop) :
  Q (Val tt) (mkStore (f (state s)) (previous_question s) (world s) (trace s)) ->
  post (update_state f) s Q.
Proof. unfold post. auto. Qed.

Lemma post_emit ev s (Q : Result unit -> Store W -> Prop) :
  Q (Val tt) (mkStore (state s) (previous_question s) (world s) (trace s ++ [ev])) ->
  post (emit ev) s Q.
Proof. unfold post. auto. Qed.

Lemma post_get_previous_question s (Q : Result (option string) -> Store W -> Prop) :
  Q (Val (previous_question s)) s -> post get_previous_question s Q.
Proof. unfold post. auto. Qed.

Lemma post_set_previous_question q s (Q : Result unit -> Store W -> Prop) :
  Q (Val tt) (mkStore (state s) (Some q) (world s) (trace s)) ->
  post (set_previous_question q) s Q.
Proof. unfold post. auto. Qed.

(** Record eta for the store. *)
Lemma store_eta s : mkStore (state s) (previous_question s) (world s) (trace s) = s.
Proof. destruct s; reflexivity. Qed.

(** ** The retry wrapper *)

Lemma range_MAX_RETRIES : range MAX_RETRIES = [0; 1; 2].
Proof. reflexivity. Qed.

(** [safe_api_call] invokes the operation once, whatever it answers: a
    value comes back as it is, and an exception of either kind is replaced
    by the [AttributeError] of the handler's class expression. *)
Lemma safe_api_call_once {A} (op : Op) (func : RemoteCall W A) s :
  safe_api_call op func s
  = (match fst (func (world s)) with
     | Returns a => Val (Some a)
     | RaisesOpenAIError _ | RaisesOther _ => Exc AttributeError
     end,
     mkStore (state s) (previous_question s) (snd (func (world s)))
             (trace s ++ [EvCall op])).
Proof.
  unfold safe_api_call. rewrite range_MAX_RETRIES. simpl.
  unfold bind, invoke. destruct (func (world s)) as [[a|e|e] w1]; reflexivity.
Qed.

(** What a caller can rely on: the session is untouched, and a value that
    comes back is one the remote operation returned. *)
Lemma safe_api_call_post {A} (op : Op) (func : RemoteCall W A) s :
  post (safe_api_call op func) s (fun r s' =>
    state s' = state s /\ previous_question s' = previous_question s
    /\ match r with
       | Val (Some a) => exists w w', func w = (Returns a, w')
       | Exc _ => True
       | _ => False
       end).
Proof.
  unfold post. rewrite safe_api_call_once. simpl.
  split; [reflexivity|]. split; [reflexivity|].
  destruct (func (world s)) as [[a|e|e] w'] eqn:E; simpl; eauto.
Qed.

(** ** The polling loop *)

Lemma poll_until_completed_eq fuel run :
  poll_until_completed openai fuel run =
  match run with
  | None => raise AttributeError
  | Some r =>
      if negb (String.eqb (Run_status r) "completed") then
        match fuel with
        | O => out_of_fuel
        | S fuel' =>
            bind (time_sleep 1) (fun _ =>
            bind get_state (fun st =>
            bind (get_run_status openai (SS.thread_id st) (Run_id r)) (fun run' =>
            poll_until_completed openai fuel' run')))
        end
      else ret r
  end.
Proof. destruct fuel; reflexivity. Qed.

(** The loop leaves the session alone, and what it returns is a run the
    remote service reported as completed. *)
Lemma poll_until_completed_post fuel : forall run s,
  (forall r, run = Some r -> handed_back openai r) ->
  post (poll_until_completed openai fuel run) s (fun r s' =>
    state s' = state s /\ previous_question s' = previous_question s
    /\ match r with
       | Val r => Run_status r = "completed" /\ handed_back openai r
       | Rerun => False
       | _ => True
       end).
Proof.
  induction fuel as [|fuel IH]; intros run s Hrun; rewrite poll_until_completed_eq;
    destruct run as [r|]; try (apply post_raise; auto).
  - destruct (String.eqb (Run_status r) "completed") eqn:E; simpl.
    + apply post_ret. apply String.eqb_eq in E. auto.
    + apply post_out_of_fuel. auto.
  - destruct (String.eqb (Run_status r) "completed") eqn:E; simpl.
    + apply post_ret. apply String.eqb_eq in E. auto.
    + apply post_bind, post_emit. apply post_bind, post_get_state.
      apply post_bind. unfold get_run_status.
      eapply post_conseq; [apply safe_api_call_post|].
      intros r0 s1 (Hst & Hpq & Hr). simpl in Hst, Hpq.
      destruct r0 as [[run'|]|e| |]; try contradiction; auto.
      eapply post_conseq.
      * apply IH. intros r' [= <-]. destruct Hr as (w & w' & Hr).
        exists (SS.thread_id (state s)), (Run_id r), w, w'. auto.
      * intros r1 s2 (Hst2 & Hpq2 & Hr2). rewrite Hst2, Hpq2. auto.
Qed.

(** ** Appending the assistant's messages *)

Lemma set_messages_twice l1 l2 st :
  SS.set_messages (SS.messages (SS.set_messages l1 st) ++ l2) (SS.set_messages l1 st)
  = SS.set_messages (l1 ++ l2) st.
Proof. destruct st; reflexivity. Qed.

Lemma set_messages_same st : SS.set_messages (SS.messages st) st = st.
Proof. destruct st; reflexivity. Qed.

(** The loop appends entries to the transcript and touches nothing else;
    when it returns, there is one entry for each message, in order. *)
Lemma append_assistant_messages_post : forall l s,
  post (append_assistant_messages l) s (fun r s' =>
    exists appended,
      s' = mkStore (SS.set_messages (SS.messages (state s) ++ appended) (state s))
                   (previous_question s) (world s) (trace s)
      /\ Forall (fun e => role e = "assistant") appended
      /\ match r with
         | Val _ => Forall2 entry_of_message l appended
         | Exc e => e = IndexError \/ e = AttributeError
         | _ => False
         end).
Proof.
  induction l as [|m l IH]; intros s; simpl.
  - apply post_ret. exists []. rewrite app_nil_r, set_messages_same, store_eta. auto.
  - apply post_bind. unfold first_text_value.
    destruct (Message_content m) as [|[value|file] rest] eqn:E.
    + apply post_raise. exists [].
      rewrite app_nil_r, set_messages_same, store_eta. auto.
    + apply post_ret. apply post_bind. unfold messages_append. apply post_update_state.
      eapply post_conseq; [apply IH|].
      intros r s' (appended & -> & Hall & Hr). simpl.
      exists (mkEntry "assistant" value :: appended).
      rewrite set_messages_twice, <- app_assoc. simpl.
      split; [reflexivity|]. split; [constructor; auto|].
      destruct r; auto. constructor; auto.
      split; [reflexivity|]. exists rest. exact E.
    + apply post_raise. exists [].
      rewrite app_nil_r, set_messages_same, store_eta. auto.
Qed.

(** ** The run/poll engine *)

(** [run_assistant] changes two fields of the session at most: the typing
    flag, and the transcript, to which it appends assistant entries only.
    When it returns, the entries are those of the messages the remote
    service listed for a run it reported as completed. *)
Lemma run_assistant_post fuel assistant_id s :
  post (run_assistant openai fuel assistant_id) s (fun r s' =>
    previous_question s' = previous_question s
    /\ exists typing appended,
         state s' = SS.set_assistant_is_typing typing
                      (SS.set_messages (SS.messages (state s) ++ appended) (state s))
         /\ Forall (fun e => role e = "assistant") appended
         /\ match r with
            | Val _ =>
                typing = false
                /\ exists run messages,
                     Run_status run = "completed"
                     /\ handed_back openai run
                     /\ listed openai messages
                     /\ Forall2 entry_of_message
                                (assistant_messages_of messages run) appended
            | Rerun => False
            | _ => True
            end).
Proof.
  unfold run_assistant.
  apply post_bind, post_get_state. apply post_bind. unfold create_run.
  eapply post_conseq; [apply safe_api_call_post|].
  intros r0 s1 (Hst1 & Hpq1 & Hr0).
  destruct r0 as [[run|]|e| |]; try contradiction.
  2: { split; [assumption|]. exists (SS.assistant_is_typing (state s)), [].
       split; [session_eq | auto]. }
  apply post_bind, post_update_state. apply post_bind.
  eapply post_conseq.
  { apply poll_until_completed_post. intros r [= <-]. destruct Hr0 as (w & w' & Hr0).
    exists (SS.thread_id (state s)), assistant_id, w, w'. auto. }
  intros r1 s2 (Hst2 & Hpq2 & Hr1). simpl in Hst2, Hpq2.
  destruct r1 as [run1|e| |]; try contradiction.
  2, 3: split; [congruence|]; exists true, []; split; [session_eq | auto].
  destruct Hr1 as [Hcompleted Hback].
  apply post_bind, post_get_state. apply post_bind. unfold get_messages.
  eapply post_conseq; [apply safe_api_call_post|].
  intros r3 s3 (Hst3 & Hpq3 & Hr3).
  destruct r3 as [[messages|]|e| |]; try contradiction.
  2: { split; [congruence|]. exists true, []. split; [session_eq | auto]. }
  apply post_bind.
  eapply post_conseq; [apply append_assistant_messages_post|].
  intros r4 s4 (appended & -> & Hall & Hr4).
  destruct r4 as [[]|e| |]; try contradiction.
  - apply post_update_state. simpl. split; [congruence|].
    exists false, appended. split; [session_eq|]. split; [assumption|].
    split; [reflexivity|]. exists run1, messages.
    destruct Hr3 as (w & w' & Hr3).
    repeat split; auto. exists (SS.thread_id (state s2)), w, w'. exact Hr3.
  - simpl. split; [congruence|].
    exists true, appended. split; [session_eq | auto].
Qed.

(** An attempt that raises ends the call, whatever was raised. *)
Lemma safe_api_call_fails {A} (op : Op) (func : RemoteCall W A) s :
  (forall a, fst (func (world s)) <> Returns a) ->
  safe_api_call op func s
  = (Exc AttributeError,
     mkStore (state s) (previous_question s) (snd (func (world s)))
             (trace s ++ [EvCall op])).
Proof.
  intros Hfails. rewrite safe_api_call_once.
  destruct (func (world s)) as [[a|e|e] w1]; simpl in *;
    [exfalso; apply (Hfails a) |..]; reflexivity.
Qed.

(** ** Where the assistant's entries come from *)

Lemma assistant_messages_of_spec messages run :
  Forall (fun m => Message_run_id m = Some (Run_id run)
                   /\ Message_role m = "assistant")
         (assistant_messages_of messages run).
Proof.
  apply Forall_forall. intros m Hin. unfold assistant_messages_of in Hin.
  apply filter_In in Hin. destruct Hin as [_ Hm].
  apply andb_true_iff in Hm. destruct Hm as [Hid Hrole].
  apply String.eqb_eq in Hrole. split; [|exact Hrole].
  destruct (Message_run_id m) as [i|]; simpl in Hid; [|discriminate].
  apply String.eqb_eq in Hid. congruence.
Qed.

Lemma safe_api_call_exact {A} (op : Op) (func : RemoteCall W A) s :
  post (safe_api_call op func) s (fun r s' =>
    s' = mkStore (state s) (previous_question s) (snd (func (world s)))
                 (trace s ++ [EvCall op])
    /\ match r with
       | Val (Some a) => fst (func (world s)) = Returns a
       | Exc _ => True
       | _ => False
       end).
Proof.
  unfold post. rewrite safe_api_call_once. cbn [fst snd]. split; [reflexivity|].
  destruct (func (world s)) as [[a|e|e] w']; simpl; auto.
Qed.

Lemma polled_completed thread_id n run w events last w' :
  polled openai thread_id n run w events last w' -> Run_status last = "completed".
Proof. induction 1; assumption. Qed.

(** What the loop returns is what the status requests led to. *)
Lemma poll_until_completed_polled fuel : forall run s,
  post (poll_until_completed openai fuel (Some run)) s (fun r s' =>
    exists events,
      s' = mkStore (state s) (previous_question s) (world s') (trace s ++ events)
      /\ match r with
         | Val last =>
             exists n, (n <= fuel)%nat
                       /\ polled openai (SS.thread_id (state s)) n run (world s)
                                 events last (world s')
         | Rerun => False
         | _ => True
         end).
Proof.
  induction fuel as [|fuel IH]; intros run s; rewrite poll_until_completed_eq;
    destruct (String.eqb (Run_status run) "completed") eqn:E; simpl.
  1, 3: apply post_ret; exists []; rewrite app_nil_r, store_eta;
    split; [reflexivity|]; exists 0%nat; split; [lia|];
    constructor; apply String.eqb_eq; exact E.
  - apply post_out_of_fuel. exists []. rewrite app_nil_r, store_eta. auto.
  - apply String.eqb_neq in E.
    apply post_bind, post_emit. apply post_bind, post_get_state.
    apply post_bind. unfold get_run_status.
    eapply post_conseq; [apply safe_api_call_exact|].
    cbn [state previous_question world trace].
    intros r0 s1 (-> & Hr0).
    destruct r0 as [[next|]|e| |]; try contradiction.
    + eapply post_conseq; [apply IH|].
      cbn [state previous_question world trace].
      intros r1 s2 (events & Hs2 & Hr1).
      exists (EvSleep 1 :: EvCall (RunsRetrieve (SS.thread_id (state s)) (Run_id run))
              :: events).
      split.
      * rewrite Hs2 at 1. rewrite <- !app_assoc. reflexivity.
      * destruct r1 as [last|e| |]; auto.
        destruct Hr1 as (n & Hn & Hpolled). exists (S n). split; [lia|].
        eapply polled_step; [exact E | | exact Hpolled].
        rewrite <- Hr0. apply surjective_pairing.
    + exists [EvSleep 1; EvCall (RunsRetrieve (SS.thread_id (state s)) (Run_id run))].
      cbn [world]. rewrite <- app_assoc. auto.
Qed.

(** With the fuel for it, the loop follows the status requests. *)
Lemma poll_until_completed_follows thread_id n run w events last w' :
  polled openai thread_id n run w events last w' ->
  forall fuel s,
    (n <= fuel)%nat -> world s = w -> SS.thread_id (state s) = thread_id ->
    poll_until_completed openai fuel (Some run) s
    = (Val last, mkStore (state s) (previous_question s) w' (trace s ++ events)).
Proof.
  induction 1 as [run w Hdone | n run w next w1 events last w' Hnot Hnext _ IH];
    intros fuel s Hfuel Hw Hthread; rewrite poll_until_completed_eq.
  - rewrite Hdone. simpl. unfold ret. rewrite app_nil_r, <- Hw, store_eta. reflexivity.
  - apply String.eqb_neq in Hnot. rewrite Hnot. simpl.
    destruct fuel as [|fuel]; [lia|].
    erewrite bind_val by reflexivity. erewrite bind_val by reflexivity.
    cbn [state previous_question world trace].
    erewrite bind_val.
    2: { unfold get_run_status. rewrite safe_api_call_once.
         cbn [state previous_question world trace]. rewrite Hthread, Hw, Hnext.
         reflexivity. }
    rewrite IH; cbn [state previous_question world trace]; [|lia|reflexivity|exact Hthread].
    rewrite <- !app_assoc. reflexivity.
Qed.

(** The loop of lines 351-352 makes one entry for each message, in order,
    until a message has no leading text block. *)
Lemma append_assistant_messages_prefix : forall l s,
  post (append_assistant_messages l) s (fun r s' =>
    exists taken rest appended,
      l = (taken ++ rest)%list
      /\ Forall2 entry_of_message taken appended
      /\ s' = mkStore (SS.set_messages (SS.messages (state s) ++ appended) (state s))
                      (previous_question s) (world s) (trace s)
      /\ match r with
         | Val _ => rest = []
         | Exc _ => True
         | _ => False
         end).
Proof.
  induction l as [|m l IH]; intros s; simpl.
  - apply post_ret. exists [], [], [].
    simpl app; rewrite app_nil_r, set_messages_same, store_eta. repeat split. constructor.
  - apply post_bind. unfold first_text_value.
    destruct (Message_content m) as [|[value|file] content] eqn:E.
    + apply post_raise. exists [], (m :: l), [].
      simpl app; rewrite app_nil_r, set_messages_same, store_eta. repeat split. constructor.
    + apply post_ret. apply post_bind. unfold messages_append. apply post_update_state.
      eapply post_conseq; [apply IH|].
      intros r s' (taken & rest & appended & -> & Hall & -> & Hr).
      cbn [state previous_question world trace].
      exists (m :: taken), rest, (mkEntry "assistant" value :: appended).
      rewrite set_messages_twice, <- app_assoc.
      split; [reflexivity|]. split; [|split; [reflexivity | exact Hr]].
      constructor; [|exact Hall]. split; [reflexivity|]. exists content. exact E.
    + apply post_raise. exists [], (m :: l), [].
      simpl app; rewrite app_nil_r, set_messages_same, store_eta. repeat split. constructor.
Qed.

Lemma Forall2_entries_assistant taken appended :
  Forall2 entry_of_message taken appended ->
  Forall (fun e => role e = "assistant") appended.
Proof. induction 1 as [|m e ? ? [Hrole _]]; constructor; assumption. Qed.

(** However [run_assistant] ends, the entries it has appended are those of
    a run that the service completed, and it has changed nothing else but
    the typing flag. *)
Lemma run_assistant_provenance fuel assistant_id s :
  post (run_assistant openai fuel assistant_id) s (fun r s' =>
    exists typing appended events,
      s' = mkStore (SS.set_assistant_is_typing typing
                      (SS.set_messages (SS.messages (state s) ++ appended) (state s)))
                   (previous_question s) (world s') (trace s ++ events)
      /\ (r = Val tt -> typing = false)
      /\ (r = Val tt \/ appended <> [] ->
          from_completed_run openai (SS.thread_id (state s)) assistant_id (world s)
                             (r = Val tt) appended events (world s'))).
Proof.
  assert (Hnone : forall typing st, typing = SS.assistant_is_typing st ->
            SS.set_assistant_is_typing typing
              (SS.set_messages (SS.messages st ++ []) st) = st).
  { intros typing st ->. destruct st; simpl. rewrite app_nil_r. reflexivity. }
  assert (Htyped : forall st,
            SS.set_assistant_is_typing true (SS.set_messages (SS.messages st ++ []) st)
            = SS.set_assistant_is_typing true st).
  { intros st. destruct st; simpl. rewrite app_nil_r. reflexivity. }
  unfold run_assistant.
  apply post_bind, post_get_state. apply post_bind. unfold create_run.
  eapply post_conseq; [apply safe_api_call_exact|].
  intros r0 s1 (-> & Hr0).
  destruct r0 as [[created|]|e| |]; try contradiction.
  2: { exists (SS.assistant_is_typing (state s)), [],
         [EvCall (RunsCreate (SS.thread_id (state s)) assistant_id)].
       cbn [world]. rewrite Hnone by reflexivity.
       split; [reflexivity|]. split; [discriminate|].
       intros [H | H]; [discriminate | congruence]. }
  apply post_bind, post_update_state. apply post_bind.
  cbn [state previous_question world trace].
  eapply post_conseq; [apply poll_until_completed_polled|].
  cbn [state previous_question world trace].
  intros r1 s2 (polling & Hs2 & Hr1).
  destruct r1 as [run|e| |]; try contradiction.
  2, 3: exists true, [],
    (EvCall (RunsCreate (SS.thread_id (state s)) assistant_id) :: polling);
    rewrite Hs2 at 1; rewrite Htyped, <- app_assoc;
    split; [reflexivity|]; split; [discriminate|];
    intros [H | H]; [discriminate | congruence].
  destruct Hr1 as (n & Hn & Hpolled).
  assert (Hthread : SS.thread_id (SS.set_assistant_is_typing true (state s))
                    = SS.thread_id (state s)) by (destruct (state s); reflexivity).
  rewrite Hthread in Hpolled.
  apply post_bind, post_get_state. apply post_bind. unfold get_messages.
  eapply post_conseq; [apply safe_api_call_exact|].
  assert (Hst2 : state s2 = SS.set_assistant_is_typing true (state s))
    by (rewrite Hs2; reflexivity).
  assert (Hpq2 : previous_question s2 = previous_question s)
    by (rewrite Hs2; reflexivity).
  assert (Htr2 : trace s2
                 = ((trace s ++ [EvCall (RunsCreate (SS.thread_id (state s)) assistant_id)])
                    ++ polling)%list)
    by (rewrite Hs2; reflexivity).
  clear Hs2. rewrite Hst2, Hpq2, Htr2, Hthread.
  intros r3 s3 (-> & Hr3).
  destruct r3 as [[messages|]|e| |]; try contradiction.
  2: { exists true, [],
         (EvCall (RunsCreate (SS.thread_id (state s)) assistant_id) :: polling
          ++ [EvCall (MessagesList (SS.thread_id (state s)))])%list.
       cbn [world]. rewrite Htyped, <- !app_assoc.
       split; [reflexivity|]. split; [discriminate|].
       intros [H | H]; [discriminate | congruence]. }
  apply post_bind.
  eapply post_conseq; [apply append_assistant_messages_prefix|].
  cbn [state previous_question world trace].
  intros r4 s4 (taken & rest & appended & Hlisted & Hentries & -> & Hr4).
  assert (Hfrom : forall whole : Prop, (whole -> rest = []) ->
            from_completed_run openai (SS.thread_id (state s)) assistant_id (world s)
              whole appended
              (EvCall (RunsCreate (SS.thread_id (state s)) assistant_id) :: polling
               ++ [EvCall (MessagesList (SS.thread_id (state s)))])
              (snd (messages_list openai (SS.thread_id (state s)) (world s2)))).
  { intros whole Hwhole. exists n, run, messages, taken, rest.
    split; [|split; [|split; [|split; [|split]]]].
    - exists created, (snd (runs_create openai (SS.thread_id (state s)) assistant_id
                               (world s))), polling, (world s2).
      split; [rewrite <- Hr0; apply surjective_pairing|].
      split; [exact Hpolled|].
      split; [rewrite <- Hr3; apply surjective_pairing | reflexivity].
    - eapply polled_completed. exact Hpolled.
    - exact Hlisted.
    - rewrite <- Hlisted. apply assistant_messages_of_spec.
    - exact Hentries.
    - exact Hwhole. }
  destruct r4 as [[]|e| |]; try contradiction.
  - apply post_update_state. cbn [state previous_question world trace].
    exists false, appended,
      (EvCall (RunsCreate (SS.thread_id (state s)) assistant_id) :: polling
       ++ [EvCall (MessagesList (SS.thread_id (state s)))])%list. split; [|split; [reflexivity|intros _; apply Hfrom; auto]].
    f_equal.
    + destruct (state s); reflexivity.
    + rewrite <- !app_assoc. reflexivity.
  - exists true, appended,
      (EvCall (RunsCreate (SS.thread_id (state s)) assistant_id) :: polling
       ++ [EvCall (MessagesList (SS.thread_id (state s)))])%list. split; [|split; [discriminate|intros _; apply Hfrom]].
    + f_equal.
      * destruct (state s); reflexivity.
      * rewrite <- !app_assoc. reflexivity.
    + discriminate.
Qed.

(** [run_assistant] itself never calls [st.rerun()]. *)
Lemma run_assistant_tied fuel assistant_id s :
  post (run_assistant openai fuel assistant_id) s (fun r s' =>
    r <> Rerun
    /\ exists typing appended events,
         s' = mkStore (SS.set_assistant_is_typing typing
                         (SS.set_messages (SS.messages (state s) ++ appended) (state s)))
                      (previous_question s) (world s') (trace s ++ events)
         /\ (r = Val tt -> typing = false)
         /\ (r = Val tt \/ appended <> [] ->
             from_completed_run openai (SS.thread_id (state s)) assistant_id (world s)
                                (r = Val tt) appended events (world s'))).
Proof.
  unfold post. split; [|apply run_assistant_provenance].
  pose proof (run_assistant_post fuel assistant_id s) as H. unfold post in H.
  destruct H as (_ & typing & appended & _ & _ & H).
  intros E. rewrite E in H. exact H.
Qed.

Lemma from_completed_run_whole thread_id assistant_id w (whole : Prop) appended events w' :
  from_completed_run openai thread_id assistant_id w whole appended events w' ->
  whole ->
  from_completed_run openai thread_id assistant_id w True appended events w'.
Proof.
  intros (polls & run & messages & taken & rest & H1 & H2 & H3 & H4 & H5 & H6) Hwhole.
  exists polls, run, messages, taken, rest. repeat (split; [assumption|]). auto.
Qed.

Lemma from_completed_run_assistant thread_id assistant_id w whole appended events w' :
  from_completed_run openai thread_id assistant_id w whole appended events w' ->
  Forall (fun e => role e = "assistant") appended.
Proof.
  intros (polls & run & messages & taken & rest & _ & _ & _ & _ & H & _).
  eapply Forall2_entries_assistant. exact H.
Qed.

(** A seeding that goes through: each of the two prompts is posted and
    followed by a run that the service completed, whose entries go to the
    transcript; the prompts themselves do not. *)
Lemma send_initial_messages_seeds fuel assistant_id s :
  post (send_initial_messages openai fuel assistant_id) s (fun r s' =>
    r = Val tt -> seeded openai assistant_id s s').
Proof.
  unfold send_initial_messages, seeded.
  apply post_bind, post_get_state. apply post_bind. unfold create_message.
  eapply post_conseq; [apply safe_api_call_exact|].
  intros r1 s1 (-> & Hr1).
  destruct r1 as [[[]|]|e| |]; try contradiction; try (intros ?; discriminate).
  apply post_bind.
  eapply post_conseq; [apply run_assistant_provenance|].
  cbn [state previous_question world trace].
  intros r2 s2 (typing2 & appended2 & events2 & Hs2 & Htyping2 & Hfrom2).
  destruct r2 as [[]|e| |]; try (intros ?; discriminate).
  specialize (Htyping2 eq_refl). subst typing2.
  specialize (Hfrom2 (or_introl eq_refl)).
  apply (fun H => from_completed_run_whole _ _ _ _ _ _ _ H eq_refl) in Hfrom2.
  pose proof (f_equal state Hs2) as Hst2.
  pose proof (f_equal previous_question Hs2) as Hpq2.
  pose proof (f_equal trace Hs2) as Htr2.
  cbn [state previous_question trace] in Hst2, Hpq2, Htr2. clear Hs2.
  assert (Hthread2 : SS.thread_id (state s2) = SS.thread_id (state s))
    by (rewrite Hst2; destruct (state s); reflexivity).
  apply post_bind, post_get_state. apply post_bind.
  eapply post_conseq; [apply safe_api_call_exact|].
  rewrite Hthread2.
  intros r3 s3 (-> & Hr3).
  destruct r3 as [[[]|]|e| |]; try contradiction; try (intros ?; discriminate).
  eapply post_conseq; [apply run_assistant_provenance|].
  cbn [state previous_question world trace]. rewrite Hthread2.
  intros r4 s4 (typing4 & appended4 & events4 & Hs4 & Htyping4 & Hfrom4) ->.
  specialize (Htyping4 eq_refl). subst typing4.
  specialize (Hfrom4 (or_introl eq_refl)).
  apply (fun H => from_completed_run_whole _ _ _ _ _ _ _ H eq_refl) in Hfrom4.
  eexists _, appended2, events2, (world s2), _, appended4, events4.
  split; [rewrite <- Hr1; apply surjective_pairing|].
  split; [exact Hfrom2|].
  split; [rewrite <- Hr3; apply surjective_pairing|].
  split; [exact Hfrom4|].
  rewrite Hs4 at 1. rewrite Hst2, Hpq2, Htr2. f_equal.
  - destruct (state s); simpl. rewrite app_assoc. reflexivity.
  - repeat (rewrite <- app_assoc; simpl). reflexivity.
Qed.

Lemma start_chat_seeds fuel assistant_id s :
  post (start_chat openai fuel assistant_id) s (fun r s' =>
    r = Val tt ->
    exists thread w1 w2 appended1 events1 w3 w4 appended2 events2,
      threads_create openai (world s) = (Returns thread, w1)
      /\ messages_create openai (Some (Thread_id thread)) "user"
                         (initial_prompt (state s)) w1 = (Returns tt, w2)
      /\ from_completed_run openai (Some (Thread_id thread)) assistant_id w2 True
                            appended1 events1 w3
      /\ messages_create openai (Some (Thread_id thread)) "user" second_prompt w3
         = (Returns tt, w4)
      /\ from_completed_run openai (Some (Thread_id thread)) assistant_id w4 True
                            appended2 events2 (world s')
      /\ s' = mkStore (SS.mk true (Some (Thread_id thread)) false
                             (SS.resume_text (state s))
                             (SS.job_description_text (state s))
                             (SS.job_type (state s))
                             (appended1 ++ appended2) false
                             (SS.job_input_method (state s)) (SS.job_url (state s))
                             (SS.resume_input_method (state s)) false
                             (SS.question_count (state s)))
                      (Some "Select a predefined question") (world s')
                      (trace s
                       ++ EvCall ThreadsCreate
                       :: EvCall (MessagesCreate (Some (Thread_id thread)) "user"
                                                 (initial_prompt (state s)))
                       :: events1
                       ++ EvCall (MessagesCreate (Some (Thread_id thread)) "user"
                                                 second_prompt)
                       :: events2)).
Proof.
  unfold start_chat.
  do 5 apply post_bind, post_update_state.
  apply post_bind, post_set_previous_question.
  apply post_bind. unfold create_thread.
  eapply post_conseq; [apply safe_api_call_exact|].
  cbn [state previous_question world trace].
  intros r1 s1 (-> & Hr1).
  destruct r1 as [[thread|]|e| |]; try contradiction; try (intros ?; discriminate).
  apply post_bind, post_ret. apply post_bind, post_update_state.
  eapply post_conseq; [apply send_initial_messages_seeds|].
  cbn [state previous_question world trace].
  intros r2 s2 Hseeds Hr2. specialize (Hseeds Hr2).
  unfold seeded in Hseeds. cbn [state previous_question world trace] in Hseeds.
  destruct Hseeds
    as (w2 & appended1 & events1 & w3 & w4 & appended2 & events2
        & Hpost1 & Hfrom1 & Hpost2 & Hfrom2 & Hs2).
  destruct (state s) as [sc tid bs rt jd jt msgs pr jim ju rim typ qc] eqn:Hstate.
  cbn [SS.thread_id SS.set_thread_id SS.set_assistant_is_typing SS.set_processing
       SS.set_messages SS.set_buttons_shown SS.set_start_chat SS.messages
       SS.resume_text SS.job_description_text SS.job_type SS.job_input_method
       SS.job_url SS.resume_input_method SS.question_count]
    in Hpost1, Hfrom1, Hpost2, Hfrom2, Hs2 |- *.
  change (initial_prompt (SS.mk true (Some (Thread_id thread)) false rt jd jt [] false
                                jim ju rim false qc))
    with (initial_prompt (SS.mk sc tid bs rt jd jt msgs pr jim ju rim typ qc))
    in Hpost1, Hs2.
  exists thread, (snd (threads_create openai (world s))), w2, appended1, events1,
         w3, w4, appended2, events2.
  split; [rewrite <- Hr1; apply surjective_pairing|].
  split; [exact Hpost1|]. split; [exact Hfrom1|].
  split; [exact Hpost2|]. split; [exact Hfrom2|].
  rewrite Hs2 at 1. f_equal. repeat (rewrite <- app_assoc; simpl). reflexivity.
Qed.

(** ** Claims about the retry wrapper and about reset *)

(** C3.  The retry the claim describes does not happen.  The handler of
    [safe_api_call] names the class it catches as [openai.error.OpenAIError],
    and the library the program runs with has no [openai.error]: when the
    first attempt raises the transient error, the call ends in
    [AttributeError] after that one invocation, without sleeping and without
    [APIError], whatever the operation would answer at a second or a third
    attempt. *)
Theorem safe_api_call_gives_up_at_first_error {A} (op : Op) (func : RemoteCall W A)
    s (e : string) :
  response func 0 (world s) = RaisesOpenAIError e ->
  safe_api_call op func s
  = (Exc AttributeError,
     mkStore (state s) (previous_question s) (world_after func 1 (world s))
             (trace s ++ [EvCall op])).
Proof.
  unfold response. simpl. intros Hfirst. apply safe_api_call_fails.
  intros a. rewrite Hfirst. discriminate.
Qed.

(** C5.  For every session state, [reset_chat] yields a session with an
    empty transcript, [question_count = 0], no thread identifier and
    [start_chat] false; resetting a session that was just reset changes
    nothing. *)
Theorem reset_chat_initial_and_idempotent st :
  SS.messages (reset_chat st) = []
  /\ SS.question_count (reset_chat st) = 0
  /\ SS.thread_id (reset_chat st) = None
  /\ SS.start_chat (reset_chat st) = false
  /\ reset_chat (reset_chat st) = reset_chat st.
Proof. destruct st; repeat split. Qed.

(** C10.  [reset_chat] writes the fields [messages], [start_chat],
    [thread_id], [buttons_shown], [assistant_is_typing], [question_count],
    [resume_text], [job_description_text], [job_type] and [job_url], and no
    other: [processing], [job_input_method] and [resume_input_method] keep
    their values. *)
Theorem reset_chat_frame st :
  reset_chat st
  = SS.mk false None false "" "" "" [] (SS.processing st) (SS.job_input_method st)
          "" (SS.resume_input_method st) false 0
  /\ SS.processing (reset_chat st) = SS.processing st
  /\ SS.job_input_method (reset_chat st) = SS.job_input_method st
  /\ SS.resume_input_method (reset_chat st) = SS.resume_input_method st.
Proof. destruct st; repeat split. Qed.

(** ** Claims about the run/poll engine *)

Lemma run_assistant_flag_post fuel assistant_id s :
  post (run_assistant openai fuel assistant_id) s (fun r s' =>
    match fst (create_run openai (SS.thread_id (state s)) assistant_id s) with
    | Val _ =>
        match r with
        | Val _ => SS.assistant_is_typing (state s') = false
        | _ => SS.assistant_is_typing (state s') = true
        end
    | _ => state s' = state s
    end).
Proof.
  unfold run_assistant.
  apply post_bind, post_get_state. apply post_bind.
  pose proof (safe_api_call_post (RunsCreate (SS.thread_id (state s)) assistant_id)
                (runs_create openai (SS.thread_id (state s)) assistant_id) s) as Hcreate.
  unfold post in Hcreate. unfold post at 1. unfold create_run.
  destruct (safe_api_call _ _ s) as [r0 s1]. simpl in Hcreate |- *.
  destruct Hcreate as (Hst1 & _ & Hr0).
  destruct r0 as [run|e| |]; try contradiction; [|exact Hst1].
  apply post_bind, post_update_state. apply post_bind.
  eapply post_conseq.
  { apply poll_until_completed_post. intros r ->. destruct Hr0 as (w & w' & Hr0).
    exists (SS.thread_id (state s)), assistant_id, w, w'. auto. }
  intros r1 s2 (Hst2 & _ & Hr1). simpl in Hst2.
  destruct r1 as [run1|e| |]; try contradiction.
  2, 3: rewrite Hst2; destruct (state s1); reflexivity.
  apply post_bind, post_get_state. apply post_bind. unfold get_messages.
  eapply post_conseq; [apply safe_api_call_post|].
  intros r3 s3 (Hst3 & _ & Hr3).
  destruct r3 as [[messages|]|e| |]; try contradiction.
  2: rewrite Hst3, Hst2; destruct (state s1); reflexivity.
  apply post_bind.
  eapply post_conseq; [apply append_assistant_messages_post|].
  intros r4 s4 (appended & -> & _ & Hr4).
  destruct r4 as [[]|e| |]; try contradiction.
  - apply post_update_state. simpl. destruct (state s3); reflexivity.
  - simpl. rewrite Hst3, Hst2. destruct (state s1); reflexivity.
Qed.

(** C9, as the code has it.  [run_assistant] sets [assistant_is_typing]
    once the run is created, so the flag is true all through the polling
    loop (whatever the fuel at which the loop is cut).  The flag is set back
    to false when the call returns; when the call ends in an error after the
    run was created, the flag is left true; when creating the run itself
    fails, the session is left as it was. *)
Theorem run_assistant_typing_flag fuel assistant_id s :
  match fst (create_run openai (SS.thread_id (state s)) assistant_id s) with
  | Val _ =>
      match fst (run_assistant openai fuel assistant_id s) with
      | Val _ =>
          SS.assistant_is_typing (state (snd (run_assistant openai fuel assistant_id s)))
          = false
      | _ =>
          SS.assistant_is_typing (state (snd (run_assistant openai fuel assistant_id s)))
          = true
      end
  | _ => state (snd (run_assistant openai fuel assistant_id s)) = state s
  end.
Proof. exact (run_assistant_flag_post fuel assistant_id s). Qed.

(** ** Claims about a submission from the chat page *)

Lemma thread_id_after_question l n st :
  SS.thread_id (SS.set_messages l (SS.set_question_count n st)) = SS.thread_id st.
Proof. destruct st; reflexivity. Qed.

Lemma messages_after_question appended entry n st :
  SS.messages
    (SS.set_assistant_is_typing false
       (SS.set_messages
          (SS.messages (SS.set_messages (SS.messages (SS.set_question_count n st) ++ [entry])
                                        (SS.set_question_count n st))
           ++ appended)
          (SS.set_messages (SS.messages (SS.set_question_count n st) ++ [entry])
                           (SS.set_question_count n st))))
  = (SS.messages st ++ entry :: appended)%list.
Proof. destruct st; simpl. rewrite <- app_assoc. reflexivity. Qed.

(** From the remote call on, the two submission paths of [chat_interface]
    run the same steps. *)
Ltac submission_steps s question posted :=
  apply post_bind; unfold create_message;
  (eapply post_conseq; [apply safe_api_call_exact|]);
  cbn [state previous_question world trace];
  rewrite ?thread_id_after_question;
  (let r1 := fresh "r" in let s1 := fresh "s" in let Hr1 := fresh "Hr" in
   intros r1 s1 (-> & Hr1);
   destruct r1 as [[[]|]|?| |]; try contradiction; [|intros _ ?; discriminate];
   apply post_bind;
   (eapply post_conseq; [apply run_assistant_tied|]);
   cbn [state previous_question world trace];
   rewrite ?thread_id_after_question;
   let r2 := fresh "r" in let s2 := fresh "s" in
   let typing := fresh "typing" in let appended := fresh "appended" in
   let events := fresh "events" in
   let Hs2 := fresh "Hs" in let Htyping := fresh "Htyping" in
   let Hfrom := fresh "Hfrom" in let Hnot := fresh "Hnot" in
   intros r2 s2 (Hnot & typing & appended & events & Hs2 & Htyping & Hfrom);
   destruct r2 as [[]|?| |]; try (intros _ ?; discriminate);
   try (exfalso; apply Hnot; reflexivity);
   specialize (Htyping eq_refl); subst typing;
   specialize (Hfrom (or_introl eq_refl));
   apply (fun H => from_completed_run_whole _ _ _ _ _ _ _ H eq_refl) in Hfrom;
   let Hst2 := fresh "Hst" in let Htr2 := fresh "Htr" in
   pose proof (f_equal state Hs2) as Hst2;
   pose proof (f_equal trace Hs2) as Htr2;
   cbn [state trace] in Hst2, Htr2; clear Hs2;
   try (apply post_bind, post_set_previous_question); apply post_rerun;
   cbn [state previous_question world trace];
   intros _ _;
   exists question, posted,
     (snd (messages_create openai (SS.thread_id (state s)) "user" posted (world s))),
     appended, events;
   split; [auto|];
   split; [rewrite <- Hr1; apply surjective_pairing|];
   split; [exact Hfrom|];
   split; [rewrite Hst2; apply messages_after_question|];
   rewrite Htr2, <- app_assoc; reflexivity).

Lemma chat_interface_post fuel assistant_id user_input selected_question s :
  post (chat_interface openai fuel assistant_id user_input selected_question) s
       (fun r s' =>
          SS.question_count (state s) < MAX_QUESTIONS_PER_SESSION ->
          r = Rerun ->
          submitted openai assistant_id s user_input selected_question s').
Proof.
  unfold chat_interface, submitted.
  apply post_bind.
  assert (Hdenied : (SS.question_count (state s) <? MAX_QUESTIONS_PER_SESSION) = false ->
                    SS.question_count (state s) < MAX_QUESTIONS_PER_SESSION -> False).
  { intros H1 H2. apply Z.ltb_ge in H1. lia. }
  destruct user_input as [text|]; [destruct (truthy text)|].
  1: { apply post_bind, post_get_state.
       destruct (SS.question_count (state s) <? MAX_QUESTIONS_PER_SESSION) eqn:Hq.
       - apply post_bind, post_update_state. apply post_bind.
         unfold messages_append. apply post_update_state.
         apply post_bind, post_get_state. simpl.
         submission_steps s text text.
       - apply post_bind, post_emit. apply post_bind, post_update_state.
         apply post_rerun. intros Hlt. destruct (Hdenied eq_refl Hlt). }
  all: apply post_ret.
  all: apply post_bind, post_get_state.
  all: destruct (SS.start_chat (state s) && negb (SS.assistant_is_typing (state s)));
    [|apply post_ret; intros _ ?; discriminate].
  all: apply post_bind, post_get_previous_question; apply post_bind.
  all: destruct (previous_question s) as [previous|];
    [apply post_ret | apply post_set_previous_question].
  all: apply post_bind, post_get_previous_question.
  all: match goal with
       | |- context [if ?c then _ else _] => destruct c
       end; [|apply post_ret; intros _ ?; discriminate].
  all: apply post_bind, post_get_state; cbn [state previous_question world trace].
  all: destruct (SS.question_count (state s) <? MAX_QUESTIONS_PER_SESSION) eqn:Hq;
    [|apply post_bind, post_emit; apply post_bind, post_update_state;
      apply post_rerun; intros Hlt; destruct (Hdenied eq_refl Hlt)].
  all: apply post_bind, post_update_state.
  all: destruct (dict_get predefined_questions selected_question)
    as [detailed_question|] eqn:Hdetailed;
    [|apply post_raise; intros _ ?; discriminate].
  all: apply post_bind; unfold messages_append; apply post_update_state.
  all: apply post_bind, post_get_state; cbn [state previous_question world trace].
  all: submission_steps s selected_question detailed_question.
Qed.

(** ** Step lemmas: what the code does when the remote service answers *)

(** A remote operation that returns at the first attempt. *)
Lemma safe_api_call_returns {A} (op : Op) (func : RemoteCall W A) s a w' :
  func (world s) = (Returns a, w') ->
  safe_api_call op func s
  = (Val (Some a),
     mkStore (state s) (previous_question s) w' (trace s ++ [EvCall op])).
Proof.
  intros H. unfold safe_api_call. rewrite range_MAX_RETRIES. simpl.
  unfold bind, invoke. rewrite H. reflexivity.
Qed.

(** One turn of the polling loop. *)
Lemma poll_step fuel r r' s w' :
  Run_status r <> "completed" ->
  runs_retrieve openai (SS.thread_id (state s)) (Run_id r) (world s) = (Returns r', w') ->
  poll_until_completed openai (S fuel) (Some r) s
  = poll_until_completed openai fuel (Some r')
      (mkStore (state s) (previous_question s) w'
               (trace s ++ [EvSleep 1;
                            EvCall (RunsRetrieve (SS.thread_id (state s)) (Run_id r))])).
Proof.
  intros Hstatus Hretrieve. rewrite poll_until_completed_eq.
  apply String.eqb_neq in Hstatus. rewrite Hstatus. cbn [negb].
  erewrite bind_val by reflexivity.
  erewrite bind_val by reflexivity.
  unfold get_run_status.
  erewrite bind_val.
  2: { apply safe_api_call_returns. cbn [state previous_question world trace].
       exact Hretrieve. }
  cbn [state previous_question world trace]. rewrite <- app_assoc. reflexivity.
Qed.

Lemma poll_done fuel r s :
  Run_status r = "completed" ->
  poll_until_completed openai fuel (Some r) s = (Val r, s).
Proof.
  intros Hstatus. rewrite poll_until_completed_eq.
  apply String.eqb_eq in Hstatus. rewrite Hstatus. reflexivity.
Qed.


(** The appending loop, when every message starts with a text block. *)
Lemma append_assistant_messages_returns l appended :
  Forall2 entry_of_message l appended ->
  forall s,
    append_assistant_messages l s
    = (Val tt,
       mkStore (SS.set_messages (SS.messages (state s) ++ appended) (state s))
               (previous_question s) (world s) (trace s)).
Proof.
  induction 1 as [|m e l appended [Hrole [rest Hcontent]] _ IH]; intros s; simpl.
  - rewrite app_nil_r, set_messages_same, store_eta. reflexivity.
  - unfold first_text_value. rewrite Hcontent.
    erewrite bind_val by reflexivity.
    erewrite bind_val by reflexivity.
    rewrite IH. cbn [state previous_question world trace].
    rewrite set_messages_twice, <- app_assoc. simpl.
    destruct e as [erole econtent]. simpl in Hrole |- *. subst erole. reflexivity.
Qed.



(** ** Claims about polling *)

(** C8.  Let the run be created with the identifier [run_id] and a status
    other than [completed], and let the status requests for it be answered,
    in turn, queued, in_progress, in_progress, completed.  Then
    [run_assistant] returns after exactly four status requests, each one
    preceded by a sleep of 1 time unit, lists the thread's messages once, and
    appends the entries of the listed messages whose [run_id] is this run's
    identifier and whose role is [assistant], and nothing else. *)
Theorem run_assistant_four_polls
    fuel assistant_id s run_id status0 w1 w2 w3 w4 w5 w6 messages appended :
  (4 <= fuel)%nat ->
  status0 <> "completed" ->
  runs_create openai (SS.thread_id (state s)) assistant_id (world s)
  = (Returns (mkRun run_id status0), w1) ->
  runs_retrieve openai (SS.thread_id (state s)) run_id w1
  = (Returns (mkRun run_id "queued"), w2) ->
  runs_retrieve openai (SS.thread_id (state s)) run_id w2
  = (Returns (mkRun run_id "in_progress"), w3) ->
  runs_retrieve openai (SS.thread_id (state s)) run_id w3
  = (Returns (mkRun run_id "in_progress"), w4) ->
  runs_retrieve openai (SS.thread_id (state s)) run_id w4
  = (Returns (mkRun run_id "completed"), w5) ->
  messages_list openai (SS.thread_id (state s)) w5 = (Returns messages, w6) ->
  Forall2 entry_of_message
          (assistant_messages_of messages (mkRun run_id "completed")) appended ->
  run_assistant openai fuel assistant_id s
  = (Val tt,
     mkStore (SS.set_assistant_is_typing false
                (SS.set_messages (SS.messages (state s) ++ appended) (state s)))
             (previous_question s) w6
             (trace s
              ++ EvCall (RunsCreate (SS.thread_id (state s)) assistant_id)
              :: poll_trace (SS.thread_id (state s)) run_id 4
              ++ [EvCall (MessagesList (SS.thread_id (state s)))]))
  /\ List.length (filter is_retrieve (trace (snd (run_assistant openai fuel assistant_id s))))
     = (List.length (filter is_retrieve (trace s)) + 4)%nat
  /\ Forall (fun m => Message_run_id m = Some run_id /\ Message_role m = "assistant")
            (assistant_messages_of messages (mkRun run_id "completed")).
Proof.
  intros Hfuel Hstatus0 Hcreate Hpoll1 Hpoll2 Hpoll3 Hpoll4 Hlist Happended.
  cut (run_assistant openai fuel assistant_id s
       = (Val tt,
          mkStore (SS.set_assistant_is_typing false
                     (SS.set_messages (SS.messages (state s) ++ appended) (state s)))
                  (previous_question s) w6
                  (trace s
                   ++ EvCall (RunsCreate (SS.thread_id (state s)) assistant_id)
                   :: poll_trace (SS.thread_id (state s)) run_id 4
                   ++ [EvCall (MessagesList (SS.thread_id (state s)))]))).
  { intros Hrun. split; [exact Hrun|]. split.
    - rewrite Hrun. cbn [snd trace]. rewrite filter_app, length_app. reflexivity.
    - exact (assistant_messages_of_spec messages (mkRun run_id "completed")). }
  destruct fuel as [|[|[|[|fuel]]]]; try lia. clear Hfuel.
  destruct s as [st pq w tr]. destruct st. cbn [state world SS.thread_id] in *.
  unfold run_assistant.
  erewrite bind_val by reflexivity.
  erewrite bind_val by (unfold create_run; apply safe_api_call_returns; exact Hcreate).
  erewrite bind_val by reflexivity.
  erewrite bind_val.
  2: { erewrite poll_step; [|exact Hstatus0|exact Hpoll1].
       erewrite poll_step; [|discriminate|exact Hpoll2].
       erewrite poll_step; [|discriminate|exact Hpoll3].
       erewrite poll_step; [|discriminate|exact Hpoll4].
       apply poll_done. reflexivity. }
  erewrite bind_val by reflexivity.
  cbn [state previous_question world trace].
  erewrite bind_val by (unfold get_messages; apply safe_api_call_returns; exact Hlist).
  cbv beta iota.
  erewrite bind_val by (apply append_assistant_messages_returns; exact Happended).
  unfold update_state. cbn. rewrite <- !app_assoc. reflexivity.
Qed.



(** ** What never writes [question_count] *)

Lemma keeps_count_bind {A B} (m : M W A) (k : A -> M W B) :
  keeps_count m -> (forall a, keeps_count (k a)) -> keeps_count (bind m k).
Proof.
  intros Hm Hk s. rewrite bind_unfold. specialize (Hm s).
  destruct (m s) as [[a|e| |] s1]; simpl in *; try assumption.
  rewrite Hk. assumption.
Qed.

Lemma keeps_count_ret {A} (a : A) : keeps_count (@ret W A a).
Proof. intros s. reflexivity. Qed.

Lemma keeps_count_raise {A} e : keeps_count (@raise W A e).
Proof. intros s. reflexivity. Qed.

Lemma keeps_count_rerun {A} : keeps_count (@st_rerun W A).
Proof. intros s. reflexivity. Qed.

Lemma keeps_count_emit ev : keeps_count (@emit W ev).
Proof. intros s. reflexivity. Qed.

Lemma keeps_count_get_state : keeps_count (@get_state W).
Proof. intros s. reflexivity. Qed.

Lemma keeps_count_get_previous_question : keeps_count (@get_previous_question W).
Proof. intros s. reflexivity. Qed.

Lemma keeps_count_set_previous_question q : keeps_count (@set_previous_question W q).
Proof. intros s. reflexivity. Qed.

Lemma keeps_count_update_state f :
  (forall st, SS.question_count (f st) = SS.question_count st) ->
  keeps_count (@update_state W f).
Proof. intros Hf s. simpl. apply Hf. Qed.

Lemma keeps_count_safe_api_call {A} op (func : RemoteCall W A) :
  keeps_count (safe_api_call op func).
Proof.
  intros s. destruct (safe_api_call_post op func s) as (Hst & _). rewrite Hst.
  reflexivity.
Qed.

Lemma keeps_count_run_assistant fuel assistant_id :
  keeps_count (run_assistant openai fuel assistant_id).
Proof.
  intros s.
  destruct (run_assistant_post fuel assistant_id s) as (_ & typing & appended & Hst & _).
  rewrite Hst. destruct (state s); reflexivity.
Qed.

(** The steps of a computation that keeps the count, one after the other. *)
Ltac keeps_count_steps :=
  repeat first
    [ apply keeps_count_ret
    | apply keeps_count_raise
    | apply keeps_count_rerun
    | apply keeps_count_emit
    | apply keeps_count_get_state
    | apply keeps_count_get_previous_question
    | apply keeps_count_set_previous_question
    | apply keeps_count_safe_api_call
    | apply keeps_count_run_assistant
    | apply keeps_count_update_state; intros []; reflexivity
    | apply keeps_count_bind; [|intros ?]
    | match goal with
      | |- keeps_count (if ?c then _ else _) => destruct c
      | |- keeps_count (match ?x with _ => _ end) => destruct x
      | |- keeps_count (let (_, _) := ?x in _) => destruct x
      end ].

Lemma keeps_count_send_initial_messages fuel assistant_id :
  keeps_count (send_initial_messages openai fuel assistant_id).
Proof.
  unfold send_initial_messages, create_message. keeps_count_steps.
Qed.

Lemma keeps_count_start_chat fuel assistant_id :
  keeps_count (start_chat openai fuel assistant_id).
Proof.
  unfold start_chat, create_thread, attr. keeps_count_steps.
Qed.

Lemma keeps_count_sidebar_form ui : keeps_count (@sidebar_form W ui).
Proof.
  unfold sidebar_form, extract_pdf_content, st_error. keeps_count_steps.
Qed.

Lemma keeps_count_start_chat_clicked ui : keeps_count (@start_chat_clicked W ui).
Proof.
  unfold start_chat_clicked, st_error, time_sleep. keeps_count_steps.
Qed.

(** ** The quota *)

Lemma no_return_bind_r {A B} (m : M W A) (k : A -> M W B) :
  (forall a, no_return (k a)) -> no_return (bind m k).
Proof.
  intros Hk s b. rewrite bind_unfold.
  destruct (m s) as [[a|e| |] s1]; simpl; try discriminate. apply Hk.
Qed.

Lemma no_return_rerun {A} : no_return (@st_rerun W A).
Proof. intros s a. discriminate. Qed.

Lemma no_return_raise {A} e : no_return (@raise W A e).
Proof. intros s a. discriminate. Qed.

Lemma within_quota_reset_chat st : within_quota (reset_chat st).
Proof. destruct st. unfold within_quota, MAX_QUESTIONS_PER_SESSION. simpl. lia. Qed.

Lemma filter_is_call_error (l : list Event) msg :
  filter is_call (l ++ [EvError msg]) = filter is_call l.
Proof. rewrite filter_app. simpl. apply app_nil_r. Qed.

(** A computation that keeps the count and never returns, run after the
    count went from [n] to [n + 1] below the ceiling. *)
Lemma counted_submission {B} (m : M W unit) (k : unit -> M W B) s
    (Q : Result B -> Store W -> Prop) :
  keeps_count m -> no_return m ->
  (forall (r : Result B) s', SS.question_count (state s') = SS.question_count (state s) ->
                             Q r s') ->
  post m s (fun r s1 =>
              match r with
              | Val a => post (k a) s1 Q
              | Exc e => Q (Exc e) s1
              | Rerun => Q Rerun s1
              | OutOfFuel => Q OutOfFuel s1
              end).
Proof.
  intros Hkeeps Hno HQ. unfold post. specialize (Hkeeps s). specialize (Hno s).
  destruct (m s) as [[a|e| |] s1]; simpl in *; auto.
  destruct (Hno a eq_refl).
Qed.

Lemma chat_interface_quota_post fuel assistant_id user_input selected_question s :
  post (chat_interface openai fuel assistant_id user_input selected_question) s
       (fun r s' =>
          within_quota (state s) ->
          within_quota (state s')
          /\ (SS.question_count (state s) <= SS.question_count (state s')
              \/ state s' = reset_chat (state s))
          /\ (SS.question_count (state s) = MAX_QUESTIONS_PER_SESSION ->
              filter is_call (trace s') = filter is_call (trace s)
              /\ (state s' = state s \/ state s' = reset_chat (state s)))).
Proof.
  assert (Hsame : forall s',
             state s' = state s -> filter is_call (trace s') = filter is_call (trace s) ->
             within_quota (state s) ->
             within_quota (state s')
             /\ (SS.question_count (state s) <= SS.question_count (state s')
                 \/ state s' = reset_chat (state s))
             /\ (SS.question_count (state s) = MAX_QUESTIONS_PER_SESSION ->
                 filter is_call (trace s') = filter is_call (trace s)
                 /\ (state s' = state s \/ state s' = reset_chat (state s)))).
  { intros s' Hst Htr Hq. rewrite Hst. split; [assumption|].
    split; [left; lia|]. intros _. split; [assumption | left; reflexivity]. }
  assert (Hreset : forall s',
             state s' = reset_chat (state s) ->
             filter is_call (trace s') = filter is_call (trace s) ->
             within_quota (state s) ->
             within_quota (state s')
             /\ (SS.question_count (state s) <= SS.question_count (state s')
                 \/ state s' = reset_chat (state s))
             /\ (SS.question_count (state s) = MAX_QUESTIONS_PER_SESSION ->
                 filter is_call (trace s') = filter is_call (trace s)
                 /\ (state s' = state s \/ state s' = reset_chat (state s)))).
  { intros s' Hst Htr Hq. rewrite Hst. split; [apply within_quota_reset_chat|].
    split; [right; reflexivity|]. intros _. split; [assumption | right; reflexivity]. }
  assert (Hcounted : forall s',
             (SS.question_count (state s) <? MAX_QUESTIONS_PER_SESSION) = true ->
             SS.question_count (state s') = SS.question_count (state s) + 1 ->
             within_quota (state s) ->
             within_quota (state s')
             /\ (SS.question_count (state s) <= SS.question_count (state s')
                 \/ state s' = reset_chat (state s))
             /\ (SS.question_count (state s) = MAX_QUESTIONS_PER_SESSION ->
                 filter is_call (trace s') = filter is_call (trace s)
                 /\ (state s' = state s \/ state s' = reset_chat (state s)))).
  { intros s' Hlt Hst Hq. apply Z.ltb_lt in Hlt. unfold within_quota in *.
    rewrite Hst. split; [lia|]. split; [left; lia|]. intros Heq. lia. }
  unfold chat_interface.
  apply post_bind.
  destruct user_input as [text|]; [destruct (truthy text)|].
  1: { apply post_bind, post_get_state.
       destruct (SS.question_count (state s) <? MAX_QUESTIONS_PER_SESSION) eqn:Hq.
       - apply post_bind, post_update_state.
         apply counted_submission.
         + unfold messages_append, create_message. keeps_count_steps.
         + repeat (apply no_return_bind_r; intros ?). apply no_return_rerun.
         + intros r s' Hst Hwq. apply Hcounted; [reflexivity| |assumption]. rewrite Hst.
           cbn [state]. destruct (state s); reflexivity.
       - apply post_bind, post_emit. apply post_bind, post_update_state.
         apply post_rerun. intros Hwq. apply Hreset; [reflexivity| |assumption].
         cbn [trace]. apply filter_is_call_error. }
  all: apply post_ret.
  all: apply post_bind, post_get_state.
  all: destruct (SS.start_chat (state s) && negb (SS.assistant_is_typing (state s)));
    [|apply post_ret; intros Hwq; apply Hsame; [reflexivity|reflexivity|assumption]].
  all: apply post_bind, post_get_previous_question; apply post_bind.
  all: destruct (previous_question s) as [previous|];
    [apply post_ret | apply post_set_previous_question].
  all: apply post_bind, post_get_previous_question.
  all: match goal with
       | |- context [if ?c then _ else _] => destruct c
       end; [|apply post_ret; intros Hwq; apply Hsame; [reflexivity|reflexivity|assumption]].
  all: apply post_bind, post_get_state; cbn [state previous_question world trace].
  all: destruct (SS.question_count (state s) <? MAX_QUESTIONS_PER_SESSION) eqn:Hq;
    [|apply post_bind, post_emit; apply post_bind, post_update_state;
      apply post_rerun; intros Hwq; apply Hreset; [reflexivity| |assumption];
      cbn [trace]; apply filter_is_call_error].
  all: apply post_bind, post_update_state.
  all: destruct (dict_get predefined_questions selected_question) as [detailed_question|];
    [|apply post_raise; intros Hwq; apply Hcounted; [reflexivity| |assumption];
      cbn [state]; destruct (state s); reflexivity].
  all: unfold post;
    match goal with
    | |- context [?m ?s1] =>
        match type of s1 with
        | Store W =>
            match m with
            | bind _ _ =>
                assert (Hkeeps : keeps_count m)
                  by (unfold messages_append, create_message; keeps_count_steps);
                specialize (Hkeeps s1);
                intros Hwq; apply Hcounted; [reflexivity| |assumption]; rewrite Hkeeps;
                cbn [state]; destruct (state s); reflexivity
            end
        end
    end.
Qed.

Lemma quota_kept_same n (s' : Store W) :
  SS.question_count (state s') = n -> 0 <= n <= MAX_QUESTIONS_PER_SESSION ->
  quota_kept n s'.
Proof. intros Hn Hq. unfold quota_kept, within_quota. rewrite Hn. split; [lia | left; lia]. Qed.

Lemma quota_kept_reset n st (s' : Store W) :
  state s' = reset_chat st -> quota_kept n s'.
Proof.
  intros Hst. unfold quota_kept. rewrite Hst.
  split; [apply within_quota_reset_chat | right; exists st; reflexivity].
Qed.

(** After a step that keeps the count, the rest of the computation starts
    from the same count. *)
Lemma quota_kept_after {A B} (m : M W A) (k : A -> M W B) s n :
  keeps_count m ->
  SS.question_count (state s) = n -> 0 <= n <= MAX_QUESTIONS_PER_SESSION ->
  (forall a s1, SS.question_count (state s1) = n ->
                post (k a) s1 (fun _ s' => quota_kept n s')) ->
  post (bind m k) s (fun _ s' => quota_kept n s').
Proof.
  intros Hm Hn Hq Hk. unfold post. rewrite bind_unfold. specialize (Hm s).
  destruct (m s) as [[a|e| |] s1]; simpl in *;
    try (apply quota_kept_same; [congruence | assumption]).
  apply Hk. congruence.
Qed.

Lemma main_quota_post fuel assistant_id ui s :
  within_quota (state s) ->
  post (main openai fuel assistant_id ui) s
       (fun _ s' => quota_kept (SS.question_count (state s)) s').
Proof.
  intros Hq. unfold main.
  apply post_bind, post_get_state.
  destruct (SS.question_count (state s) >=? MAX_QUESTIONS_PER_SESSION).
  - apply post_bind, post_emit. destruct (start_new_session_button ui).
    + apply post_bind, post_update_state. apply post_rerun.
      apply (quota_kept_reset _ (state s)). reflexivity.
    + apply post_ret. apply quota_kept_same; [reflexivity | exact Hq].
  - remember (SS.question_count (state s)) as n eqn:Hn. symmetry in Hn.
    unfold within_quota in Hq. rewrite Hn in Hq.
    apply quota_kept_after; [apply keeps_count_sidebar_form | assumption | assumption |].
    intros _ s1 H1.
    apply quota_kept_after; [|assumption|assumption|].
    { destruct (start_chat_button ui);
        [apply keeps_count_start_chat_clicked | apply keeps_count_ret]. }
    intros _ s2 H2.
    apply quota_kept_after; [apply keeps_count_get_state | assumption | assumption |].
    intros st s3 H3.
    apply quota_kept_after; [|assumption|assumption|].
    { destruct (SS.processing st); [|apply keeps_count_ret].
      apply keeps_count_bind; [apply keeps_count_start_chat | intros ?].
      keeps_count_steps. }
    intros _ s4 H4.
    apply post_bind. destruct (exit_chat_button ui).
    { apply post_bind, post_update_state. apply post_rerun.
      apply (quota_kept_reset _ (state s4)). reflexivity. }
    apply post_ret.
    apply post_bind, post_get_state.
    destruct (SS.start_chat (state s4)).
    + eapply post_conseq; [apply chat_interface_quota_post|].
      intros r s' H. simpl in H.
      destruct H as (Hw & Hmono & _); [unfold within_quota; rewrite H4; exact Hq|].
      split; [exact Hw|]. rewrite H4 in Hmono.
      destruct Hmono as [Hle | Hreset]; [left; exact Hle | right; eauto].
    + apply post_ret. apply quota_kept_same; assumption.
Qed.

(** At the ceiling the script shows the limit and offers the reset only. *)
Lemma main_at_limit fuel assistant_id ui s :
  MAX_QUESTIONS_PER_SESSION <= SS.question_count (state s) ->
  main openai fuel assistant_id ui s
  = if start_new_session_button ui
    then (Rerun, mkStore (reset_chat (state s)) (previous_question s) (world s)
                         (trace s ++ [EvError session_limit_message]))
    else (Val tt, mkStore (state s) (previous_question s) (world s)
                          (trace s ++ [EvError session_limit_message])).
Proof.
  intros Hge. unfold main. erewrite bind_val by reflexivity.
  apply Z.geb_le in Hge. rewrite Hge.
  destruct (start_new_session_button ui); reflexivity.
Qed.

(** At the ceiling a question typed in the chat box is refused. *)
Lemma chat_interface_denies fuel assistant_id text selected_question s :
  MAX_QUESTIONS_PER_SESSION <= SS.question_count (state s) ->
  truthy text = true ->
  chat_interface openai fuel assistant_id (Some text) selected_question s
  = (Rerun, mkStore (reset_chat (state s)) (previous_question s) (world s)
                    (trace s ++ [EvError limit_message])).
Proof.
  intros Hge Htext. unfold chat_interface. rewrite Htext.
  erewrite bind_rerun; [reflexivity|].
  erewrite bind_val by reflexivity.
  apply Z.ltb_ge in Hge. rewrite Hge. reflexivity.
Qed.

(** C4.  From a session within the quota ([0 <= question_count <=
    MAX_QUESTIONS_PER_SESSION]) every operation leads to a session within
    the quota: [reset_chat], [start_chat] (which leaves the count alone),
    [chat_interface] and a whole run of the script [main], however they end.
    The count never goes down unless the operation reset the session.  Once
    the count is at the ceiling, a question from the chat box is refused
    with the limit message, [chat_interface] makes no remote call and leaves
    the session as it is or resets it, and the script stops at the limit
    message, where only the button that resets the session is offered. *)
Theorem question_count_within_quota
    fuel assistant_id ui user_input selected_question s :
  within_quota (state s) ->
  within_quota (reset_chat (state s))
  /\ (within_quota (state (snd (start_chat openai fuel assistant_id s)))
      /\ SS.question_count (state (snd (start_chat openai fuel assistant_id s)))
         = SS.question_count (state s))
  /\ (within_quota
        (state (snd (chat_interface openai fuel assistant_id user_input
                       selected_question s)))
      /\ (SS.question_count (state s)
          <= SS.question_count
               (state (snd (chat_interface openai fuel assistant_id user_input
                              selected_question s)))
          \/ state (snd (chat_interface openai fuel assistant_id user_input
                           selected_question s))
             = reset_chat (state s)))
  /\ (within_quota (state (snd (main openai fuel assistant_id ui s)))
      /\ (SS.question_count (state s)
          <= SS.question_count (state (snd (main openai fuel assistant_id ui s)))
          \/ exists st0, state (snd (main openai fuel assistant_id ui s)) = reset_chat st0))
  /\ (SS.question_count (state s) = MAX_QUESTIONS_PER_SESSION ->
      (forall text, truthy text = true ->
         chat_interface openai fuel assistant_id (Some text) selected_question s
         = (Rerun, mkStore (reset_chat (state s)) (previous_question s) (world s)
                           (trace s ++ [EvError limit_message])))
      /\ (filter is_call
            (trace (snd (chat_interface openai fuel assistant_id user_input
                           selected_question s)))
          = filter is_call (trace s)
          /\ (state (snd (chat_interface openai fuel assistant_id user_input
                            selected_question s)) = state s
              \/ state (snd (chat_interface openai fuel assistant_id user_input
                               selected_question s)) = reset_chat (state s)))
      /\ main openai fuel assistant_id ui s
         = if start_new_session_button ui
           then (Rerun, mkStore (reset_chat (state s)) (previous_question s) (world s)
                                (trace s ++ [EvError session_limit_message]))
           else (Val tt, mkStore (state s) (previous_question s) (world s)
                                 (trace s ++ [EvError session_limit_message]))).
Proof.
  intros Hq.
  pose proof (chat_interface_quota_post fuel assistant_id user_input
                selected_question s Hq) as (Hchat_w & Hchat_mono & Hchat_limit).
  pose proof (main_quota_post fuel assistant_id ui s Hq) as Hmain.
  pose proof (keeps_count_start_chat fuel assistant_id s) as Hstart.
  split; [apply within_quota_reset_chat|].
  split; [split; [unfold within_quota; rewrite Hstart; exact Hq | exact Hstart]|].
  split; [split; assumption|].
  split; [exact Hmain|].
  intros Hmax.
  split; [intros text Htext; apply chat_interface_denies; [lia | exact Htext]|].
  split; [exact (Hchat_limit Hmax)|].
  apply main_at_limit. lia.
Qed.

(** From the initial session object, whatever the user does over any number
    of runs of the script and whatever the remote service answers, the
    session stays within the quota. *)
Lemma session_stays_within_quota assistant_id runs : forall s,
  within_quota (state s) ->
  within_quota (state (after_runs openai assistant_id runs s)).
Proof.
  induction runs as [|[fuel ui] rest IH]; intros s Hq; simpl; [exact Hq|].
  apply IH. exact (proj1 (main_quota_post fuel assistant_id ui s Hq)).
Qed.

Lemma new_session_stays_within_quota assistant_id runs w :
  within_quota (state (after_runs openai assistant_id runs (mkStore SS.init None w []))).
Proof.
  apply session_stays_within_quota. split; discriminate.
Qed.

(** ** Claims about starting a chat *)

Lemma send_initial_messages_post fuel assistant_id s :
  post (send_initial_messages openai fuel assistant_id) s (fun r s' =>
    previous_question s' = previous_question s
    /\ exists typing appended,
         state s' = SS.set_assistant_is_typing typing
                      (SS.set_messages (SS.messages (state s) ++ appended) (state s))
         /\ Forall (fun e => role e = "assistant") appended
         /\ (r = Val tt -> typing = false)).
Proof.
  unfold send_initial_messages.
  apply post_bind, post_get_state. apply post_bind. unfold create_message.
  eapply post_conseq; [apply safe_api_call_post|].
  intros r1 s1 (Hst1 & Hpq1 & Hr1).
  destruct r1 as [[[]|]|e| |]; try contradiction.
  2: { split; [assumption|]. exists (SS.assistant_is_typing (state s)), [].
       split; [session_eq|]. split; [constructor | discriminate]. }
  apply post_bind.
  eapply post_conseq; [apply run_assistant_post|].
  intros r2 s2 (Hpq2 & typing2 & appended2 & Hst2 & Hall2 & Hr2).
  destruct r2 as [[]|e| |]; try contradiction.
  2, 3: split; [congruence|]; exists typing2, appended2;
    split; [rewrite Hst2, Hst1; reflexivity|]; split; [assumption | discriminate].
  apply post_bind, post_get_state. apply post_bind.
  eapply post_conseq; [apply safe_api_call_post|].
  intros r3 s3 (Hst3 & Hpq3 & Hr3).
  destruct r3 as [[[]|]|e| |]; try contradiction.
  2: { split; [congruence|]. exists typing2, appended2.
       split; [rewrite Hst3, Hst2, Hst1; reflexivity|].
       split; [assumption | discriminate]. }
  eapply post_conseq; [apply run_assistant_post|].
  intros r4 s4 (Hpq4 & typing4 & appended4 & Hst4 & Hall4 & Hr4).
  split; [congruence|].
  exists typing4, (appended2 ++ appended4)%list.
  split; [|split].
  - rewrite Hst4, Hst3, Hst2, Hst1. destruct (state s); simpl.
    rewrite app_assoc. reflexivity.
  - apply Forall_app. split; assumption.
  - intros ->. destruct Hr4 as [Htyping _]. exact Htyping.
Qed.

Lemma start_chat_post fuel assistant_id s :
  post (start_chat openai fuel assistant_id) s (fun r s' =>
    r = Val tt ->
    exists id appended,
      state s'
      = SS.set_messages appended
          (SS.set_thread_id (Some id)
             (SS.set_assistant_is_typing false
                (SS.set_processing false
                   (SS.set_buttons_shown false (SS.set_start_chat true (state s))))))
      /\ Forall (fun e => role e = "assistant") appended).
Proof.
  unfold start_chat.
  do 5 apply post_bind, post_update_state.
  apply post_bind, post_set_previous_question.
  apply post_bind. unfold create_thread.
  eapply post_conseq; [apply safe_api_call_post|].
  intros r1 s1 (Hst1 & _ & Hr1). cbn [state] in Hst1.
  destruct r1 as [[thread|]|e| |]; try contradiction; try discriminate.
  apply post_bind, post_ret. apply post_bind, post_update_state.
  eapply post_conseq; [apply send_initial_messages_post|].
  intros r2 s2 (_ & typing & appended & Hst2 & Hall & Hr2) ->.
  rewrite (Hr2 eq_refl) in Hst2.
  exists (Thread_id thread), appended. split; [|assumption].
  rewrite Hst2. cbn [state]. rewrite Hst1. destruct (state s); reflexivity.
Qed.

(** C6, as the code has it.  A start that goes through leaves
    [question_count] at the value it had before the call (the seed
    submissions are not counted, and nothing sets the count to 0).  The
    thread the service handed back is stored, and the two seed prompts were
    posted to it, each followed by a run that the service completed.  The
    prior transcript is gone: the transcript is made of the entries of the
    first seed run followed by those of the second, all of role
    [assistant], and holds no entry for the prompts.  [start_chat] is true;
    [buttons_shown], [processing] and [assistant_is_typing] are false; the
    other fields are as they were. *)
Theorem start_chat_keeps_question_count fuel assistant_id s s' :
  start_chat openai fuel assistant_id s = (Val tt, s') ->
  SS.question_count (state s') = SS.question_count (state s)
  /\ exists thread w1 w2 appended1 events1 w3 w4 appended2 events2,
       threads_create openai (world s) = (Returns thread, w1)
       /\ messages_create openai (Some (Thread_id thread)) "user"
                          (initial_prompt (state s)) w1 = (Returns tt, w2)
       /\ from_completed_run openai (Some (Thread_id thread)) assistant_id w2 True
                             appended1 events1 w3
       /\ messages_create openai (Some (Thread_id thread)) "user" second_prompt w3
          = (Returns tt, w4)
       /\ from_completed_run openai (Some (Thread_id thread)) assistant_id w4 True
                             appended2 events2 (world s')
       /\ Forall (fun e => role e = "assistant") (appended1 ++ appended2)
       /\ s' = mkStore (SS.mk true (Some (Thread_id thread)) false
                              (SS.resume_text (state s))
                              (SS.job_description_text (state s))
                              (SS.job_type (state s))
                              (appended1 ++ appended2) false
                              (SS.job_input_method (state s)) (SS.job_url (state s))
                              (SS.resume_input_method (state s)) false
                              (SS.question_count (state s)))
                       (Some "Select a predefined question") (world s')
                       (trace s
                        ++ EvCall ThreadsCreate
                        :: EvCall (MessagesCreate (Some (Thread_id thread)) "user"
                                                  (initial_prompt (state s)))
                        :: events1
                        ++ EvCall (MessagesCreate (Some (Thread_id thread)) "user"
                                                  second_prompt)
                        :: events2).
Proof.
  intros Hrun.
  pose proof (start_chat_seeds fuel assistant_id s) as H.
  unfold post in H. rewrite Hrun in H. cbn [fst snd] in H.
  destruct (H eq_refl)
    as (thread & w1 & w2 & appended1 & events1 & w3 & w4 & appended2 & events2
        & Hthread & Hpost1 & Hfrom1 & Hpost2 & Hfrom2 & Hs').
  split.
  - rewrite Hs' at 1. reflexivity.
  - exists thread, w1, w2, appended1, events1, w3, w4, appended2, events2.
    repeat (split; [assumption|]). split; [|exact Hs'].
    apply Forall_app. split; eapply from_completed_run_assistant; eassumption.
Qed.

(** C2, as the code has it.  When thread creation fails (the operation
    raises at the attempt the wrapper makes), [start_chat] ends in the
    exception the wrapper ends in, right after that attempt; the code has no
    [SessionInitError].  By then the session is marked as started:
    [start_chat] is true, the transcript is empty, the other flags are
    false; the thread identifier is the one the session had, and no message
    was posted. *)
Theorem start_chat_thread_creation_fails fuel assistant_id s :
  (forall thread, response (threads_create openai) 0 (world s) <> Returns thread) ->
  start_chat openai fuel assistant_id s
  = (Exc AttributeError,
     mkStore (SS.set_assistant_is_typing false
                (SS.set_processing false
                   (SS.set_messages []
                      (SS.set_buttons_shown false (SS.set_start_chat true (state s))))))
             (Some "Select a predefined question")
             (world_after (threads_create openai) 1 (world s))
             (trace s ++ [EvCall ThreadsCreate]))
  /\ SS.start_chat (state (snd (start_chat openai fuel assistant_id s))) = true
  /\ SS.thread_id (state (snd (start_chat openai fuel assistant_id s)))
     = SS.thread_id (state s).
Proof.
  intros Hfails.
  assert (Hrun : start_chat openai fuel assistant_id s
    = (Exc AttributeError,
       mkStore (SS.set_assistant_is_typing false
                  (SS.set_processing false
                     (SS.set_messages []
                        (SS.set_buttons_shown false (SS.set_start_chat true (state s))))))
               (Some "Select a predefined question")
               (world_after (threads_create openai) 1 (world s))
               (trace s ++ [EvCall ThreadsCreate]))).
  { unfold start_chat.
    do 6 (erewrite bind_val by reflexivity).
    erewrite bind_exc
      by (unfold create_thread; apply safe_api_call_fails; cbn [world]; exact Hfails).
    reflexivity. }
  rewrite Hrun. split; [reflexivity|].
  cbn [snd state]. destruct (state s); split; reflexivity.
Qed.

(** ** Further properties of the retry wrapper *)

(** X2.  Whatever the remote operation does, [safe_api_call] invokes it
    exactly once and never sleeps, and it leaves the session alone.  It ends
    in the value the operation returned or, when the operation raised, in
    [AttributeError]: never in [None] (it does not fall off its loop), in
    [APIError], or in the exception the operation raised. *)
Theorem safe_api_call_single_attempt {A} (op : Op) (func : RemoteCall W A) s :
  match fst (safe_api_call op func s) with
  | Val (Some a) => fst (func (world s)) = Returns a
  | Exc AttributeError => forall a, fst (func (world s)) <> Returns a
  | _ => False
  end
  /\ trace (snd (safe_api_call op func s)) = (trace s ++ [EvCall op])%list
  /\ world (snd (safe_api_call op func s)) = snd (func (world s))
  /\ state (snd (safe_api_call op func s)) = state s
  /\ previous_question (snd (safe_api_call op func s)) = previous_question s.
Proof.
  rewrite safe_api_call_once. cbn [fst snd trace world state previous_question].
  split; [|repeat split].
  destruct (func (world s)) as [[a|e|e] w1]; simpl; [reflexivity |..];
    intros a; discriminate.
Qed.

(** ** Further properties of the run/poll engine *)

(** X3.  However it ends, [run_assistant] writes no field of the session
    object but [messages] and [assistant_is_typing]; the transcript it
    leaves is the one it found followed by entries of role [assistant]; and
    it leaves [st.session_state.previous_question] alone. *)
Theorem run_assistant_only_appends fuel assistant_id s :
  outside_run (state (snd (run_assistant openai fuel assistant_id s)))
  = outside_run (state s)
  /\ previous_question (snd (run_assistant openai fuel assistant_id s))
     = previous_question s
  /\ exists appended,
       SS.messages (state (snd (run_assistant openai fuel assistant_id s)))
       = (SS.messages (state s) ++ appended)%list
       /\ Forall (fun e => role e = "assistant") appended.
Proof.
  destruct (run_assistant_post fuel assistant_id s)
    as (Hpq & typing & appended & Hst & Hall & _).
  rewrite Hst. split; [destruct (state s); reflexivity|].
  split; [exact Hpq|]. exists appended.
  split; [destruct (state s); reflexivity | exact Hall].
Qed.

(** X4.  A run that the remote service hands back as [completed] when it is
    created is not polled: [run_assistant] neither sleeps nor asks for the
    status, whatever the fuel, and goes on to list the messages. *)
Theorem run_assistant_completed_at_creation
    fuel assistant_id s run w1 w2 messages appended :
  runs_create openai (SS.thread_id (state s)) assistant_id (world s) = (Returns run, w1) ->
  Run_status run = "completed" ->
  messages_list openai (SS.thread_id (state s)) w1 = (Returns messages, w2) ->
  Forall2 entry_of_message (assistant_messages_of messages run) appended ->
  run_assistant openai fuel assistant_id s
  = (Val tt,
     mkStore (SS.set_assistant_is_typing false
                (SS.set_messages (SS.messages (state s) ++ appended) (state s)))
             (previous_question s) w2
             (trace s ++ [EvCall (RunsCreate (SS.thread_id (state s)) assistant_id);
                          EvCall (MessagesList (SS.thread_id (state s)))])).
Proof.
  intros Hcreate Hstatus Hlist Happended.
  destruct s as [st pq w tr]. destruct st. cbn [state world SS.thread_id] in *.
  unfold run_assistant.
  erewrite bind_val by reflexivity.
  erewrite bind_val by (unfold create_run; apply safe_api_call_returns; exact Hcreate).
  erewrite bind_val by reflexivity.
  erewrite bind_val by (apply poll_done; exact Hstatus).
  erewrite bind_val by reflexivity.
  cbn [state previous_question world trace].
  erewrite bind_val by (unfold get_messages; apply safe_api_call_returns; exact Hlist).
  cbv beta iota.
  erewrite bind_val by (apply append_assistant_messages_returns; exact Happended).
  unfold update_state. cbn. rewrite <- !app_assoc. reflexivity.
Qed.

(** The appending loop stops at the first message without a leading text
    block, the entries of the messages before it appended. *)
Lemma append_assistant_messages_stops good bad rest appended exn :
  Forall2 entry_of_message good appended ->
  first_text_failure bad = Some exn ->
  forall s,
    append_assistant_messages (good ++ bad :: rest) s
    = (Exc exn,
       mkStore (SS.set_messages (SS.messages (state s) ++ appended) (state s))
               (previous_question s) (world s) (trace s)).
Proof.
  intros Hgood Hbad.
  induction Hgood as [|m e l appended [Hrole [tail Hcontent]] _ IH]; intros s; simpl.
  - unfold first_text_failure in Hbad. unfold first_text_value.
    rewrite app_nil_r, set_messages_same, store_eta.
    destruct (Message_content bad) as [|[value|file] tail]; try discriminate;
      injection Hbad as <-; reflexivity.
  - unfold first_text_value at 1. rewrite Hcontent.
    erewrite bind_val by reflexivity.
    erewrite bind_val by reflexivity.
    rewrite IH. cbn [state previous_question world trace].
    rewrite set_messages_twice, <- app_assoc. simpl.
    destruct e as [erole econtent]. simpl in Hrole |- *. subst erole. reflexivity.
Qed.

(** X5.  When the run is completed (at creation or after any number of
    polls) and one of its listed messages has no leading text block (an
    empty [content], or an image first), [run_assistant] ends in
    [IndexError] (resp. [AttributeError]) at that message: the entries of
    the messages before it are in the transcript, those after it are not,
    and [assistant_is_typing] is left true. *)
Theorem run_assistant_stops_at_message_without_text
    fuel assistant_id s polls run messages events w' good bad rest appended exn :
  completed_run openai (SS.thread_id (state s)) assistant_id (world s) polls run
                messages events w' ->
  (polls <= fuel)%nat ->
  assistant_messages_of messages run = (good ++ bad :: rest)%list ->
  Forall2 entry_of_message good appended ->
  first_text_failure bad = Some exn ->
  run_assistant openai fuel assistant_id s
  = (Exc exn,
     mkStore (SS.set_assistant_is_typing true
                (SS.set_messages (SS.messages (state s) ++ appended) (state s)))
             (previous_question s) w' (trace s ++ events)).
Proof.
  intros (created & w1 & polling & w2 & Hcreate & Hpolled & Hlist & ->)
         Hfuel Hsplit Hgood Hbad.
  destruct s as [st pq w tr]. destruct st. cbn [state world SS.thread_id] in *.
  unfold run_assistant.
  erewrite bind_val by reflexivity.
  erewrite bind_val by (unfold create_run; apply safe_api_call_returns; exact Hcreate).
  erewrite bind_val by reflexivity.
  erewrite bind_val
    by (eapply poll_until_completed_follows;
        [exact Hpolled | exact Hfuel | reflexivity | reflexivity]).
  erewrite bind_val by reflexivity.
  cbn [state previous_question world trace].
  erewrite bind_val by (unfold get_messages; apply safe_api_call_returns; exact Hlist).
  cbv beta iota. rewrite Hsplit.
  erewrite bind_exc by (apply append_assistant_messages_stops; eassumption).
  cbn. repeat (rewrite <- app_assoc; simpl). reflexivity.
Qed.

(** ** What goes to the remote service *)

Lemma emits_weaken {A} (I : SessionState -> Prop) (P P' : Event -> Prop) (m : M W A) :
  (forall ev, P ev -> P' ev) -> emits I P m -> emits I P' m.
Proof.
  intros HP Hm s Hs. destruct (Hm s Hs) as (events & Htrace & Hall & HI).
  exists events. split; [assumption|]. split; [|assumption].
  eapply Forall_impl; eassumption.
Qed.

Lemma emits_silent {A} (I : SessionState -> Prop) P (m : M W A) :
  (forall s, trace (snd (m s)) = trace s) ->
  (forall s a, I (state s) -> fst (m s) = Val a -> I (state (snd (m s)))) ->
  emits I P m.
Proof.
  intros Htrace HI s Hs. exists []. rewrite app_nil_r.
  split; [apply Htrace|]. split; [constructor|]. intros a. apply HI. exact Hs.
Qed.

Lemma emits_ret {A} I P (a : A) : emits I P (@ret W A a).
Proof. apply emits_silent; auto. Qed.

Lemma emits_raise {A} I P e : emits I P (@raise W A e).
Proof. apply emits_silent; auto. Qed.

Lemma emits_rerun {A} I P : emits I P (@st_rerun W A).
Proof. apply emits_silent; auto. Qed.

Lemma emits_out_of_fuel {A} I P : emits I P (@out_of_fuel W A).
Proof. apply emits_silent; auto. Qed.

Lemma emits_get_previous_question I P : emits I P (@get_previous_question W).
Proof. apply emits_silent; auto. Qed.

Lemma emits_set_previous_question I P q : emits I P (@set_previous_question W q).
Proof. apply emits_silent; auto. Qed.

Lemma emits_update_state (I : SessionState -> Prop) P f :
  (forall st, I st -> I (f st)) -> emits I P (@update_state W f).
Proof. intros Hf. apply emits_silent; [reflexivity|]. intros s a Hs _. apply Hf, Hs. Qed.

Lemma emits_emit (I : SessionState -> Prop) (P : Event -> Prop) ev :
  P ev -> emits I P (@emit W ev).
Proof.
  intros Hev s Hs. exists [ev]. split; [reflexivity|]. split; [auto|]. intros _ _. exact Hs.
Qed.

Lemma emits_bind {A B} I P (m : M W A) (k : A -> M W B) :
  emits I P m -> (forall a, emits I P (k a)) -> emits I P (bind m k).
Proof.
  intros Hm Hk s Hs. rewrite bind_unfold.
  destruct (Hm s Hs) as (events & Htrace & Hall & HI).
  destruct (m s) as [[a|e| |] s1]; simpl in *;
    try (exists events; split; [assumption|]; split; [assumption|]; discriminate).
  destruct (Hk a s1 (HI a eq_refl)) as (events' & Htrace' & Hall' & HI').
  exists (events ++ events')%list. rewrite Htrace', Htrace, app_assoc.
  split; [reflexivity|]. split; [apply Forall_app; auto | exact HI'].
Qed.

(** After [get_state], the session read is one that satisfies [I]. *)
Lemma emits_bind_get_state {B} (I : SessionState -> Prop) P (k : SessionState -> M W B) :
  (forall st, I st -> emits I P (k st)) ->
  emits I P (bind get_state k).
Proof.
  intros Hk s Hs. erewrite bind_val by reflexivity. apply Hk; exact Hs.
Qed.

(** A step followed by [st.rerun()] need not keep [I]. *)
Lemma emits_update_then_rerun {B} (I : SessionState -> Prop) P f :
  emits I P (bind (@update_state W f) (fun _ => @st_rerun W B)).
Proof.
  intros s Hs. exists []. rewrite app_nil_r.
  split; [reflexivity|]. split; [constructor | discriminate].
Qed.

Lemma emits_safe_api_call {A} (I : SessionState -> Prop) (P : Event -> Prop)
    op (func : RemoteCall W A) :
  P (EvCall op) -> P (EvSleep RETRY_DELAY) -> emits I P (safe_api_call op func).
Proof.
  intros Hcall Hsleep s Hs.
  exists [EvCall op]. rewrite safe_api_call_once. cbn [snd trace state].
  split; [reflexivity|]. split; [repeat constructor; assumption|].
  intros _ _. exact Hs.
Qed.

Lemma emits_poll_until_completed (I : SessionState -> Prop) (P : Event -> Prop)
    thread_id fuel :
  (forall st, I st -> SS.thread_id st = thread_id) ->
  P (EvSleep 1) -> P (EvSleep RETRY_DELAY) ->
  (forall run_id, P (EvCall (RunsRetrieve thread_id run_id))) ->
  forall run, emits I P (poll_until_completed openai fuel run).
Proof.
  intros Hthread Hsleep1 Hsleep2 Hretrieve.
  induction fuel as [|fuel IH]; intros run; rewrite poll_until_completed_eq;
    destruct run as [r|]; try apply emits_raise;
    destruct (negb (String.eqb (Run_status r) "completed"));
    try apply emits_ret; try apply emits_out_of_fuel.
  apply emits_bind; [apply emits_emit; exact Hsleep1|]. intros _.
  apply emits_bind_get_state. intros st Hst.
  apply emits_bind; [|intros run'; apply IH].
  unfold get_run_status. rewrite (Hthread st Hst).
  apply emits_safe_api_call; auto.
Qed.

Lemma emits_append_assistant_messages (I : SessionState -> Prop) P l :
  (forall st entries, I st -> I (SS.set_messages entries st)) ->
  emits I P (@append_assistant_messages W l).
Proof.
  intros HI. induction l as [|m l IH]; simpl; [apply emits_ret|].
  apply emits_bind.
  - unfold first_text_value.
    destruct (Message_content m) as [|[value|file] rest];
      [apply emits_raise | apply emits_ret | apply emits_raise].
  - intros value. apply emits_bind; [|intros _; exact IH].
    unfold messages_append. apply emits_update_state. intros st Hst. apply HI, Hst.
Qed.

Lemma emits_run_assistant (I : SessionState -> Prop) thread_id fuel assistant_id :
  (forall st, I st -> SS.thread_id st = thread_id) ->
  (forall st typing, I st -> I (SS.set_assistant_is_typing typing st)) ->
  (forall st entries, I st -> I (SS.set_messages entries st)) ->
  emits I (run_event thread_id assistant_id) (run_assistant openai fuel assistant_id).
Proof.
  intros Hthread Htyping Hmessages.
  unfold run_assistant.
  apply emits_bind_get_state. intros st Hst.
  apply emits_bind.
  { unfold create_run. rewrite (Hthread st Hst).
    apply emits_safe_api_call; simpl; auto. }
  intros run. apply emits_bind.
  { apply emits_update_state. intros st0 H. apply Htyping, H. }
  intros _. apply emits_bind.
  { apply emits_poll_until_completed with (thread_id := thread_id); simpl; auto. }
  intros run'. apply emits_bind_get_state. intros st' Hst'.
  apply emits_bind.
  { unfold get_messages. rewrite (Hthread st' Hst').
    apply emits_safe_api_call; simpl; auto. }
  intros [messages|]; [|apply emits_raise].
  apply emits_bind.
  { apply emits_append_assistant_messages. exact Hmessages. }
  intros _. apply emits_update_state. intros st0 H. apply Htyping, H.
Qed.

(** X6.  However it ends, [run_assistant] sends the remote service nothing
    but requests about the session's own thread: it creates runs for it,
    asks for the status of runs, and lists its messages.  It never creates a
    thread and never posts a message, and it sleeps 1 time unit (polling) or
    [RETRY_DELAY] (retrying) at a time. *)
Theorem run_assistant_remote_traffic fuel assistant_id s :
  exists events,
    trace (snd (run_assistant openai fuel assistant_id s)) = (trace s ++ events)%list
    /\ Forall (run_event (SS.thread_id (state s)) assistant_id) events.
Proof.
  destruct (emits_run_assistant (fun st => SS.thread_id st = SS.thread_id (state s))
              (SS.thread_id (state s)) fuel assistant_id) with (s := s)
    as (events & Htrace & Hall & _); auto.
  - intros [] typing H; exact H.
  - intros [] entries H; exact H.
  - exists events. auto.
Qed.

(** The steps of a computation whose events satisfy [P], one after the
    other. *)
Ltac emits_steps :=
  repeat first
    [ apply emits_ret
    | apply emits_raise
    | apply emits_rerun
    | apply emits_update_then_rerun
    | apply emits_emit; reflexivity
    | apply emits_update_state; intros [] ?H; assumption
    | apply emits_bind_get_state; intros ? ?
    | apply emits_bind; [|intros ?]
    | match goal with
      | |- emits _ _ (if ?c then _ else _) => destruct c
      | |- emits _ _ (match ?x with _ => _ end) => destruct x
      | |- emits _ _ (let (_, _) := ?x in _) => destruct x
      end ].

Lemma emits_send_initial_messages st0 thread_id fuel assistant_id :
  emits (fun st => SS.thread_id st = thread_id
                   /\ initial_prompt st = initial_prompt st0)
        (seed_event st0 thread_id assistant_id)
        (send_initial_messages openai fuel assistant_id).
Proof.
  assert (Hrun : emits (fun st => SS.thread_id st = thread_id
                                  /\ initial_prompt st = initial_prompt st0)
                       (seed_event st0 thread_id assistant_id)
                       (run_assistant openai fuel assistant_id)).
  { eapply emits_weaken; [|apply emits_run_assistant with (thread_id := thread_id)].
    - intros ev Hev. left. exact Hev.
    - intros st [H _]. exact H.
    - intros [] typing H. exact H.
    - intros [] entries H. exact H. }
  unfold send_initial_messages.
  apply emits_bind_get_state. intros st [Hthread Hprompt].
  apply emits_bind.
  { unfold create_message. rewrite Hthread, Hprompt.
    apply emits_safe_api_call; [right; left; reflexivity | left; right; reflexivity]. }
  intros _. apply emits_bind; [exact Hrun|]. intros _.
  apply emits_bind_get_state. intros st' [Hthread' _].
  apply emits_bind; [|intros _; exact Hrun].
  unfold create_message. rewrite Hthread'.
  apply emits_safe_api_call; [right; right; reflexivity | left; right; reflexivity].
Qed.

Lemma seed_event_thread st thread_id assistant_id ev t :
  seed_event st thread_id assistant_id ev -> thread_of ev = Some t -> t = thread_id.
Proof.
  intros [Hrun | [-> | ->]] Hthread; simpl in Hthread; try congruence.
  destruct ev as [[| | | |]| |]; simpl in *; try discriminate; try contradiction.
  all: injection Hthread as <-.
  all: first [exact (proj1 Hrun) | exact Hrun].
Qed.

(** X7.  However it ends, [start_chat] first asks the remote service for a
    new thread, once.  When that request fails nothing else is sent.  When
    it hands a thread back, everything sent afterwards addresses that very
    thread: the two seed prompts posted to it as user messages (the first
    built from the session's [job_type], [job_description_text] and
    [resume_text]) and the requests of their runs.  So the thread the
    session had before, when it is another one, is not addressed. *)
Theorem start_chat_remote_traffic fuel assistant_id s :
  match fst (threads_create openai (world s)) with
  | Returns thread =>
      exists after,
        trace (snd (start_chat openai fuel assistant_id s))
        = (trace s ++ EvCall ThreadsCreate :: after)%list
        /\ Forall (seed_event (state s) (Some (Thread_id thread)) assistant_id) after
        /\ Forall (fun ev => forall t, thread_of ev = Some t ->
                                       t = Some (Thread_id thread)) after
        /\ (SS.thread_id (state s) <> Some (Thread_id thread) ->
            Forall (fun ev => thread_of ev <> Some (SS.thread_id (state s))) after)
  | RaisesOpenAIError _ | RaisesOther _ =>
      trace (snd (start_chat openai fuel assistant_id s))
      = (trace s ++ [EvCall ThreadsCreate])%list
  end.
Proof.
  unfold start_chat.
  do 6 (erewrite bind_val by reflexivity).
  cbn [state previous_question world trace].
  match goal with
  | |- context [bind (create_thread openai) ?k ?s6] =>
      rewrite (bind_unfold (create_thread openai) k s6);
      unfold create_thread; rewrite (safe_api_call_once ThreadsCreate (threads_create openai) s6)
  end.
  cbn [state previous_question world trace].
  destruct (threads_create openai (world s)) as [[thread|e|e] w1];
    cbn [fst snd trace]; try reflexivity.
  erewrite bind_val by reflexivity.
  erewrite bind_val by reflexivity.
  cbn [state previous_question world trace].
  match goal with
  | |- context [send_initial_messages openai fuel assistant_id ?s8] =>
      destruct (emits_send_initial_messages (state s) (Some (Thread_id thread))
                  fuel assistant_id s8) as (after & Htrace & Hafter & _)
  end.
  { cbn [state]. destruct (state s); split; reflexivity. }
  exists after. rewrite Htrace. cbn [trace]. rewrite <- app_assoc.
  split; [reflexivity|]. split; [exact Hafter|].
  assert (Hnew : Forall (fun ev => forall t, thread_of ev = Some t ->
                                             t = Some (Thread_id thread)) after).
  { eapply Forall_impl; [|exact Hafter]. intros ev Hev t.
    apply (seed_event_thread _ _ _ _ _ Hev). }
  split; [exact Hnew|].
  intros Hold. eapply Forall_impl; [|exact Hnew]. intros ev Hev Hthread.
  apply Hold. exact (Hev _ Hthread).
Qed.

(** X8.  However it ends, [start_chat] leaves the session started
    ([start_chat] true, [buttons_shown] and [processing] false), with a
    transcript of assistant entries only, with the thread identifier it had
    or a new one, and with [st.session_state.previous_question] back at the
    placeholder; it never writes [resume_text], [job_description_text],
    [job_type], [job_url], [job_input_method], [resume_input_method] or
    [question_count]. *)
Theorem start_chat_frame fuel assistant_id s :
  exists thread typing appended,
    state (snd (start_chat openai fuel assistant_id s))
    = SS.mk true thread false (SS.resume_text (state s))
            (SS.job_description_text (state s)) (SS.job_type (state s))
            appended false (SS.job_input_method (state s)) (SS.job_url (state s))
            (SS.resume_input_method (state s)) typing (SS.question_count (state s))
    /\ Forall (fun e => role e = "assistant") appended
    /\ (thread = SS.thread_id (state s) \/ exists id, thread = Some id)
    /\ previous_question (snd (start_chat openai fuel assistant_id s))
       = Some "Select a predefined question".
Proof.
  change (post (start_chat openai fuel assistant_id) s (fun _ s' =>
    exists thread typing appended,
      state s'
      = SS.mk true thread false (SS.resume_text (state s))
              (SS.job_description_text (state s)) (SS.job_type (state s))
              appended false (SS.job_input_method (state s)) (SS.job_url (state s))
              (SS.resume_input_method (state s)) typing (SS.question_count (state s))
      /\ Forall (fun e => role e = "assistant") appended
      /\ (thread = SS.thread_id (state s) \/ exists id, thread = Some id)
      /\ previous_question s' = Some "Select a predefined question")).
  unfold start_chat.
  do 5 apply post_bind, post_update_state.
  apply post_bind, post_set_previous_question.
  apply post_bind. unfold create_thread.
  eapply post_conseq; [apply safe_api_call_post|].
  intros r1 s1 (Hst1 & Hpq1 & Hr1). cbn [state previous_question] in Hst1, Hpq1.
  destruct r1 as [[thread|]|e| |]; try contradiction.
  2: { exists (SS.thread_id (state s)), false, [].
       rewrite Hst1, Hpq1. destruct (state s). simpl. auto. }
  apply post_bind, post_ret. apply post_bind, post_update_state.
  eapply post_conseq; [apply send_initial_messages_post|].
  intros r2 s2 (Hpq2 & typing & appended & Hst2 & Hall & _).
  cbn [state previous_question] in Hst2, Hpq2.
  exists (Some (Thread_id thread)), typing, appended.
  rewrite Hst2, Hpq2, Hst1, Hpq1. destruct (state s). simpl. eauto 6.
Qed.

(** A start from a session that was just reset ends, however it ends,
    with [question_count] at 0. *)
Lemma start_after_reset_counts_zero fuel assistant_id s :
  SS.question_count
    (state (snd (start_chat openai fuel assistant_id
                   (mkStore (reset_chat (state s)) (previous_question s)
                            (world s) (trace s)))))
  = 0.
Proof.
  rewrite keeps_count_start_chat. cbn [state]. destruct (state s); reflexivity.
Qed.

Lemma emits_sidebar_form (I : SessionState -> Prop) (P : Event -> Prop) ui :
  (forall st v, I st -> I (SS.set_job_type v st)) ->
  (forall st v, I st -> I (SS.set_resume_input_method v st)) ->
  (forall st v, I st -> I (SS.set_resume_text v st)) ->
  (forall st v, I st -> I (SS.set_job_input_method v st)) ->
  (forall st v, I st -> I (SS.set_job_description_text v st)) ->
  (forall st v, I st -> I (SS.set_job_url v st)) ->
  (forall msg, P (EvError msg)) ->
  emits I P (@sidebar_form W ui).
Proof.
  intros H1 H2 H3 H4 H5 H6 HP.
  unfold sidebar_form, extract_pdf_content, st_error.
  repeat first
    [ apply emits_ret
    | apply emits_raise
    | apply emits_emit; apply HP
    | apply emits_update_state; intros ? ?; auto
    | apply emits_bind_get_state; intros ? ?
    | apply emits_bind; [|intros ?]
    | match goal with
      | |- emits _ _ (if ?c then _ else _) => destruct c
      | |- emits _ _ (match ?x with _ => _ end) => destruct x
      | |- emits _ _ (let (_, _) := ?x in _) => destruct x
      end ].
Qed.

Lemma emits_start_chat_clicked_quiet ui :
  emits (fun st => SS.start_chat st = false /\ SS.processing st = false)
        (fun ev => is_call ev = false)
        (@start_chat_clicked W ui).
Proof.
  unfold start_chat_clicked, st_error, time_sleep. emits_steps.
Qed.

(** X9.  Until a chat is started nothing goes to the assistant service: a
    run of the script from a session with [start_chat] and [processing]
    false makes no call of [openai.beta.threads], whatever the user enters
    or clicks.  (The page fetch of [Start Chat] is a request to another
    service; it is an input of the run and not an event of the trace.) *)
Theorem main_quiet_before_start fuel assistant_id ui s :
  SS.start_chat (state s) = false ->
  SS.processing (state s) = false ->
  exists events,
    trace (snd (main openai fuel assistant_id ui s)) = (trace s ++ events)%list
    /\ Forall (fun ev => is_call ev = false) events.
Proof.
  intros Hstart Hprocessing.
  assert (Hmain : emits (fun st => SS.start_chat st = false /\ SS.processing st = false)
                        (fun ev => is_call ev = false)
                        (main openai fuel assistant_id ui)).
  { unfold main.
    apply emits_bind_get_state. intros st _.
    destruct (SS.question_count st >=? MAX_QUESTIONS_PER_SESSION).
    { unfold st_error. emits_steps. }
    apply emits_bind.
    { apply emits_sidebar_form; try (intros [] v H; exact H). reflexivity. }
    intros _. apply emits_bind.
    { destruct (start_chat_button ui);
        [apply emits_start_chat_clicked_quiet | apply emits_ret]. }
    intros _. apply emits_bind_get_state. intros st' [_ Hpr']. rewrite Hpr'.
    apply emits_bind; [apply emits_ret|]. intros _.
    apply emits_bind.
    { destruct (exit_chat_button ui); [apply emits_update_then_rerun | apply emits_ret]. }
    intros _. apply emits_bind_get_state. intros st'' [Hsc'' _]. rewrite Hsc''.
    apply emits_ret. }
  destruct (Hmain s (conj Hstart Hprocessing)) as (events & Htrace & Hall & _).
  exists events. auto.
Qed.

(** ** Further properties of the chat page *)

(** X10.  A question is counted, and put in the transcript, before anything
    is sent: when posting it fails (the operation raises at the attempt the
    wrapper makes), [chat_interface] ends in the exception the wrapper ends
    in, with [question_count] raised by one and the user entry appended, and
    no run was created. *)
Theorem chat_interface_counts_failed_submission
    fuel assistant_id text selected_question s :
  truthy text = true ->
  SS.question_count (state s) < MAX_QUESTIONS_PER_SESSION ->
  (forall a,
     response (messages_create openai (SS.thread_id (state s)) "user" text) 0 (world s)
     <> Returns a) ->
  chat_interface openai fuel assistant_id (Some text) selected_question s
  = (Exc AttributeError,
     mkStore (SS.set_messages (SS.messages (state s) ++ [mkEntry "user" text])
                (SS.set_question_count (SS.question_count (state s) + 1) (state s)))
             (previous_question s)
             (world_after (messages_create openai (SS.thread_id (state s)) "user" text)
                          1 (world s))
             (trace s ++ [EvCall (MessagesCreate (SS.thread_id (state s)) "user" text)])).
Proof.
  intros Htext Hquota Hfails.
  apply Z.ltb_lt in Hquota.
  destruct s as [st pq w tr].
  destruct st as [sc tid bs rt jd jt msgs pr jim ju rim typ qc].
  cbn [state world SS.thread_id SS.question_count SS.messages previous_question trace] in *.
  unfold chat_interface. rewrite Htext.
  erewrite bind_exc; [reflexivity|].
  erewrite bind_val by reflexivity.
  cbn [state SS.question_count]. rewrite Hquota.
  erewrite bind_val by reflexivity.
  erewrite bind_val by reflexivity.
  erewrite bind_val by reflexivity.
  erewrite bind_exc
    by (unfold create_message; apply safe_api_call_fails; cbn [world]; exact Hfails).
  reflexivity.
Qed.

(** X11.  With nothing typed in the chat box, [chat_interface] does nothing
    at all while the chat is not started or [assistant_is_typing] is set:
    the predefined questions are out of reach, whatever is selected. *)
Theorem chat_interface_idle fuel assistant_id user_input selected_question s :
  user_input = None \/ user_input = Some "" ->
  SS.start_chat (state s) = false \/ SS.assistant_is_typing (state s) = true ->
  chat_interface openai fuel assistant_id user_input selected_question s = (Val tt, s).
Proof.
  intros Hinput Hblocked.
  assert (Hcond : SS.start_chat (state s) && negb (SS.assistant_is_typing (state s))
                  = false).
  { destruct Hblocked as [-> | ->]; [reflexivity|]. apply andb_false_r. }
  unfold chat_interface.
  destruct Hinput as [-> | ->]; cbn [truthy String.eqb negb];
    erewrite bind_val by reflexivity;
    erewrite bind_val by reflexivity;
    rewrite Hcond; reflexivity.
Qed.

Lemma chat_interface_remembers_selection fuel assistant_id selected_question s :
  post (chat_interface openai fuel assistant_id None selected_question) s
       (fun r s' =>
          SS.question_count (state s) < MAX_QUESTIONS_PER_SESSION ->
          r = Rerun ->
          previous_question s' = Some selected_question).
Proof.
  unfold chat_interface.
  apply post_bind, post_ret.
  apply post_bind, post_get_state.
  destruct (SS.start_chat (state s) && negb (SS.assistant_is_typing (state s)));
    [|apply post_ret; intros _ ?; discriminate].
  apply post_bind, post_get_previous_question. apply post_bind.
  destruct (previous_question s) as [previous|];
    [apply post_ret | apply post_set_previous_question].
  all: apply post_bind, post_get_previous_question.
  all: match goal with
       | |- context [if ?c then _ else _] => destruct c
       end; [|apply post_ret; intros _ ?; discriminate].
  all: apply post_bind, post_get_state; cbn [state previous_question world trace].
  all: destruct (SS.question_count (state s) <? MAX_QUESTIONS_PER_SESSION) eqn:Hq;
    [|apply post_bind, post_emit; apply post_bind, post_update_state; apply post_rerun;
      intros Hlt; apply Z.ltb_ge in Hq; lia].
  all: apply post_bind, post_update_state.
  all: destruct (dict_get predefined_questions selected_question) as [detailed_question|];
    [|apply post_raise; intros _ ?; discriminate].
  all: apply post_bind; unfold messages_append; apply post_update_state.
  all: apply post_bind, post_get_state; cbn [state previous_question world trace].
  all: apply post_bind; unfold create_message;
    (eapply post_conseq; [apply safe_api_call_post|]);
    intros r1 s1 (_ & _ & Hr1);
    destruct r1 as [[[]|]|?| |]; try contradiction; [|intros _ ?; discriminate].
  all: apply post_bind; (eapply post_conseq; [apply run_assistant_post|]);
    intros r2 s2 (_ & ?typing & ?appended & _ & _ & Hr2);
    destruct r2 as [[]|?| |]; try contradiction; try (intros _ ?; discriminate).
  all: apply post_bind, post_set_previous_question; apply post_rerun.
  all: intros _ _; reflexivity.
Qed.

Lemma chat_interface_same_selection fuel assistant_id selected_question s :
  previous_question s = Some selected_question ->
  chat_interface openai fuel assistant_id None selected_question s = (Val tt, s).
Proof.
  intros Hprevious. unfold chat_interface.
  erewrite bind_val by reflexivity.
  erewrite bind_val by reflexivity.
  destruct (SS.start_chat (state s) && negb (SS.assistant_is_typing (state s)));
    [|reflexivity].
  erewrite bind_val by reflexivity. rewrite Hprevious.
  erewrite bind_val by reflexivity.
  erewrite bind_val by reflexivity. rewrite Hprevious.
  cbn [option_string_eqb]. rewrite String.eqb_refl, andb_false_r. reflexivity.
Qed.

(** X12.  A predefined question is not submitted twice in a row: after a
    submission of the selection that went through (below the quota, ending
    in [st.rerun()]), the next run of [chat_interface] with the same
    selection and nothing typed does nothing. *)
Theorem chat_interface_selection_not_resubmitted
    fuel fuel' assistant_id selected_question s s' :
  SS.question_count (state s) < MAX_QUESTIONS_PER_SESSION ->
  chat_interface openai fuel assistant_id None selected_question s = (Rerun, s') ->
  chat_interface openai fuel' assistant_id None selected_question s' = (Val tt, s').
Proof.
  intros Hquota Hrun.
  apply chat_interface_same_selection.
  pose proof (chat_interface_remembers_selection fuel assistant_id selected_question s)
    as H.
  unfold post in H. rewrite Hrun in H. exact (H Hquota eq_refl).
Qed.

Lemma bind_no_return {A B} (m : M W A) (k1 k2 : A -> M W B) s :
  no_return m -> bind m k1 s = bind m k2 s.
Proof.
  intros Hm. rewrite !bind_unfold. specialize (Hm s).
  destruct (m s) as [[a|e| |] s1]; try reflexivity.
  destruct (Hm a eq_refl).
Qed.

(** X13.  The chat box comes first: with a question typed,
    [chat_interface] does the same whatever predefined question is
    selected (the selection is not looked at in that run). *)
Theorem chat_interface_chat_box_first
    fuel assistant_id text selected_question selected_question' s :
  truthy text = true ->
  chat_interface openai fuel assistant_id (Some text) selected_question s
  = chat_interface openai fuel assistant_id (Some text) selected_question' s.
Proof.
  intros Htext. unfold chat_interface. rewrite Htext.
  apply bind_no_return.
  apply no_return_bind_r. intros st.
  destruct (SS.question_count st <? MAX_QUESTIONS_PER_SESSION);
    repeat (apply no_return_bind_r; intros ?); apply no_return_rerun.
Qed.

Lemma safe_api_call_store_post {A} (op : Op) (func : RemoteCall W A) s :
  post (safe_api_call op func) s (fun _ s' =>
    state s' = state s
    /\ exists rest, trace s' = (trace s ++ EvCall op :: rest)%list).
Proof.
  unfold post. rewrite safe_api_call_once. cbn [snd state trace]. eauto.
Qed.

Lemma run_assistant_post_trace fuel assistant_id s :
  post (run_assistant openai fuel assistant_id) s (fun _ s' =>
    (exists events, trace s' = (trace s ++ events)%list)
    /\ exists typing appended,
         state s' = SS.set_assistant_is_typing typing
                      (SS.set_messages (SS.messages (state s) ++ appended) (state s))
         /\ Forall (fun e => role e = "assistant") appended).
Proof.
  unfold post. split.
  - destruct (emits_run_assistant (fun st => SS.thread_id st = SS.thread_id (state s))
                (SS.thread_id (state s)) fuel assistant_id) with (s := s)
      as (events & Htrace & _); auto.
    + intros [] typing H; exact H.
    + intros [] entries H; exact H.
    + exists events. exact Htrace.
  - destruct (run_assistant_post fuel assistant_id s)
      as (_ & typing & appended & Hst & Hall & _).
    exists typing, appended. auto.
Qed.

(** Posting a message and running the assistant, when what comes after
    leaves session and trace alone: the first thing sent is the message, and
    the transcript gets assistant entries only. *)
Lemma post_message_and_run {B} fuel assistant_id thread_id role' content'
    (k : unit -> M W B) s :
  (forall a s1, state (snd (k a s1)) = state s1 /\ trace (snd (k a s1)) = trace s1) ->
  post (bind (create_message openai thread_id role' content')
             (fun _ => bind (run_assistant openai fuel assistant_id) k))
       s
       (fun _ s' =>
          (exists rest,
              trace s' = (trace s ++ EvCall (MessagesCreate thread_id role' content')
                          :: rest)%list)
          /\ exists typing appended,
               state s' = SS.set_assistant_is_typing typing
                            (SS.set_messages (SS.messages (state s) ++ appended) (state s))
               /\ Forall (fun e => role e = "assistant") appended).
Proof.
  intros Hk.
  apply post_bind. unfold create_message.
  eapply post_conseq; [apply safe_api_call_store_post|].
  intros r s1 (Hst1 & rest & Htr1).
  assert (Hhere :
    (exists rest0,
        trace s1 = (trace s ++ EvCall (MessagesCreate thread_id role' content')
                    :: rest0)%list)
    /\ exists typing appended,
         state s1 = SS.set_assistant_is_typing typing
                      (SS.set_messages (SS.messages (state s) ++ appended) (state s))
         /\ Forall (fun e => role e = "assistant") appended).
  { split; [eauto|]. exists (SS.assistant_is_typing (state s)), [].
    rewrite Hst1. split; [|constructor].
    destruct (state s); simpl; rewrite app_nil_r; reflexivity. }
  destruct r as [a|e| |]; try exact Hhere.
  apply post_bind.
  eapply post_conseq; [apply run_assistant_post_trace|].
  intros r2 s2 ((events & Htr2) & typing & appended & Hst2 & Hall).
  assert (Hthere :
    (exists rest0,
        trace s2 = (trace s ++ EvCall (MessagesCreate thread_id role' content')
                    :: rest0)%list)
    /\ exists typing0 appended0,
         state s2 = SS.set_assistant_is_typing typing0
                      (SS.set_messages (SS.messages (state s) ++ appended0) (state s))
         /\ Forall (fun e => role e = "assistant") appended0).
  { split.
    - exists (rest ++ events)%list. rewrite Htr2, Htr1, <- app_assoc. reflexivity.
    - exists typing, appended. rewrite Hst2, Hst1. auto. }
  destruct r2 as [a2|e| |]; try exact Hthere.
  unfold post. destruct (Hk a2 s2) as [Hks Hkt]. rewrite Hks, Hkt. exact Hthere.
Qed.

(** X14.  For a predefined question the transcript shows the label selected,
    while what is posted to the thread is the detailed prompt kept under
    that label: the first thing [chat_interface] sends is that prompt, as a
    user message, and, however the run ends, the transcript has got the
    label as one user entry, followed by assistant entries only, and the
    question is counted. *)
Theorem chat_interface_predefined_posts_prompt
    fuel assistant_id selected_question detailed_question s :
  SS.start_chat (state s) = true ->
  SS.assistant_is_typing (state s) = false ->
  selected_question <> "Select a predefined question" ->
  previous_question s <> Some selected_question ->
  SS.question_count (state s) < MAX_QUESTIONS_PER_SESSION ->
  dict_get predefined_questions selected_question = Some detailed_question ->
  (exists rest,
      trace (snd (chat_interface openai fuel assistant_id None selected_question s))
      = (trace s
         ++ EvCall (MessagesCreate (SS.thread_id (state s)) "user" detailed_question)
         :: rest)%list)
  /\ (exists appended,
         SS.messages
           (state (snd (chat_interface openai fuel assistant_id None selected_question s)))
         = (SS.messages (state s) ++ mkEntry "user" selected_question :: appended)%list
         /\ Forall (fun e => role e = "assistant") appended)
  /\ SS.question_count
       (state (snd (chat_interface openai fuel assistant_id None selected_question s)))
     = SS.question_count (state s) + 1.
Proof.
  intros Hstarted Htyping Hselected Hprevious Hquota Hprompt.
  apply Z.ltb_lt in Hquota. apply String.eqb_neq in Hselected.
  assert (Hcond : forall previous,
             previous_question s = Some previous \/
             (previous_question s = None /\ previous = "Select a predefined question") ->
             negb (String.eqb selected_question "Select a predefined question")
             && negb (option_string_eqb (Some previous) selected_question) = true).
  { intros previous Hp. rewrite Hselected. cbn [negb andb option_string_eqb].
    apply negb_true_iff, String.eqb_neq.
    destruct Hp as [Hp | [_ ->]].
    - intros ->. apply Hprevious. exact Hp.
    - apply String.eqb_neq. rewrite String.eqb_sym. exact Hselected. }
  unfold chat_interface.
  erewrite bind_val by reflexivity.
  erewrite bind_val by reflexivity.
  rewrite Hstarted, Htyping. cbn [negb andb].
  erewrite bind_val by reflexivity.
  destruct (previous_question s) as [previous|] eqn:Hpq.
  all: erewrite bind_val by reflexivity.
  all: erewrite bind_val by reflexivity.
  all: cbn [state previous_question world trace].
  all: rewrite ?Hpq.
  all: rewrite Hcond by auto.
  all: erewrite bind_val by reflexivity.
  all: cbn [state previous_question world trace].
  all: rewrite Hquota.
  all: erewrite bind_val by reflexivity.
  all: rewrite Hprompt.
  all: erewrite bind_val by reflexivity.
  all: erewrite bind_val by reflexivity.
  all: cbn [state previous_question world trace].
  all: match goal with
       | |- context [bind (create_message openai ?tid ?r ?c) ?k ?s3] =>
           pose proof (@post_message_and_run unit fuel assistant_id tid r c
                         (fun _ => bind (set_previous_question selected_question)
                                        (fun _ => st_rerun))
                         s3) as Hrun
       end.
  all: unfold post in Hrun.
  all: destruct Hrun as ((rest & Htrace) & typing & appended & Hst & Hall);
    [intros a s1; split; reflexivity|].
  all: cbn [state trace] in Htrace, Hst.
  all: split; [|split].
  all: try (rewrite Htrace; destruct (state s); simpl; eauto; fail).
  all: try (rewrite Hst; destruct (state s); simpl; reflexivity).
  all: exists appended; split; [|exact Hall].
  all: rewrite Hst; destruct (state s); simpl; rewrite <- app_assoc; reflexivity.
Qed.

(** ** Further properties of the quota and the transcript *)

Lemma chat_interface_count_post fuel assistant_id user_input selected_question s :
  post (chat_interface openai fuel assistant_id user_input selected_question) s
       (fun _ s' => count_step (SS.question_count (state s)) s').
Proof.
  assert (Hsame : forall s', state s' = state s ->
                             count_step (SS.question_count (state s)) s').
  { intros s' Hst. left. rewrite Hst. reflexivity. }
  assert (Hreset : forall s', state s' = reset_chat (state s) ->
                              count_step (SS.question_count (state s)) s').
  { intros s' Hst. right. right. rewrite Hst. destruct (state s); reflexivity. }
  assert (Hcounted : forall s',
             SS.question_count (state s') = SS.question_count (state s) + 1 ->
             count_step (SS.question_count (state s)) s').
  { intros s' Hst. right. left. exact Hst. }
  unfold chat_interface.
  apply post_bind.
  destruct user_input as [text|]; [destruct (truthy text)|].
  1: { apply post_bind, post_get_state.
       destruct (SS.question_count (state s) <? MAX_QUESTIONS_PER_SESSION).
       - apply post_bind, post_update_state.
         apply counted_submission.
         + unfold messages_append, create_message. keeps_count_steps.
         + repeat (apply no_return_bind_r; intros ?). apply no_return_rerun.
         + intros r s' Hst. apply Hcounted. rewrite Hst.
           cbn [state]. destruct (state s); reflexivity.
       - apply post_bind, post_emit. apply post_bind, post_update_state.
         apply post_rerun. apply Hreset. reflexivity. }
  all: apply post_ret.
  all: apply post_bind, post_get_state.
  all: destruct (SS.start_chat (state s) && negb (SS.assistant_is_typing (state s)));
    [|apply post_ret; apply Hsame; reflexivity].
  all: apply post_bind, post_get_previous_question; apply post_bind.
  all: destruct (previous_question s) as [previous|];
    [apply post_ret | apply post_set_previous_question].
  all: apply post_bind, post_get_previous_question.
  all: match goal with
       | |- context [if ?c then _ else _] => destruct c
       end; [|apply post_ret; apply Hsame; reflexivity].
  all: apply post_bind, post_get_state; cbn [state previous_question world trace].
  all: destruct (SS.question_count (state s) <? MAX_QUESTIONS_PER_SESSION);
    [|apply post_bind, post_emit; apply post_bind, post_update_state;
      apply post_rerun; apply Hreset; reflexivity].
  all: apply post_bind, post_update_state.
  all: destruct (dict_get predefined_questions selected_question) as [detailed_question|];
    [|apply post_raise; apply Hcounted; cbn [state]; destruct (state s); reflexivity].
  all: unfold post;
    match goal with
    | |- context [?m ?s1] =>
        match type of s1 with
        | Store W =>
            match m with
            | bind _ _ =>
                assert (Hkeeps : keeps_count m)
                  by (unfold messages_append, create_message; keeps_count_steps);
                specialize (Hkeeps s1);
                apply Hcounted; rewrite Hkeeps;
                cbn [state]; destruct (state s); reflexivity
            end
        end
    end.
Qed.

Lemma count_step_after {A B} (m : M W A) (k : A -> M W B) s n :
  keeps_count m ->
  SS.question_count (state s) = n ->
  (forall a s1, SS.question_count (state s1) = n ->
                post (k a) s1 (fun _ s' => count_step n s')) ->
  post (bind m k) s (fun _ s' => count_step n s').
Proof.
  intros Hm Hn Hk. unfold post. rewrite bind_unfold. specialize (Hm s).
  destruct (m s) as [[a|e| |] s1]; simpl in *; try (left; congruence).
  apply Hk. congruence.
Qed.

(** X15.  One run of the script counts one question at most: however it
    ends, [question_count] is what it was, or one more, or 0 (a reset). *)
Theorem main_counts_at_most_one fuel assistant_id ui s :
  SS.question_count (state (snd (main openai fuel assistant_id ui s)))
  = SS.question_count (state s)
  \/ SS.question_count (state (snd (main openai fuel assistant_id ui s)))
     = SS.question_count (state s) + 1
  \/ SS.question_count (state (snd (main openai fuel assistant_id ui s))) = 0.
Proof.
  change (post (main openai fuel assistant_id ui) s
               (fun _ s' => count_step (SS.question_count (state s)) s')).
  assert (Hreset : forall n st (s' : Store W), state s' = reset_chat st -> count_step n s').
  { intros n st s' Hst. right. right. rewrite Hst. destruct st; reflexivity. }
  unfold main.
  apply post_bind, post_get_state.
  destruct (SS.question_count (state s) >=? MAX_QUESTIONS_PER_SESSION).
  - apply post_bind, post_emit. destruct (start_new_session_button ui).
    + apply post_bind, post_update_state. apply post_rerun.
      apply (Hreset _ (state s)). reflexivity.
    + apply post_ret. left. reflexivity.
  - remember (SS.question_count (state s)) as n eqn:Hn. symmetry in Hn.
    apply count_step_after; [apply keeps_count_sidebar_form | assumption |].
    intros _ s1 H1.
    apply count_step_after; [|assumption|].
    { destruct (start_chat_button ui);
        [apply keeps_count_start_chat_clicked | apply keeps_count_ret]. }
    intros _ s2 H2.
    apply count_step_after; [apply keeps_count_get_state | assumption |].
    intros st s3 H3.
    apply count_step_after; [|assumption|].
    { destruct (SS.processing st); [|apply keeps_count_ret].
      apply keeps_count_bind; [apply keeps_count_start_chat | intros ?].
      keeps_count_steps. }
    intros _ s4 H4.
    apply post_bind. destruct (exit_chat_button ui).
    { apply post_bind, post_update_state. apply post_rerun.
      apply (Hreset _ (state s4)). reflexivity. }
    apply post_ret.
    apply post_bind, post_get_state.
    destruct (SS.start_chat (state s4)).
    + eapply post_conseq; [apply chat_interface_count_post|].
      intros r s' H. simpl in H. rewrite H4 in H. exact H.
    + apply post_ret. left. assumption.
Qed.

(** *** Every user entry is counted *)

Lemma maintains_bind {A B} I (m : M W A) (k : A -> M W B) :
  maintains I m -> (forall a, maintains I (k a)) -> maintains I (bind m k).
Proof.
  intros Hm Hk s Hs. rewrite bind_unfold. specialize (Hm s Hs).
  destruct (m s) as [[a|e| |] s1]; simpl in *; try assumption.
  apply Hk. assumption.
Qed.

Lemma maintains_ret {A} I (a : A) : maintains I (@ret W A a).
Proof. intros s Hs. exact Hs. Qed.

Lemma maintains_raise {A} I e : maintains I (@raise W A e).
Proof. intros s Hs. exact Hs. Qed.

Lemma maintains_rerun {A} I : maintains I (@st_rerun W A).
Proof. intros s Hs. exact Hs. Qed.

Lemma maintains_emit I ev : maintains I (@emit W ev).
Proof. intros s Hs. exact Hs. Qed.

Lemma maintains_get_state I : maintains I (@get_state W).
Proof. intros s Hs. exact Hs. Qed.

Lemma maintains_get_previous_question I : maintains I (@get_previous_question W).
Proof. intros s Hs. exact Hs. Qed.

Lemma maintains_set_previous_question I q : maintains I (@set_previous_question W q).
Proof. intros s Hs. exact Hs. Qed.

Lemma maintains_update_state (I : SessionState -> Prop) f :
  (forall st, I st -> I (f st)) -> maintains I (@update_state W f).
Proof. intros Hf s Hs. apply Hf, Hs. Qed.

(** Two assignments in a row are judged together. *)
Lemma maintains_two_updates {B} (I : SessionState -> Prop) f g (k : M W B) :
  (forall st, I st -> I (g (f st))) ->
  maintains I k ->
  maintains I (bind (update_state f) (fun _ => bind (update_state g) (fun _ => k))).
Proof.
  intros Hfg Hk s Hs.
  erewrite bind_val by reflexivity. erewrite bind_val by reflexivity.
  apply Hk. cbn [state]. apply Hfg, Hs.
Qed.

Lemma maintains_safe_api_call {A} I op (func : RemoteCall W A) :
  maintains I (safe_api_call op func).
Proof.
  intros s Hs. destruct (safe_api_call_post op func s) as (Hst & _). rewrite Hst.
  exact Hs.
Qed.

Lemma user_entries_app l1 l2 : user_entries (l1 ++ l2) = user_entries l1 + user_entries l2.
Proof. unfold user_entries. rewrite filter_app, length_app. lia. Qed.

Lemma user_entries_assistant l :
  Forall (fun e => role e = "assistant") l -> user_entries l = 0.
Proof.
  unfold user_entries. induction 1 as [|e l He _ IH]; [reflexivity|].
  simpl. rewrite He. simpl. exact IH.
Qed.

Lemma transcript_counted_run fuel assistant_id :
  maintains transcript_counted (run_assistant openai fuel assistant_id).
Proof.
  intros s (H0 & Hcount & Hroles).
  destruct (run_assistant_post fuel assistant_id s)
    as (_ & typing & appended & Hst & Hall & _).
  rewrite Hst. unfold transcript_counted in *.
  destruct (state s); simpl in *.
  split; [assumption|]. split.
  - rewrite user_entries_app, (user_entries_assistant appended Hall). lia.
  - apply Forall_app. split; [assumption|].
    eapply Forall_impl; [|exact Hall]. intros e He. right. exact He.
Qed.

Lemma transcript_counted_reset st : transcript_counted (reset_chat st).
Proof.
  destruct st. unfold transcript_counted, user_entries. simpl.
  split; [lia|]. split; [lia | constructor].
Qed.

Lemma transcript_counted_question st text :
  transcript_counted st ->
  transcript_counted
    (SS.set_messages (SS.messages (SS.set_question_count (SS.question_count st + 1) st)
                      ++ [mkEntry "user" text])
       (SS.set_question_count (SS.question_count st + 1) st)).
Proof.
  intros (H0 & Hcount & Hroles). destruct st; simpl in *.
  unfold transcript_counted. simpl.
  split; [lia|]. split.
  - rewrite user_entries_app. change (user_entries [mkEntry "user" text]) with 1. lia.
  - apply Forall_app. split; [assumption|]. constructor; [left; reflexivity | constructor].
Qed.

(** The steps of a computation that keeps the transcript counted. *)
Ltac transcript_steps :=
  repeat first
    [ apply maintains_ret
    | apply maintains_raise
    | apply maintains_rerun
    | apply maintains_emit
    | apply maintains_get_state
    | apply maintains_get_previous_question
    | apply maintains_set_previous_question
    | apply maintains_safe_api_call
    | apply transcript_counted_run
    | apply maintains_update_state; intros [] ?H; exact H
    | apply maintains_update_state; intros ? _; apply transcript_counted_reset
    | apply maintains_two_updates; [intros ? ?; apply transcript_counted_question; assumption|]
    | apply maintains_bind; [|intros ?]
    | match goal with
      | |- maintains _ (if ?c then _ else _) => destruct c
      | |- maintains _ (match ?x with _ => _ end) => destruct x
      | |- maintains _ (let (_, _) := ?x in _) => destruct x
      end ].

Lemma transcript_counted_chat_interface fuel assistant_id user_input selected_question :
  maintains transcript_counted
            (chat_interface openai fuel assistant_id user_input selected_question).
Proof.
  unfold chat_interface, messages_append, create_message, st_error.
  destruct (dict_get predefined_questions selected_question) as [detailed_question|].
  - transcript_steps.
  - transcript_steps.
    all: apply maintains_update_state; intros [] (H0 & Hcount & Hroles);
      unfold transcript_counted in *; simpl in *;
      (split; [lia|]); (split; [lia | assumption]).
Qed.

Lemma transcript_counted_start_chat fuel assistant_id :
  maintains transcript_counted (start_chat openai fuel assistant_id).
Proof.
  unfold start_chat, send_initial_messages, create_thread, create_message, attr.
  transcript_steps.
  apply maintains_update_state. intros [] (H0 & _ & _).
  unfold transcript_counted, user_entries in *. simpl in *.
  split; [assumption|]. split; [assumption | constructor].
Qed.

Lemma transcript_counted_main fuel assistant_id ui :
  maintains transcript_counted (main openai fuel assistant_id ui).
Proof.
  unfold main, sidebar_form, start_chat_clicked, extract_pdf_content, st_error, time_sleep.
  apply maintains_bind; [apply maintains_get_state|]. intros st.
  destruct (SS.question_count st >=? MAX_QUESTIONS_PER_SESSION); [transcript_steps|].
  apply maintains_bind; [transcript_steps|]. intros _.
  apply maintains_bind; [transcript_steps|]. intros _.
  apply maintains_bind; [apply maintains_get_state|]. intros st'.
  apply maintains_bind.
  { destruct (SS.processing st'); [|apply maintains_ret].
    apply maintains_bind; [apply transcript_counted_start_chat|]. intros _.
    transcript_steps. }
  intros _. apply maintains_bind; [transcript_steps|]. intros _.
  apply maintains_bind; [apply maintains_get_state|]. intros st''.
  destruct (SS.start_chat st'');
    [apply transcript_counted_chat_interface | apply maintains_ret].
Qed.

(** X16.  From the initial session object, over any number of runs of the
    script, whatever the user does and the remote service answers: every
    user entry of the transcript was counted as a question (the transcript
    never holds more user entries than [question_count], so at most
    [MAX_QUESTIONS_PER_SESSION]), and the transcript holds no entry of a
    role other than user and assistant. *)
Theorem user_entries_are_counted assistant_id runs w :
  user_entries
    (SS.messages (state (after_runs openai assistant_id runs (mkStore SS.init None w []))))
  <= SS.question_count
       (state (after_runs openai assistant_id runs (mkStore SS.init None w [])))
  /\ user_entries
       (SS.messages (state (after_runs openai assistant_id runs (mkStore SS.init None w []))))
     <= MAX_QUESTIONS_PER_SESSION
  /\ Forall (fun e => role e = "user" \/ role e = "assistant")
            (SS.messages
               (state (after_runs openai assistant_id runs (mkStore SS.init None w [])))).
Proof.
  assert (Hinv : forall s, transcript_counted (state s) ->
                           transcript_counted (state (after_runs openai assistant_id runs s))).
  { induction runs as [|[fuel ui] rest IH]; intros s Hs; simpl; [exact Hs|].
    apply IH. apply transcript_counted_main. exact Hs. }
  destruct (Hinv (mkStore SS.init None w [])) as (_ & Hcount & Hroles).
  { unfold transcript_counted, user_entries. simpl.
    split; [lia|]. split; [lia | constructor]. }
  pose proof (new_session_stays_within_quota assistant_id runs w) as [_ Hmax].
  split; [exact Hcount|]. split; [lia | exact Hroles].
Qed.

(** ** Where every assistant entry comes from *)

Lemma justified_run_assistant fuel assistant_id :
  maintains (justified_session openai) (run_assistant openai fuel assistant_id).
Proof.
  intros s Hs.
  pose proof (run_assistant_provenance fuel assistant_id s) as H. unfold post in H.
  destruct H as (typing & appended & events & Hs' & _ & Hfrom).
  rewrite Hs' at 1. unfold justified_session in *. cbn [state].
  assert (Hmessages : SS.messages
                        (SS.set_assistant_is_typing typing
                           (SS.set_messages (SS.messages (state s) ++ appended) (state s)))
                      = (SS.messages (state s) ++ appended)%list)
    by (destruct (state s); reflexivity).
  rewrite Hmessages.
  destruct appended as [|entry appended]; [rewrite app_nil_r; exact Hs|].
  eapply justified_run; [exact Hs|]. apply Hfrom. right. discriminate.
Qed.

(** The steps of a computation that keeps the transcript accounted for. *)
Ltac justified_steps :=
  repeat first
    [ apply maintains_ret
    | apply maintains_raise
    | apply maintains_rerun
    | apply maintains_emit
    | apply maintains_get_state
    | apply maintains_get_previous_question
    | apply maintains_set_previous_question
    | apply maintains_safe_api_call
    | apply justified_run_assistant
    | apply maintains_update_state; intros [] ?H; exact H
    | apply maintains_update_state; intros [] _; apply justified_nil
    | apply maintains_update_state; intros [] ?H; apply justified_user; exact H
    | apply maintains_bind; [|intros ?]
    | match goal with
      | |- maintains _ (if ?c then _ else _) => destruct c
      | |- maintains _ (match ?x with _ => _ end) => destruct x
      | |- maintains _ (let (_, _) := ?x in _) => destruct x
      end ].

Lemma justified_chat_interface fuel assistant_id user_input selected_question :
  maintains (justified_session openai)
            (chat_interface openai fuel assistant_id user_input selected_question).
Proof.
  unfold chat_interface, messages_append, create_message, st_error.
  destruct (dict_get predefined_questions selected_question) as [detailed_question|];
    justified_steps.
Qed.

Lemma justified_start_chat fuel assistant_id :
  maintains (justified_session openai) (start_chat openai fuel assistant_id).
Proof.
  unfold start_chat, send_initial_messages, create_thread, create_message, attr.
  justified_steps.
Qed.

Lemma justified_main fuel assistant_id ui :
  maintains (justified_session openai) (main openai fuel assistant_id ui).
Proof.
  unfold main, sidebar_form, start_chat_clicked, extract_pdf_content, st_error, time_sleep.
  apply maintains_bind; [apply maintains_get_state|]. intros st.
  destruct (SS.question_count st >=? MAX_QUESTIONS_PER_SESSION); [justified_steps|].
  apply maintains_bind; [justified_steps|]. intros _.
  apply maintains_bind; [justified_steps|]. intros _.
  apply maintains_bind; [apply maintains_get_state|]. intros st'.
  apply maintains_bind.
  { destruct (SS.processing st'); [|apply maintains_ret].
    apply maintains_bind; [apply justified_start_chat|]. intros _.
    justified_steps. }
  intros _. apply maintains_bind; [justified_steps|]. intros _.
  apply maintains_bind; [apply maintains_get_state|]. intros st''.
  destruct (SS.start_chat st'');
    [apply justified_chat_interface | apply maintains_ret].
Qed.

Lemma justified_after_runs assistant_id runs : forall s,
  justified_session openai (state s) ->
  justified_session openai (state (after_runs openai assistant_id runs s)).
Proof.
  induction runs as [|[fuel ui] rest IH]; intros s Hs; simpl; [exact Hs|].
  apply IH. apply justified_main. exact Hs.
Qed.

(** C7, as the code has it.  However a call of [run_assistant] ends, the
    entries it has appended are those of a run that the service reported as
    [completed]: one for each of the first messages, in the order of the
    listing, that carry the id of that run and the role [assistant], and
    for all of them when the call returns.  A submission from the chat page
    that goes through (it starts below the quota and ends in [st.rerun()])
    appends exactly one user-role entry and, after it, the entries of its
    run.  A seed submission is a submission that appends no user-role
    entry: a seeding that goes through posts its two prompts and appends
    the entries of their two runs, all of role [assistant].  And from the
    initial session object, over any number of runs of the script, the
    transcript is made of user entries and of such blocks of a completed
    run only. *)
Theorem transcript_entries_by_submission fuel assistant_id :
  (forall s,
     post (run_assistant openai fuel assistant_id) s (fun r s' =>
       exists typing appended events,
         s' = mkStore (SS.set_assistant_is_typing typing
                         (SS.set_messages (SS.messages (state s) ++ appended) (state s)))
                      (previous_question s) (world s') (trace s ++ events)
         /\ Forall (fun e => role e = "assistant") appended
         /\ (r = Val tt \/ appended <> [] ->
             from_completed_run openai (SS.thread_id (state s)) assistant_id (world s)
                                (r = Val tt) appended events (world s'))))
  /\ (forall user_input selected_question s s',
        SS.question_count (state s) < MAX_QUESTIONS_PER_SESSION ->
        chat_interface openai fuel assistant_id user_input selected_question s
        = (Rerun, s') ->
        submitted openai assistant_id s user_input selected_question s')
  /\ (forall s s',
        send_initial_messages openai fuel assistant_id s = (Val tt, s') ->
        seeded openai assistant_id s s'
        /\ exists appended,
             SS.messages (state s') = (SS.messages (state s) ++ appended)%list
             /\ Forall (fun e => role e = "assistant") appended)
  /\ (forall runs w,
        justified openai
          (SS.messages
             (state (after_runs openai assistant_id runs (mkStore SS.init None w []))))).
Proof.
  split; [|split; [|split]].
  - intros s. eapply post_conseq; [apply run_assistant_provenance|].
    intros r s' (typing & appended & events & Hs' & _ & Hfrom).
    exists typing, appended, events. split; [exact Hs'|]. split; [|exact Hfrom].
    destruct appended as [|entry appended]; [constructor|].
    eapply from_completed_run_assistant. apply Hfrom. right. discriminate.
  - intros user_input selected_question s s' Hquota Hrun.
    pose proof (chat_interface_post fuel assistant_id user_input selected_question s) as H.
    unfold post in H. rewrite Hrun in H. exact (H Hquota eq_refl).
  - intros s s' Hrun.
    pose proof (send_initial_messages_seeds fuel assistant_id s) as H.
    unfold post in H. rewrite Hrun in H. specialize (H eq_refl).
    split; [exact H|].
    destruct H as (w1 & appended1 & events1 & w2 & w3 & appended2 & events2
                   & _ & Hfrom1 & _ & Hfrom2 & Hs').
    exists (appended1 ++ appended2)%list. split.
    + rewrite Hs' at 1. cbn [state]. destruct (state s); reflexivity.
    + apply Forall_app. split; eapply from_completed_run_assistant; eassumption.
  - intros runs w.
    apply (justified_after_runs assistant_id runs (mkStore SS.init None w [])).
    apply justified_nil.
Qed.

(** ** Further properties of the script *)

(** X17.  [Exit Chat] wipes the session, what was entered in the sidebar in
    that very run included: in a run below the quota, not processing, with
    [Start Chat] not clicked and the resume pasted, clicking [Exit Chat]
    ends in [st.rerun()] with every field at its initial value except the
    two input methods, which hold what the radio buttons say; nothing is
    sent or shown. *)
Theorem main_exit_chat_resets fuel assistant_id ui s :
  SS.question_count (state s) < MAX_QUESTIONS_PER_SESSION ->
  SS.processing (state s) = false ->
  start_chat_button ui = false ->
  exit_chat_button ui = true ->
  resume_input_radio ui <> "Upload Context" ->
  main openai fuel assistant_id ui s
  = (Rerun,
     mkStore (SS.mk false None false "" "" "" [] false (job_input_radio ui) ""
                    (resume_input_radio ui) false 0)
             (previous_question s) (world s) (trace s)).
Proof.
  intros Hquota Hprocessing Hstart Hexit Hpaste.
  apply String.eqb_neq in Hpaste.
  assert (Hgate : (SS.question_count (state s) >=? MAX_QUESTIONS_PER_SESSION) = false).
  { rewrite Z.geb_leb. apply Z.leb_gt. exact Hquota. }
  destruct s as [st pq w tr].
  destruct st as [sc tid bs rt jd jt msgs pr jim ju rim typ qc].
  cbn [state world SS.question_count SS.processing previous_question trace] in *.
  subst pr.
  unfold main. erewrite bind_val by reflexivity.
  cbn [state SS.question_count]. rewrite Hgate.
  assert (Hform : exists jd' ju',
    sidebar_form ui (mkStore (SS.mk sc tid bs rt jd jt msgs false jim ju rim typ qc) pq w tr)
    = (Val tt,
       mkStore (SS.mk sc tid bs (resume_text_area ui) jd' (job_type_selectbox ui) msgs
                      false (job_input_radio ui) ju' (resume_input_radio ui) typ qc)
               pq w tr)).
  { unfold sidebar_form.
    do 3 (erewrite bind_val by reflexivity).
    cbn [state SS.resume_input_method SS.set_resume_input_method SS.set_job_type].
    rewrite Hpaste.
    do 3 (erewrite bind_val by reflexivity).
    cbn [state update_state].
    destruct (String.eqb (job_input_radio ui) "Enter Job Description") eqn:E;
      cbn; rewrite ?E; do 2 eexists; reflexivity. }
  destruct Hform as (jd' & ju' & Hform).
  erewrite bind_val by exact Hform.
  rewrite Hstart.
  erewrite bind_val by reflexivity.
  erewrite bind_val by reflexivity.
  cbn [state SS.processing].
  erewrite bind_val by reflexivity.
  rewrite Hexit.
  erewrite bind_rerun; reflexivity.
Qed.

(** X18.  The message [Please enter a valid Job URL.] cannot be reached
    from the form: when the job input method is one of the two the radio
    button offers, [Start Chat] never shows it (an empty URL is reported as
    a missing required field instead). *)
Theorem start_chat_clicked_never_asks_for_valid_url ui s :
  SS.job_input_method (state s) = "Enter Job URL"
  \/ SS.job_input_method (state s) = "Enter Job Description" ->
  exists events,
    trace (snd (start_chat_clicked ui s)) = (trace s ++ events)%list
    /\ ~ In (EvError "Please enter a valid Job URL.") events.
Proof.
  intros Hmethod.
  destruct s as [st pq w tr].
  destruct st as [sc tid bs rt jd jt msgs pr jim ju rim typ qc].
  cbn [state SS.job_input_method] in Hmethod.
  unfold start_chat_clicked, validate_job_description, st_error, time_sleep.
  erewrite bind_val by reflexivity.
  cbn [state SS.job_type SS.job_input_method SS.job_description_text SS.job_url].
  destruct Hmethod as [-> | ->].
  all: change (String.eqb "Enter Job URL" "Enter Job Description") with false.
  all: change (String.eqb "Enter Job URL" "Enter Job URL") with true.
  all: change (String.eqb "Enter Job Description" "Enter Job Description") with true.
  all: change (String.eqb "Enter Job Description" "Enter Job URL") with false.
  all: destruct (truthy jt); destruct (truthy jd); destruct (truthy ju).
  all: cbn [negb andb orb].
  all: try destruct (len jd >? MAX_JOB_DESCRIPTION_LENGTH).
  all: try destruct (fetch_content ui) as [html|]; try destruct (truthy html).
  all: cbn.
  all: first [ exists []; split; [rewrite app_nil_r; reflexivity|]
             | eexists; split; [reflexivity|]
             | eexists; split; [rewrite <- app_assoc; reflexivity|] ].
  all: cbn; intuition discriminate.
Qed.

Lemma truthy_true text : truthy text = true <-> text <> "".
Proof.
  unfold truthy. rewrite negb_true_iff. apply String.eqb_neq.
Qed.

(** X19.  [Start Chat] sets [processing] only after its checks passed: when
    a click turns [processing] from false to true, the run ends in
    [st.rerun()], the job type is not empty, and either the job description
    was pasted, is not empty and has at most [MAX_JOB_DESCRIPTION_LENGTH]
    characters, or a job URL was given, the page fetched is not empty, and
    the job description is now the cleaned text of that page (on which no
    length check is made). *)
Theorem start_chat_clicked_sets_processing_when_valid ui s :
  SS.processing (state s) = false ->
  SS.processing (state (snd (start_chat_clicked ui s))) = true ->
  fst (start_chat_clicked ui s) = Rerun
  /\ SS.job_type (state s) <> ""
  /\ ((SS.job_input_method (state s) = "Enter Job Description"
       /\ SS.job_description_text (state s) <> ""
       /\ len (SS.job_description_text (state s)) <= MAX_JOB_DESCRIPTION_LENGTH
       /\ state (snd (start_chat_clicked ui s)) = SS.set_processing true (state s))
      \/ (SS.job_input_method (state s) <> "Enter Job Description"
          /\ SS.job_url (state s) <> ""
          /\ exists html,
               fetch_content ui = Some html /\ html <> ""
               /\ state (snd (start_chat_clicked ui s))
                  = SS.set_processing true
                      (SS.set_job_description_text (extract_and_clean_text ui) (state s)))).
Proof.
  destruct s as [st pq w tr].
  destruct st as [sc tid bs rt jd jt msgs pr jim ju rim typ qc].
  cbn [state SS.processing SS.job_type SS.job_input_method SS.job_description_text
       SS.job_url].
  intros ->.
  unfold start_chat_clicked, validate_job_description, st_error, time_sleep.
  erewrite bind_val by reflexivity.
  cbn [state SS.job_type SS.job_input_method SS.job_description_text SS.job_url].
  destruct (truthy jt) eqn:Hjt.
  2: { cbn. discriminate. }
  apply truthy_true in Hjt.
  destruct (String.eqb jim "Enter Job Description") eqn:Hjim.
  - apply String.eqb_eq in Hjim.
    destruct (truthy jd) eqn:Hjd; [|cbn; discriminate].
    apply truthy_true in Hjd.
    cbn [negb andb orb].
    destruct (String.eqb jim "Enter Job URL" && negb (truthy ju)); [cbn; discriminate|].
    destruct (len jd >? MAX_JOB_DESCRIPTION_LENGTH) eqn:Hlen; [cbn; discriminate|].
    cbn. intros _. split; [reflexivity|]. split; [assumption|]. left.
    repeat split; try assumption. rewrite Z.gtb_ltb in Hlen. apply Z.ltb_ge in Hlen. exact Hlen.
  - apply String.eqb_neq in Hjim.
    cbn [negb andb orb].
    destruct (String.eqb jim "Enter Job URL" && negb (truthy ju)); [cbn; discriminate|].
    destruct (truthy ju) eqn:Hju; [|cbn; discriminate].
    apply truthy_true in Hju.
    destruct (fetch_content ui) as [html|] eqn:Hfetch; [|cbn; discriminate].
    destruct (truthy html) eqn:Hhtml; [|cbn; discriminate].
    apply truthy_true in Hhtml.
    cbn. intros _. split; [reflexivity|]. split; [assumption|]. right.
    split; [assumption|]. split; [assumption|]. exists html. auto.
Qed.

(** X20.  An upload that fails validation changes no resume: in upload mode,
    a file above [MAX_RESUME_SIZE] or of a type other than
    [application/pdf] leaves [resume_text] as it was and shows one error,
    the one about the size when the file is too large (the size is checked
    first); the form goes on. *)
Theorem sidebar_form_rejects_bad_upload ui s f :
  resume_input_radio ui = "Upload Context" ->
  resume_file_uploader ui = Some f ->
  UploadedFile_size f > MAX_RESUME_SIZE \/ UploadedFile_type f <> "application/pdf" ->
  fst (sidebar_form ui s) = Val tt
  /\ SS.resume_text (state (snd (sidebar_form ui s))) = SS.resume_text (state s)
  /\ exists msg,
       trace (snd (sidebar_form ui s)) = (trace s ++ [EvError msg])%list
       /\ (UploadedFile_size f > MAX_RESUME_SIZE -> msg = "File size exceeds 5 MB limit")
       /\ (UploadedFile_size f <= MAX_RESUME_SIZE -> msg = "Only PDF files are accepted").
Proof.
  intros Hmode Hfile Hbad.
  destruct s as [st pq w tr].
  destruct st as [sc tid bs rt jd jt msgs pr jim ju rim typ qc].
  unfold sidebar_form, validate_resume, st_error.
  do 3 (erewrite bind_val by reflexivity).
  cbn [state SS.resume_input_method SS.set_resume_input_method SS.set_job_type].
  rewrite Hmode, Hfile.
  change (String.eqb "Upload Context" "Upload Context") with true. cbv iota.
  destruct (UploadedFile_size f >? MAX_RESUME_SIZE) eqn:Hsize.
  - erewrite bind_val by reflexivity.
    erewrite bind_val by reflexivity.
    erewrite bind_val by reflexivity.
    cbn [state emit update_state SS.job_input_method SS.set_job_input_method].
    rewrite Z.gtb_ltb in Hsize. apply Z.ltb_lt in Hsize.
    destruct (String.eqb (job_input_radio ui) "Enter Job Description") eqn:E;
      cbn; rewrite ?E; cbn;
      (split; [reflexivity|]); (split; [reflexivity|]);
      eexists; (split; [reflexivity|]); (split; [reflexivity | intros; exfalso; unfold MAX_RESUME_SIZE in *; lia]).
  - rewrite Z.gtb_ltb in Hsize. apply Z.ltb_ge in Hsize.
    destruct Hbad as [Hbad | Hbad]; [lia|].
    apply String.eqb_neq in Hbad. rewrite Hbad. cbn [negb].
    erewrite bind_val by reflexivity.
    erewrite bind_val by reflexivity.
    erewrite bind_val by reflexivity.
    cbn [state emit update_state SS.job_input_method SS.set_job_input_method].
    destruct (String.eqb (job_input_radio ui) "Enter Job Description") eqn:E;
      cbn; rewrite ?E; cbn;
      (split; [reflexivity|]); (split; [reflexivity|]);
      eexists; (split; [reflexivity|]); (split; [intros; exfalso; unfold MAX_RESUME_SIZE in *; lia | reflexivity]).
Qed.

End Facts.

(** C9 as stated fails: when the status request meets the transient error,
    [run_assistant] ends in an exception and the typing flag is still
    true. *)
Lemma typing_flag_left_set_on_error :
  fst (run_assistant scripted 10 "asst" (store_of (chatting 0) status_outage))
  = Exc AttributeError
  /\ SS.assistant_is_typing
       (state (snd (run_assistant scripted 10 "asst" (store_of (chatting 0) status_outage))))
     = true.
Proof. split; vm_compute; reflexivity. Qed.


(** C2 as stated fails: after a start whose thread creation failed, the
    session that was inactive is marked as started. *)
Lemma failed_start_leaves_session_started :
  SS.start_chat SS.init = false
  /\ fst (start_chat scripted 10 "asst" (store_of SS.init no_threads))
     = Exc AttributeError
  /\ SS.start_chat (state (snd (start_chat scripted 10 "asst" (store_of SS.init no_threads))))
     = true.
Proof. repeat split; vm_compute; reflexivity. Qed.

(** The theorem of C2 on the scripted service without threads. *)
Lemma start_chat_thread_creation_fails_witness :
  start_chat scripted 10 "asst" (store_of SS.init no_threads)
  = (Exc AttributeError,
     mkStore (SS.set_start_chat true SS.init)
             (Some "Select a predefined question")
             no_threads
             [EvCall ThreadsCreate]).
Proof.
  refine (proj1 (start_chat_thread_creation_fails Scripted scripted 10 "asst"
                   (store_of SS.init no_threads) _)).
  intros thread. discriminate.
Defined.

(** The scenario of C3: thread creation fails twice with the transient
    error and would succeed at the third attempt; the call ends at the first
    failure, after one invocation. *)
Lemma safe_api_call_gives_up_at_first_error_witness :
  safe_api_call ThreadsCreate (threads_create scripted) (store_of SS.init flaky_threads)
  = (Exc AttributeError,
     mkStore SS.init None
             (world_after (threads_create scripted) 1 flaky_threads)
             [EvCall ThreadsCreate])
  /\ response (threads_create scripted) 2 flaky_threads = Returns (mkThread "T1").
Proof.
  split; [|reflexivity].
  apply (safe_api_call_gives_up_at_first_error Scripted ThreadsCreate
           (threads_create scripted) (store_of SS.init flaky_threads) "timeout").
  reflexivity.
Defined.

(** C6 as stated fails: a start from a session in which five questions were
    asked goes through and the count is still five. *)
Lemma start_keeps_earlier_count :
  fst (start_chat scripted 10 "asst" (store_of prior_session four_polls)) = Val tt
  /\ SS.question_count
       (state (snd (start_chat scripted 10 "asst" (store_of prior_session four_polls))))
     = 5
  /\ SS.messages
       (state (snd (start_chat scripted 10 "asst" (store_of prior_session four_polls))))
     = [mkEntry "assistant" "hello"; mkEntry "assistant" "how can I help?";
        mkEntry "assistant" "hello"; mkEntry "assistant" "how can I help?"].
Proof. repeat split; vm_compute; reflexivity. Qed.

(** The theorem of C6 on the session with five questions asked. *)
Lemma start_chat_keeps_question_count_witness :
  SS.question_count
    (state (snd (start_chat scripted 10 "asst" (store_of prior_session four_polls))))
  = SS.question_count prior_session
  /\ exists appended1 appended2,
       SS.messages
         (state (snd (start_chat scripted 10 "asst" (store_of prior_session four_polls))))
       = (appended1 ++ appended2)%list
       /\ Forall (fun e => role e = "assistant") (appended1 ++ appended2).
Proof.
  destruct (start_chat_keeps_question_count Scripted scripted 10 "asst"
              (store_of prior_session four_polls)
              (snd (start_chat scripted 10 "asst" (store_of prior_session four_polls))))
    as (Hcount & thread & w1 & w2 & appended1 & events1 & w3 & w4 & appended2 & events2
        & _ & _ & _ & _ & _ & Hall & Hs').
  - vm_compute. reflexivity.
  - split; [exact Hcount|]. exists appended1, appended2. split; [|exact Hall].
    exact (f_equal (fun x => SS.messages (state x)) Hs').
Defined.

(** C7 as stated fails: the two seed submissions go through and append the
    entries of their runs, and no user-role entry. *)
Lemma seed_submissions_append_no_user_entry :
  fst (send_initial_messages scripted 10 "asst" (store_of (chatting 0) four_polls))
  = Val tt
  /\ In (EvCall (MessagesCreate (Some "T1") "user" second_prompt))
        (trace (snd (send_initial_messages scripted 10 "asst"
                       (store_of (chatting 0) four_polls))))
  /\ SS.messages
       (state (snd (send_initial_messages scripted 10 "asst"
                      (store_of (chatting 0) four_polls))))
     = [mkEntry "assistant" "hello"; mkEntry "assistant" "how can I help?";
        mkEntry "assistant" "hello"; mkEntry "assistant" "how can I help?"].
Proof.
  split; [vm_compute; reflexivity|]. split; [|vm_compute; reflexivity].
  vm_compute. do 11 right. left. reflexivity.
Qed.

(** The theorem of C7 on a question from the chat box: the transcript gets
    the question and the two messages of run [R1]; the earlier reply of run
    [R0] and the user message in the listing are left out. *)
Lemma transcript_entries_by_submission_witness :
  SS.question_count (chatting 0) < MAX_QUESTIONS_PER_SESSION
  /\ submitted scripted "asst" (store_of (chatting 0) four_polls) (Some "hi")
       "Select a predefined question"
       (snd (chat_interface scripted 10 "asst" (Some "hi") "Select a predefined question"
               (store_of (chatting 0) four_polls))).
Proof.
  split; [reflexivity|].
  apply (proj1 (proj2 (transcript_entries_by_submission Scripted scripted 10 "asst"))
           (Some "hi") "Select a predefined question" (store_of (chatting 0) four_polls)).
  - reflexivity.
  - vm_compute. reflexivity.
Defined.

(** The theorem of C8 on the scripted service. *)
Lemma run_assistant_four_polls_witness :
  run_assistant scripted 4 "asst" (store_of (chatting 1) four_polls)
  = (Val tt,
     mkStore (SS.set_messages [mkEntry "assistant" "hello";
                               mkEntry "assistant" "how can I help?"] (chatting 1))
             None
             (world_after (runs_retrieve scripted (Some "T1") "R1") 4 four_polls)
             [EvCall (RunsCreate (Some "T1") "asst");
              EvSleep 1; EvCall (RunsRetrieve (Some "T1") "R1");
              EvSleep 1; EvCall (RunsRetrieve (Some "T1") "R1");
              EvSleep 1; EvCall (RunsRetrieve (Some "T1") "R1");
              EvSleep 1; EvCall (RunsRetrieve (Some "T1") "R1");
              EvCall (MessagesList (Some "T1"))]).
Proof.
  refine (proj1 (run_assistant_four_polls Scripted scripted 4 "asst"
                   (store_of (chatting 1) four_polls) "R1" "queued"
                   _ _ _ _ _ _ thread_listing
                   [mkEntry "assistant" "hello"; mkEntry "assistant" "how can I help?"]
                   _ _ _ _ _ _ _ _ _)).
  - lia.
  - discriminate.
  - reflexivity.
  - reflexivity.
  - reflexivity.
  - reflexivity.
  - reflexivity.
  - reflexivity.
  - repeat constructor; eexists; reflexivity.
Defined.

(** The theorem of C4 at the ceiling: a question from the chat box is
    refused and the session reset; the script stops at the limit message. *)
Lemma question_count_within_quota_witness :
  within_quota (chatting 500)
  /\ chat_interface scripted 10 "asst" (Some "one more") "Select a predefined question"
       (store_of (chatting 500) four_polls)
     = (Rerun, mkStore (reset_chat (chatting 500)) None four_polls [EvError limit_message])
  /\ main scripted 10 "asst" idle (store_of (chatting 500) four_polls)
     = (Val tt, mkStore (chatting 500) None four_polls [EvError session_limit_message]).
Proof.
  assert (Hq : within_quota (chatting 500)) by (split; discriminate).
  split; [exact Hq|].
  destruct (question_count_within_quota Scripted scripted 10 "asst" idle (Some "one more")
              "Select a predefined question" (store_of (chatting 500) four_polls) Hq)
    as (_ & _ & _ & _ & Hlimit).
  destruct (Hlimit eq_refl) as (Hdenied & _ & Hmain).
  split; [exact (Hdenied "one more" eq_refl) | exact Hmain].
Defined.

(** When the status the run is created with is counted as the first of the
    sequence queued, in_progress, in_progress, completed, the status requests
    are three. *)
Lemma three_status_requests_after_creation :
  fst (run_assistant scripted 10 "asst" (store_of (chatting 1) three_polls)) = Val tt
  /\ List.length (filter is_retrieve
               (trace (snd (run_assistant scripted 10 "asst"
                              (store_of (chatting 1) three_polls)))))
     = 3%nat.
Proof. split; vm_compute; reflexivity. Qed.

(** ** Cleaning the text of a page *)
Module ScrapingFacts.

Import Scraping.

Local Open Scope list_scope.
Local Open Scope N_scope.

(** *** Character classes *)

Lemma is_line_boundary_space c : is_line_boundary c = true -> is_space c = true.
Proof.
  unfold is_line_boundary. intros H.
  repeat (apply orb_prop in H; destruct H as [H | H]);
    apply N.eqb_eq in H; subst c; reflexivity.
Qed.

(** *** Runs *)

Lemma sub_runs_visible in_class repl :
  (forall c, in_class c = true -> is_space c = true) ->
  is_space repl = true ->
  forall text inside, visible (sub_runs in_class repl inside text) = visible text.
Proof.
  intros Hclass Hrepl. induction text as [|c rest IH]; intros inside; [reflexivity|].
  simpl. destruct (in_class c) eqn:Hc.
  - rewrite (Hclass c Hc). simpl.
    destruct inside; simpl; rewrite ?Hrepl; simpl; apply IH.
  - simpl. rewrite IH. reflexivity.
Qed.

Lemma sub_runs_runs_free in_class repl :
  in_class repl = true ->
  forall text inside,
    runs_free in_class inside (sub_runs in_class repl inside text) = true.
Proof.
  intros Hrepl. induction text as [|c rest IH]; intros inside; [reflexivity|].
  simpl. destruct (in_class c) eqn:Hc.
  - destruct inside; [apply IH|]. simpl. rewrite Hrepl. simpl. apply IH.
  - simpl. rewrite Hc. apply IH.
Qed.

Lemma sub_runs_class in_class repl :
  forall text inside,
    Forall (fun c => in_class c = true -> c = repl) (sub_runs in_class repl inside text).
Proof.
  induction text as [|c rest IH]; intros inside; [constructor|].
  simpl. destruct (in_class c) eqn:Hc.
  - destruct inside; [apply IH|]. constructor; [reflexivity | apply IH].
  - constructor; [congruence | apply IH].
Qed.

Lemma sub_runs_keeps (P : N -> Prop) in_class repl :
  P repl ->
  forall text inside, Forall P text -> Forall P (sub_runs in_class repl inside text).
Proof.
  intros Hrepl. induction text as [|c rest IH]; intros inside Hall; [constructor|].
  inversion Hall as [|? ? Hc Hrest]; subst. simpl.
  destruct (in_class c); [destruct inside|]; auto.
Qed.

Lemma sub_runs_id in_class repl :
  forall text prev,
    runs_free in_class prev text = true ->
    Forall (fun c => in_class c = true -> c = repl) text ->
    sub_runs in_class repl prev text = text.
Proof.
  induction text as [|c rest IH]; intros prev Hfree Hall; [reflexivity|].
  inversion Hall as [|? ? Hc Hrest]; subst. simpl in *.
  destruct (in_class c) eqn:Hcls.
  - apply andb_prop in Hfree. destruct Hfree as [Hprev Hfree].
    destruct prev; [discriminate|].
    rewrite IH by auto. rewrite (Hc eq_refl). reflexivity.
  - rewrite IH; auto.
Qed.

Lemma runs_free_weaken in_class text :
  runs_free in_class true text = true -> runs_free in_class false text = true.
Proof.
  destruct text as [|c rest]; [reflexivity|]. simpl.
  destruct (in_class c); [discriminate | auto].
Qed.

Lemma runs_free_any in_class prev text :
  runs_free in_class prev text = true -> runs_free in_class false text = true.
Proof. destruct prev; [apply runs_free_weaken | auto]. Qed.

Lemma runs_free_suffix in_class a : forall prev b,
  runs_free in_class prev (a ++ b) = true -> runs_free in_class false b = true.
Proof.
  induction a as [|c a IH]; intros prev b H; simpl in *.
  - eapply runs_free_any; eassumption.
  - destruct (in_class c).
    + apply andb_prop in H. destruct H as [_ H]. eapply IH; eassumption.
    + eapply IH; eassumption.
Qed.

Lemma runs_free_prefix in_class a : forall prev b,
  runs_free in_class prev (a ++ b) = true -> runs_free in_class prev a = true.
Proof.
  induction a as [|c a IH]; intros prev b H; simpl in *; [reflexivity|].
  destruct (in_class c).
  - apply andb_prop in H. destruct H as [Hp H]. rewrite Hp. simpl. eapply IH; eassumption.
  - eapply IH; eassumption.
Qed.

Lemma runs_free_factor in_class prev a line b :
  runs_free in_class prev (a ++ line ++ b) = true ->
  runs_free in_class false line = true.
Proof.
  intros H. apply runs_free_suffix in H. eapply runs_free_prefix; eassumption.
Qed.

(** Across a character outside the class, the two sides are judged apart. *)
Lemma runs_free_app in_class a : forall prev c b,
  in_class c = false ->
  runs_free in_class prev (a ++ c :: b)
  = runs_free in_class prev a && runs_free in_class false b.
Proof.
  induction a as [|x a IH]; intros prev c b Hc; simpl.
  - rewrite Hc. reflexivity.
  - destruct (in_class x); rewrite IH by assumption; [apply andb_assoc | reflexivity].
Qed.

(** *** Stripping *)

Lemma lstrip_suffix text :
  exists a, text = a ++ lstrip text /\ Forall (fun c => is_space c = true) a.
Proof.
  induction text as [|c rest IH]; [exists []; split; [reflexivity | constructor]|].
  simpl. destruct (is_space c) eqn:Hc.
  - destruct IH as (a & Ha & Hall). exists (c :: a). split.
    + simpl. congruence.
    + constructor; assumption.
  - exists []. split; [reflexivity | constructor].
Qed.

Lemma lstrip_spaces a : forall text,
  Forall (fun c => is_space c = true) a -> lstrip (a ++ text) = lstrip text.
Proof.
  induction a as [|c a IH]; intros text Hall; [reflexivity|].
  inversion Hall as [|? ? Hc Ha]; subst. simpl. rewrite Hc. auto.
Qed.

Lemma lstrip_idem text : lstrip (lstrip text) = lstrip text.
Proof.
  induction text as [|c rest IH]; [reflexivity|].
  simpl. destruct (is_space c) eqn:Hc; [assumption|]. simpl. rewrite Hc. reflexivity.
Qed.

Lemma lstrip_snoc text c :
  is_space c = false -> lstrip (text ++ [c]) = lstrip text ++ [c].
Proof.
  intros Hc. induction text as [|x rest IH]; simpl.
  - rewrite Hc. reflexivity.
  - destruct (is_space x); [assumption | reflexivity].
Qed.

Lemma lstrip_nil_iff text :
  lstrip text = [] <-> Forall (fun c => is_space c = true) text.
Proof.
  induction text as [|c rest IH]; simpl.
  - split; [constructor | reflexivity].
  - destruct (is_space c) eqn:Hc.
    + rewrite IH. split; intros H; [constructor; assumption | inversion H; assumption].
    + split; [discriminate|]. intros H. inversion H; congruence.
Qed.

Lemma lstrip_visible text : visible (lstrip text) = visible text.
Proof.
  induction text as [|c rest IH]; [reflexivity|].
  simpl. destruct (is_space c) eqn:Hc; simpl; rewrite ?Hc; simpl; auto.
Qed.

Lemma visible_app a b : visible (a ++ b) = visible a ++ visible b.
Proof. apply filter_app. Qed.

Lemma visible_rev text : visible (rev text) = rev (visible text).
Proof.
  unfold visible. induction text as [|c rest IH]; [reflexivity|].
  simpl. rewrite filter_app, IH. simpl.
  destruct (is_space c); simpl; [apply app_nil_r | reflexivity].
Qed.

Lemma visible_nil_iff text :
  visible text = [] <-> Forall (fun c => is_space c = true) text.
Proof.
  unfold visible. induction text as [|c rest IH]; simpl.
  - split; [constructor | reflexivity].
  - destruct (is_space c) eqn:Hc; simpl.
    + rewrite IH. split; intros H; [constructor; assumption | inversion H; assumption].
    + split; [discriminate|]. intros H. inversion H; congruence.
Qed.

Lemma rstrip_prefix text :
  exists b, text = rstrip text ++ b /\ Forall (fun c => is_space c = true) b.
Proof.
  unfold rstrip. destruct (lstrip_suffix (rev text)) as (a & Ha & Hall).
  exists (rev a). split.
  - rewrite <- rev_app_distr, <- Ha, rev_involutive. reflexivity.
  - apply Forall_rev. assumption.
Qed.

Lemma rstrip_idem text : rstrip (rstrip text) = rstrip text.
Proof. unfold rstrip. rewrite rev_involutive, lstrip_idem. reflexivity. Qed.

Lemma rstrip_visible text : visible (rstrip text) = visible text.
Proof.
  unfold rstrip. rewrite visible_rev, lstrip_visible, visible_rev, rev_involutive.
  reflexivity.
Qed.

Lemma rstrip_snoc text c : is_space c = false -> rstrip (text ++ [c]) = text ++ [c].
Proof.
  intros Hc. unfold rstrip. rewrite rev_app_distr. simpl. rewrite Hc.
  simpl. rewrite rev_involutive. reflexivity.
Qed.

Lemma rstrip_cons c text :
  is_space c = false -> rstrip (c :: text) = c :: rstrip text.
Proof.
  intros Hc. unfold rstrip. simpl. rewrite lstrip_snoc by assumption.
  rewrite rev_app_distr. reflexivity.
Qed.

Lemma strip_visible text : visible (strip text) = visible text.
Proof. unfold strip. rewrite rstrip_visible. apply lstrip_visible. Qed.

Lemma lstrip_strip text : lstrip (strip text) = strip text.
Proof.
  unfold strip. destruct (lstrip text) as [|c rest] eqn:E; [reflexivity|].
  assert (Hc : is_space c = false).
  { pose proof (lstrip_idem text) as H. rewrite E in H. simpl in H.
    destruct (is_space c) eqn:Hc; [|reflexivity].
    exfalso. destruct (lstrip_suffix rest) as (a & Ha & _).
    apply (f_equal (@List.length N)) in H. apply (f_equal (@List.length N)) in Ha.
    rewrite length_app in Ha. simpl in H. lia. }
  rewrite rstrip_cons by assumption. simpl. rewrite Hc. reflexivity.
Qed.

Lemma rstrip_strip text : rstrip (strip text) = strip text.
Proof. unfold strip. apply rstrip_idem. Qed.

Lemma strip_idem text : strip (strip text) = strip text.
Proof.
  unfold strip at 1. rewrite lstrip_strip. apply rstrip_strip.
Qed.

Lemma strip_factor text : exists a b, text = a ++ strip text ++ b.
Proof.
  unfold strip. destruct (lstrip_suffix text) as (a & Ha & _).
  destruct (rstrip_prefix (lstrip text)) as (b & Hb & _).
  exists a, b. rewrite <- Hb. assumption.
Qed.

Lemma strip_nil_iff text :
  strip text = [] <-> Forall (fun c => is_space c = true) text.
Proof.
  rewrite <- visible_nil_iff. split; intros H.
  - rewrite <- strip_visible, H. reflexivity.
  - destruct (strip text) as [|c rest] eqn:E; [reflexivity|]. exfalso.
    pose proof (lstrip_strip text) as Hl. rewrite E in Hl. simpl in Hl.
    destruct (is_space c) eqn:Hc.
    + destruct (lstrip_suffix rest) as (a & Ha & _).
      apply (f_equal (@List.length N)) in Hl. apply (f_equal (@List.length N)) in Ha.
      rewrite length_app in Ha. simpl in Hl. lia.
    + rewrite <- strip_visible, E in H. unfold visible in H. simpl in H.
      rewrite Hc in H. discriminate.
Qed.

(** Text with a visible character at each end is left as it is. *)
Lemma strip_fixed c text d :
  is_space c = false -> is_space d = false ->
  strip (c :: text ++ [d]) = c :: text ++ [d].
Proof.
  intros Hc Hd. unfold strip. simpl. rewrite Hc.
  change (c :: text ++ [d]) with ((c :: text) ++ [d]). apply rstrip_snoc. assumption.
Qed.

Lemma strip_single c : is_space c = false -> strip [c] = [c].
Proof. intros Hc. unfold strip, rstrip. simpl. rewrite Hc. simpl. rewrite Hc. reflexivity. Qed.

(** What [strip] leaves alone: the empty text, and text with a visible
    character at each end. *)
Lemma strip_fixed_ends text :
  text <> [] -> strip text = text ->
  (exists c, text = [c] /\ is_space c = false)
  \/ (exists c middle d,
        text = c :: middle ++ [d] /\ is_space c = false /\ is_space d = false).
Proof.
  intros Hne Hfix.
  destruct text as [|c rest]; [congruence|].
  assert (Hc : is_space c = false).
  { pose proof (lstrip_strip (c :: rest)) as Hl. rewrite Hfix in Hl. simpl in Hl.
    destruct (is_space c) eqn:Hc; [|reflexivity]. exfalso.
    destruct (lstrip_suffix rest) as (a & Ha & _).
    apply (f_equal (@List.length N)) in Hl. apply (f_equal (@List.length N)) in Ha.
    rewrite length_app in Ha. simpl in Hl. lia. }
  destruct rest as [|x middle _] using rev_ind; [left; eauto|].
  right. exists c, middle, x. split; [reflexivity|]. split; [assumption|].
  pose proof (rstrip_strip (c :: middle ++ [x])) as Hr. rewrite Hfix in Hr.
  unfold rstrip in Hr. simpl in Hr. rewrite rev_app_distr in Hr. simpl in Hr.
  destruct (is_space x) eqn:Hx; [|reflexivity]. exfalso.
  destruct (lstrip_suffix (rev middle ++ [c])) as (a & Ha & _).
  apply (f_equal (@List.length N)) in Hr. apply (f_equal (@List.length N)) in Ha.
  repeat first [ rewrite length_rev in Hr | rewrite length_app in Hr
               | rewrite length_rev in Ha | rewrite length_app in Ha ].
  simpl in Hr, Ha. rewrite ?length_app in Hr. simpl in Hr. lia.
Qed.

(** *** Lines *)

Lemma splitlines_crlf rest : splitlines (13 :: 10 :: rest) = [] :: splitlines rest.
Proof. reflexivity. Qed.

Lemma splitlines_break c rest :
  is_line_boundary c = true ->
  (c =? 13) && (hd 0 rest =? 10) = false ->
  splitlines (c :: rest) = [] :: splitlines rest.
Proof.
  intros Hc Hcrlf. destruct rest as [|c' rest']; simpl in *; rewrite Hc.
  - reflexivity.
  - rewrite Hcrlf. reflexivity.
Qed.

Lemma splitlines_char c rest :
  is_line_boundary c = false ->
  splitlines (c :: rest)
  = match splitlines rest with
    | [] => [[c]]
    | line :: lines => (c :: line) :: lines
    end.
Proof. intros Hc. destruct rest; simpl; rewrite Hc; reflexivity. Qed.

(** The three ways [splitlines] consumes the head of a text. *)
Lemma splitlines_cases (P : str -> list str -> Prop) :
  P [] [] ->
  (forall rest, P rest (splitlines rest) ->
                P (13 :: 10 :: rest) ([] :: splitlines rest)) ->
  (forall c rest, is_line_boundary c = true ->
                  P rest (splitlines rest) -> P (c :: rest) ([] :: splitlines rest)) ->
  (forall c rest, is_line_boundary c = false ->
                  P rest (splitlines rest) ->
                  P (c :: rest) (match splitlines rest with
                                 | [] => [[c]]
                                 | line :: lines => (c :: line) :: lines
                                 end)) ->
  forall text, P text (splitlines text).
Proof.
  intros Hnil Hcrlf Hbreak Hchar.
  assert (H : forall n text, (List.length text <= n)%nat -> P text (splitlines text)).
  { induction n as [|n IH]; intros text Hlen.
    - destruct text; [exact Hnil | simpl in Hlen; lia].
    - destruct text as [|c rest]; [exact Hnil|]. simpl in Hlen.
      destruct (is_line_boundary c) eqn:Hc.
      + destruct ((c =? 13) && (hd 0 rest =? 10)) eqn:Hpair.
        * apply andb_prop in Hpair. destruct Hpair as [H13 H10].
          apply N.eqb_eq in H13. subst c.
          destruct rest as [|c' rest']; [discriminate|]. simpl in H10.
          apply N.eqb_eq in H10. subst c'. rewrite splitlines_crlf.
          apply Hcrlf. apply IH. simpl in Hlen. lia.
        * rewrite splitlines_break by assumption. apply Hbreak; [assumption|].
          apply IH. lia.
      + rewrite splitlines_char by assumption. apply Hchar; [assumption|].
        apply IH. lia. }
  intros text. apply (H (List.length text)). lia.
Qed.

Lemma splitlines_boundary_free text :
  Forall (Forall (fun c => is_line_boundary c = false)) (splitlines text).
Proof.
  apply (splitlines_cases (fun _ lines =>
           Forall (Forall (fun c => is_line_boundary c = false)) lines)).
  - constructor.
  - intros rest IH. constructor; [constructor | assumption].
  - intros c rest _ IH. constructor; [constructor | assumption].
  - intros c rest Hc IH. destruct (splitlines rest) as [|line lines].
    + repeat constructor. assumption.
    + inversion IH; subst. constructor; [constructor|]; assumption.
Qed.

Lemma splitlines_pieces text :
  (forall line lines, splitlines text = line :: lines -> exists b, text = line ++ b)
  /\ (forall line, In line (splitlines text) -> exists a b, text = a ++ line ++ b).
Proof.
  apply (splitlines_cases (fun text lines =>
    (forall line rest, lines = line :: rest -> exists b, text = line ++ b)
    /\ (forall line, In line lines -> exists a b, text = a ++ line ++ b))).
  - split; [discriminate | intros line []].
  - intros rest [_ IH]. split.
    + intros line lines E. inversion E; subst. eexists. reflexivity.
    + intros line [E | Hin].
      * subst. exists [], (13 :: 10 :: rest). reflexivity.
      * destruct (IH line Hin) as (a & b & E). exists (13 :: 10 :: a), b.
        simpl. congruence.
  - intros c rest _ [_ IH]. split.
    + intros line lines E. inversion E; subst. eexists. reflexivity.
    + intros line [E | Hin].
      * subst. exists [], (c :: rest). reflexivity.
      * destruct (IH line Hin) as (a & b & E). exists (c :: a), b.
        simpl. congruence.
  - intros c rest _ [IHhead IH]. destruct (splitlines rest) as [|first lines].
    + split.
      * intros line others E. inversion E; subst. exists rest. reflexivity.
      * intros line [E | []]. subst. exists [], rest. reflexivity.
    + destruct (IHhead first lines eq_refl) as (b & Hb). split.
      * intros line others E. inversion E; subst. exists b. reflexivity.
      * intros line [E | Hin].
        -- subst line. exists [], b. simpl. congruence.
        -- destruct (IH line (or_intror Hin)) as (a & b' & E). exists (c :: a), b'.
           simpl. congruence.
Qed.

Lemma splitlines_factor text line :
  In line (splitlines text) -> exists a b, text = a ++ line ++ b.
Proof. apply splitlines_pieces. Qed.

Lemma splitlines_visible text : visible (List.concat (splitlines text)) = visible text.
Proof.
  apply (splitlines_cases (fun text lines => visible (List.concat lines) = visible text)).
  - reflexivity.
  - intros rest IH. simpl. assumption.
  - intros c rest Hc IH. unfold visible in *. simpl.
    rewrite (is_line_boundary_space c Hc). simpl. assumption.
  - intros c rest _ IH. unfold visible in *.
    destruct (splitlines rest) as [|line lines]; simpl in *; rewrite <- IH; reflexivity.
Qed.

Lemma splitlines_line line :
  line <> [] -> Forall (fun c => is_line_boundary c = false) line ->
  splitlines line = [line].
Proof.
  induction line as [|c rest IH]; intros Hne Hall; [congruence|].
  inversion Hall as [|? ? Hc Hrest]; subst.
  rewrite splitlines_char by assumption.
  destruct rest as [|c' rest']; [reflexivity|].
  rewrite IH by (assumption || discriminate). reflexivity.
Qed.

Lemma splitlines_app_lf line text :
  Forall (fun c => is_line_boundary c = false) line ->
  splitlines (line ++ 10 :: text) = line :: splitlines text.
Proof.
  induction line as [|c rest IH]; intros Hall.
  - apply splitlines_break; reflexivity.
  - inversion Hall as [|? ? Hc Hrest]; subst. simpl app.
    rewrite splitlines_char by assumption. rewrite IH by assumption. reflexivity.
Qed.

(** *** Joining *)

Lemma join_cons sep line next lines :
  join sep (line :: next :: lines) = line ++ sep ++ join sep (next :: lines).
Proof. reflexivity. Qed.

Lemma join_lf line next lines :
  join [10] (line :: next :: lines) = line ++ 10 :: join [10] (next :: lines).
Proof. reflexivity. Qed.

Lemma join_head sep line lines : exists rest, join sep (line :: lines) = line ++ rest.
Proof.
  destruct lines as [|next lines].
  - exists []. simpl. rewrite app_nil_r. reflexivity.
  - eexists. apply join_cons.
Qed.

Lemma join_last sep : forall lines line,
  exists before, join sep (lines ++ [line]) = before ++ line.
Proof.
  induction lines as [|first lines IH]; intros line.
  - exists []. reflexivity.
  - destruct (IH line) as (before & E).
    destruct lines as [|next lines].
    + exists (first ++ sep). simpl. rewrite <- app_assoc. reflexivity.
    + exists (first ++ sep ++ before). simpl app at 1.
      change ((first :: next :: lines) ++ [line])
        with (first :: (next :: lines) ++ [line]).
      simpl app at 1. rewrite join_cons.
      change (next :: lines ++ [line]) with ((next :: lines) ++ [line]).
      rewrite E, <- !app_assoc. reflexivity.
Qed.

Lemma splitlines_join lines :
  Forall (fun line => line <> [] /\ Forall (fun c => is_line_boundary c = false) line)
         lines ->
  splitlines (join [10] lines) = lines.
Proof.
  induction lines as [|line lines IH]; intros Hall; [reflexivity|].
  inversion Hall as [|? ? [Hne Hfree] Hrest]; subst.
  destruct lines as [|next lines].
  - simpl. apply splitlines_line; assumption.
  - rewrite join_lf, splitlines_app_lf by assumption.
    f_equal. apply IH. assumption.
Qed.

Lemma join_visible lines : visible (join [10] lines) = visible (List.concat lines).
Proof.
  induction lines as [|line lines IH]; [reflexivity|].
  destruct lines as [|next lines].
  - simpl. rewrite app_nil_r. reflexivity.
  - rewrite join_lf. change (List.concat (line :: next :: lines))
      with (line ++ List.concat (next :: lines)).
    rewrite !visible_app, <- IH. reflexivity.
Qed.

Lemma lstrip_fixed_head c rest : lstrip (c :: rest) = c :: rest -> is_space c = false.
Proof.
  simpl. destruct (is_space c); [|reflexivity]. intros H. exfalso.
  destruct (lstrip_suffix rest) as (a & Ha & _).
  apply (f_equal (@List.length N)) in H. apply (f_equal (@List.length N)) in Ha.
  rewrite length_app in Ha. simpl in H. lia.
Qed.

Lemma lstrip_fixed_app text more :
  text <> [] -> lstrip text = text -> lstrip (text ++ more) = text ++ more.
Proof.
  intros Hne Hfix. destruct text as [|c rest]; [congruence|].
  apply lstrip_fixed_head in Hfix. simpl. rewrite Hfix. reflexivity.
Qed.

Lemma rstrip_fixed_app before text :
  text <> [] -> rstrip text = text -> rstrip (before ++ text) = before ++ text.
Proof.
  intros Hne Hfix. unfold rstrip in *. rewrite rev_app_distr.
  rewrite lstrip_fixed_app.
  - rewrite <- rev_app_distr, rev_involutive. reflexivity.
  - intros E. apply (f_equal (@rev N)) in E. rewrite rev_involutive in E. auto.
  - apply (f_equal (@rev N)) in Hfix. rewrite rev_involutive in Hfix. assumption.
Qed.

Lemma strip_join lines :
  Forall (fun line => line <> [] /\ strip line = line) lines ->
  strip (join [10] lines) = join [10] lines.
Proof.
  intros Hall. destruct lines as [|first others]; [reflexivity|].
  assert (Hl : lstrip (join [10] (first :: others)) = join [10] (first :: others)).
  { inversion Hall as [|? ? [Hne Hfix] _]; subst.
    destruct (join_head [10] first others) as (rest & E). rewrite E.
    apply lstrip_fixed_app; [assumption|]. rewrite <- Hfix. apply lstrip_strip. }
  unfold strip. rewrite Hl.
  destruct (@exists_last _ (first :: others)) as (lines & line & E); [discriminate|].
  rewrite E in *. apply Forall_app in Hall. destruct Hall as [_ Hall].
  inversion Hall as [|? ? [Hne Hfix] _]; subst.
  destruct (join_last [10] lines line) as (before & E'). rewrite E'.
  apply rstrip_fixed_app; [assumption|]. rewrite <- Hfix. apply rstrip_strip.
Qed.

Lemma runs_free_outside in_class text : forall prev,
  Forall (fun c => in_class c = false) text -> runs_free in_class prev text = true.
Proof.
  induction text as [|c rest IH]; intros prev Hall; [reflexivity|].
  inversion Hall as [|? ? Hc Hrest]; subst. simpl. rewrite Hc. auto.
Qed.

Lemma runs_free_after_outside in_class text more prev :
  text <> [] -> Forall (fun c => in_class c = false) text ->
  runs_free in_class prev (text ++ more) = runs_free in_class false more.
Proof.
  intros Hne Hall. destruct text as [|c rest]; [congruence|]. clear Hne.
  inversion Hall as [|? ? Hc Hrest]; subst. simpl. rewrite Hc. clear Hc Hall.
  induction rest as [|x rest IH]; [reflexivity|].
  inversion Hrest as [|? ? Hx Hrest']; subst. simpl. rewrite Hx. auto.
Qed.

Lemma runs_free_join_lf lines : forall prev,
  Forall (fun line => line <> [] /\ Forall (fun c => is_line_boundary c = false) line)
         lines ->
  runs_free (fun c => c =? 10) prev (join [10] lines) = true.
Proof.
  assert (Hout : forall line, Forall (fun c => is_line_boundary c = false) line ->
                              Forall (fun c => (c =? 10) = false) line).
  { intros line H. eapply Forall_impl; [|exact H]. simpl. intros c Hc.
    destruct (c =? 10) eqn:E; [|reflexivity]. apply N.eqb_eq in E. subst c.
    discriminate. }
  induction lines as [|line lines IH]; intros prev Hall; [reflexivity|].
  inversion Hall as [|? ? [Hne Hfree] Hrest]; subst.
  destruct lines as [|next lines].
  - simpl. apply runs_free_outside. auto.
  - rewrite join_lf, runs_free_after_outside by auto.
    change (runs_free (fun c => c =? 10) true (join [10] (next :: lines)) = true).
    apply IH. assumption.
Qed.

Lemma runs_free_join in_class lines :
  in_class 10 = false ->
  Forall (fun line => runs_free in_class false line = true) lines ->
  runs_free in_class false (join [10] lines) = true.
Proof.
  intros Hlf. induction lines as [|line lines IH]; intros Hall; [reflexivity|].
  inversion Hall as [|? ? Hline Hrest]; subst.
  destruct lines as [|next lines]; [assumption|].
  rewrite join_lf, runs_free_app by assumption.
  rewrite Hline, IH by assumption. reflexivity.
Qed.

Lemma Forall_factor (P : N -> Prop) a text b :
  Forall P (a ++ text ++ b) -> Forall P text.
Proof.
  intros H. apply Forall_app in H. destruct H as [_ H].
  apply Forall_app in H. tauto.
Qed.

Lemma Forall_join (P : N -> Prop) lines :
  P 10 -> Forall (Forall P) lines -> Forall P (join [10] lines).
Proof.
  intros Hlf. induction lines as [|line lines IH]; intros Hall; [constructor|].
  inversion Hall as [|? ? Hline Hrest]; subst.
  destruct lines as [|next lines]; [assumption|].
  rewrite join_lf. apply Forall_app. split; [assumption|].
  constructor; [assumption | auto].
Qed.

Lemma visible_stripped_lines lines :
  visible (List.concat (map strip (filter (fun line => nonempty (strip line)) lines)))
  = visible (List.concat lines).
Proof.
  induction lines as [|line lines IH]; [reflexivity|].
  simpl. destruct (strip line) as [|c rest] eqn:E; simpl.
  - rewrite visible_app, IH, <- (strip_visible line), E. reflexivity.
  - rewrite E. change (c :: rest ++ ?x) with ((c :: rest) ++ x).
    rewrite !visible_app, IH, <- E, strip_visible. reflexivity.
Qed.

(** *** The cleaning as a whole *)

Lemma stripped_lines_fixed lines :
  Forall (fun line => line <> [] /\ strip line = line) lines ->
  map strip (filter (fun line => nonempty (strip line)) lines) = lines.
Proof.
  induction lines as [|line lines IH]; intros Hall; [reflexivity|].
  inversion Hall as [|? ? [Hne Hfix] Hrest]; subst. simpl. rewrite Hfix.
  destruct line as [|c rest]; [congruence|]. simpl. rewrite Hfix, IH by assumption.
  reflexivity.
Qed.

Lemma tidy_trimmed lines :
  Forall tidy lines -> Forall (fun line => line <> [] /\ strip line = line) lines.
Proof. apply Forall_impl. unfold tidy. tauto. Qed.

Lemma tidy_boundary_free lines :
  Forall tidy lines ->
  Forall (fun line => line <> [] /\ Forall (fun c => is_line_boundary c = false) line)
         lines.
Proof.
  apply Forall_impl. unfold tidy. intros line (Hne & _ & Hall & _).
  split; [assumption|]. eapply Forall_impl; [|exact Hall]. simpl. tauto.
Qed.

Lemma stripped_lines_tidy text :
  runs_free spaces_or_tabs false text = true ->
  Forall (fun c => c <> 9) text ->
  Forall tidy (map strip (filter (fun line => nonempty (strip line)) (splitlines text))).
Proof.
  intros Hfree Htab. apply Forall_forall. intros stripped Hin.
  apply in_map_iff in Hin. destruct Hin as (line & <- & Hin).
  apply filter_In in Hin. destruct Hin as [Hin Hne].
  destruct (splitlines_factor text line Hin) as (a & b & Etext).
  destruct (strip_factor line) as (a' & b' & Eline).
  pose proof (splitlines_boundary_free text) as Hb.
  rewrite Forall_forall in Hb. specialize (Hb line Hin).
  rewrite Etext in Hfree, Htab. apply runs_free_factor in Hfree.
  apply Forall_factor in Htab.
  rewrite Eline in Hfree, Htab, Hb. apply runs_free_factor in Hfree.
  apply Forall_factor in Htab. apply Forall_factor in Hb.
  unfold tidy. split; [|split; [|split]].
  - destruct (strip line); [discriminate | discriminate].
  - apply strip_idem.
  - rewrite Forall_forall in *. intros c Hc. split; auto.
  - assumption.
Qed.

Lemma spaces_collapsed text :
  runs_free spaces_or_tabs false (re_sub_plus spaces_or_tabs 32 text) = true
  /\ Forall (fun c => c <> 9) (re_sub_plus spaces_or_tabs 32 text).
Proof.
  split.
  - apply sub_runs_runs_free. reflexivity.
  - eapply Forall_impl; [|apply sub_runs_class]. simpl. intros c Hc E. subst c.
    specialize (Hc eq_refl). discriminate.
Qed.

(** Text that is already a sequence of tidy lines goes through unchanged. *)
Lemma clean_joined_tidy lines :
  Forall tidy lines ->
  Scraping.extract_and_clean_text (join [10] lines) = join [10] lines.
Proof.
  intros Htidy. unfold Scraping.extract_and_clean_text, re_sub_plus.
  rewrite (sub_runs_id (fun c => c =? 10) 10).
  2: { apply runs_free_join_lf, tidy_boundary_free, Htidy. }
  2: { apply Forall_forall. intros c _ E. apply N.eqb_eq. assumption. }
  change (fun c => (c =? 32) || (c =? 9)) with spaces_or_tabs.
  rewrite (sub_runs_id spaces_or_tabs 32).
  2: { apply runs_free_join; [reflexivity|].
       eapply Forall_impl; [|exact Htidy]. unfold tidy. tauto. }
  2: { apply Forall_join; [discriminate|].
       eapply Forall_impl; [|exact Htidy]. unfold tidy.
       intros line (_ & _ & Hall & _). eapply Forall_impl; [|exact Hall].
       simpl. intros c [_ Htab] Hc. unfold spaces_or_tabs in Hc.
       apply orb_prop in Hc. destruct Hc as [Hc | Hc]; apply N.eqb_eq in Hc; congruence. }
  rewrite splitlines_join by (apply tidy_boundary_free, Htidy).
  rewrite stripped_lines_fixed by (apply tidy_trimmed, Htidy).
  apply strip_join, tidy_trimmed, Htidy.
Qed.

Lemma clean_shape raw :
  exists lines,
    Scraping.extract_and_clean_text raw = join [10] lines /\ Forall tidy lines.
Proof.
  unfold Scraping.extract_and_clean_text.
  change (fun c => (c =? 32) || (c =? 9)) with spaces_or_tabs.
  destruct (spaces_collapsed (re_sub_plus (fun c => c =? 10) 10 raw)) as [Hfree Htab].
  pose proof (stripped_lines_tidy _ Hfree Htab) as Htidy.
  eexists. split; [|exact Htidy].
  apply strip_join, tidy_trimmed, Htidy.
Qed.

Lemma clean_visible raw :
  visible (Scraping.extract_and_clean_text raw) = visible raw.
Proof.
  unfold Scraping.extract_and_clean_text, re_sub_plus.
  rewrite strip_visible, join_visible, visible_stripped_lines, splitlines_visible.
  rewrite sub_runs_visible.
  - apply sub_runs_visible; [|reflexivity].
    intros c Hc. apply N.eqb_eq in Hc. subst c. reflexivity.
  - intros c Hc. apply orb_prop in Hc.
    destruct Hc as [Hc | Hc]; apply N.eqb_eq in Hc; subst c; reflexivity.
  - reflexivity.
Qed.

(** X21.  The cleaned text is a sequence of lines joined by single line
    feeds, and every line is tidy: not empty, without white space at its
    ends, without tab or line boundary, without two spaces in a row. *)
Theorem clean_text_is_tidy_lines (raw : str) :
  exists lines,
    Scraping.extract_and_clean_text raw = join [10] lines /\ Forall tidy lines.
Proof. apply clean_shape. Qed.

(** X22.  Cleaning a text that was cleaned already changes nothing. *)
Theorem clean_text_idempotent (raw : str) :
  Scraping.extract_and_clean_text (Scraping.extract_and_clean_text raw)
  = Scraping.extract_and_clean_text raw.
Proof.
  destruct (clean_shape raw) as (lines & E & Htidy). rewrite E.
  apply clean_joined_tidy, Htidy.
Qed.

(** X23.  The cleaning only touches white space: the characters that are
    not white space come out all, and in the order they went in. *)
Theorem clean_text_keeps_visible (raw : str) :
  visible (Scraping.extract_and_clean_text raw) = visible raw.
Proof. apply clean_visible. Qed.

(** X24.  The cleaned text is empty exactly when the page text holds
    nothing but white space. *)
Theorem clean_text_empty_iff (raw : str) :
  Scraping.extract_and_clean_text raw = []
  <-> Forall (fun c => is_space c = true) raw.
Proof.
  rewrite <- visible_nil_iff. split; intros H.
  - rewrite <- clean_visible, H. reflexivity.
  - rewrite <- clean_visible in H.
    destruct (clean_shape raw) as (lines & E & Htidy). rewrite E in *.
    destruct lines as [|line lines]; [reflexivity|]. exfalso.
    inversion Htidy as [|? ? (Hne & Hfix & _) _]; subst.
    destruct (join_head [10] line lines) as (rest & Ej). rewrite Ej in H.
    destruct line as [|c line']; [congruence|].
    assert (Hc : is_space c = false).
    { apply (lstrip_fixed_head c line').
      pose proof (lstrip_strip (c :: line')) as Hl. rewrite Hfix in Hl. exact Hl. }
    unfold visible in H. simpl in H. rewrite Hc in H. discriminate.
Qed.

(** X25.  Text made of tidy lines joined by line feeds is returned as it
    is. *)
Theorem clean_text_fixed_on_tidy_lines (lines : list str) :
  Forall tidy lines ->
  Scraping.extract_and_clean_text (join [10] lines) = join [10] lines.
Proof. apply clean_joined_tidy. Qed.

(** *** Lengths *)

Lemma sub_runs_length in_class repl : forall text inside,
  (List.length (sub_runs in_class repl inside text) <= List.length text)%nat.
Proof.
  induction text as [|c rest IH]; intros inside; [reflexivity|].
  simpl. destruct (in_class c); [destruct inside|]; simpl.
  - specialize (IH true). lia.
  - specialize (IH true). lia.
  - specialize (IH false). lia.
Qed.

Lemma strip_length text : (List.length (strip text) <= List.length text)%nat.
Proof.
  destruct (strip_factor text) as (a & b & E).
  apply (f_equal (@List.length N)) in E. rewrite !length_app in E. lia.
Qed.

Lemma join_length lines :
  (List.length (join [10%N] lines)
   <= List.length (List.concat lines) + List.length lines - 1)%nat.
Proof.
  induction lines as [|line lines IH]; [reflexivity|].
  destruct lines as [|next lines].
  - simpl. rewrite app_nil_r. lia.
  - rewrite join_lf. change (List.concat (line :: next :: lines))
      with (line ++ List.concat (next :: lines)).
    rewrite !length_app. simpl List.length in *. lia.
Qed.

Lemma splitlines_length text :
  (List.length (List.concat (splitlines text)) + List.length (splitlines text)
   <= List.length text + 1)%nat.
Proof.
  apply (splitlines_cases (fun text lines =>
    (List.length (List.concat lines) + List.length lines <= List.length text + 1)%nat)).
  - simpl. lia.
  - intros rest IH. simpl. lia.
  - intros c rest _ IH. simpl. lia.
  - intros c rest _ IH. destruct (splitlines rest) as [|line lines]; simpl in *; lia.
Qed.

Lemma stripped_lines_length lines :
  let kept := map strip (filter (fun line => nonempty (strip line)) lines) in
  (List.length (List.concat kept) + List.length kept
   <= List.length (List.concat lines) + List.length lines)%nat.
Proof.
  induction lines as [|line lines IH]; [reflexivity|].
  simpl in *. pose proof (strip_length line) as Hs.
  destruct (strip line) as [|c rest] eqn:E; simpl.
  - rewrite length_app. lia.
  - rewrite E, !length_app. simpl in *. lia.
Qed.

(** X26.  The cleaning never makes the text longer. *)
Theorem clean_text_not_longer (raw : str) :
  (List.length (Scraping.extract_and_clean_text raw) <= List.length raw)%nat.
Proof.
  unfold Scraping.extract_and_clean_text, re_sub_plus.
  set (once := sub_runs (fun c => c =? 10) 10 false raw).
  set (twice := sub_runs (fun c => (c =? 32) || (c =? 9)) 32 false once).
  pose proof (sub_runs_length (fun c => c =? 10) 10 raw false) as H1.
  pose proof (sub_runs_length (fun c => (c =? 32) || (c =? 9)) 32 once false) as H2.
  fold once in H1. fold twice in H2.
  pose proof (splitlines_length twice) as H3.
  pose proof (stripped_lines_length (splitlines twice)) as H4. simpl in H4.
  pose proof (join_length
                (map strip (filter (fun line => nonempty (strip line))
                                   (splitlines twice)))) as H5.
  pose proof (strip_length
                (join [10] (map strip (filter (fun line => nonempty (strip line))
                                              (splitlines twice))))) as H6.
  lia.
Qed.

End ScrapingFacts.

(** ** The further properties on the scripted service *)

Lemma run_assistant_completed_at_creation_witness :
  run_assistant scripted 0 "asst" (store_of (chatting 1) (completed_at_once thread_listing))
  = (Val tt,
     mkStore (SS.set_messages [mkEntry "assistant" "hello";
                               mkEntry "assistant" "how can I help?"] (chatting 1))
             None (completed_at_once thread_listing)
             [EvCall (RunsCreate (Some "T1") "asst"); EvCall (MessagesList (Some "T1"))]).
Proof.
  apply (run_assistant_completed_at_creation Scripted scripted 0 "asst"
           (store_of (chatting 1) (completed_at_once thread_listing))
           (mkRun "R1" "completed")
           (completed_at_once thread_listing) (completed_at_once thread_listing)
           thread_listing
           [mkEntry "assistant" "hello"; mkEntry "assistant" "how can I help?"]).
  - reflexivity.
  - reflexivity.
  - reflexivity.
  - repeat constructor; eexists; reflexivity.
Defined.

Lemma run_assistant_stops_at_message_without_text_witness :
  run_assistant scripted 5 "asst" (store_of (chatting 1) image_reply)
  = (Exc AttributeError,
     mkStore (SS.set_assistant_is_typing true
                (SS.set_messages [mkEntry "assistant" "hello"] (chatting 1)))
             None
             (service (mkScript [] (Returns (mkRun "R1" "completed"))) listing_with_image)
             [EvCall (RunsCreate (Some "T1") "asst");
              EvSleep 1; EvCall (RunsRetrieve (Some "T1") "R1");
              EvSleep 1; EvCall (RunsRetrieve (Some "T1") "R1");
              EvCall (MessagesList (Some "T1"))]).
Proof.
  apply (run_assistant_stops_at_message_without_text Scripted scripted 5 "asst"
           (store_of (chatting 1) image_reply) 2 (mkRun "R1" "completed")
           listing_with_image
           [EvCall (RunsCreate (Some "T1") "asst");
            EvSleep 1; EvCall (RunsRetrieve (Some "T1") "R1");
            EvSleep 1; EvCall (RunsRetrieve (Some "T1") "R1");
            EvCall (MessagesList (Some "T1"))]
           (service (mkScript [] (Returns (mkRun "R1" "completed"))) listing_with_image)
           [text_message (Some "R1") "assistant" "hello"]
           (mkMessage (Some "R1") "assistant" [ImageFileContentBlock "file-1"])
           [text_message (Some "R1") "assistant" "how can I help?"]
           [mkEntry "assistant" "hello"] AttributeError).
  - exists (mkRun "R1" "queued"), image_reply,
      [EvSleep 1; EvCall (RunsRetrieve (Some "T1") "R1");
       EvSleep 1; EvCall (RunsRetrieve (Some "T1") "R1")],
      (service (mkScript [] (Returns (mkRun "R1" "completed"))) listing_with_image).
    split; [reflexivity|]. split; [|split; reflexivity].
    eapply (polled_step scripted (Some "T1") 1 (mkRun "R1" "queued"));
      [discriminate | reflexivity |].
    eapply (polled_step scripted (Some "T1") 0 (mkRun "R1" "in_progress"));
      [discriminate | reflexivity |].
    apply polled_done. reflexivity.
  - lia.
  - reflexivity.
  - repeat constructor; eexists; reflexivity.
  - reflexivity.
Defined.

Lemma main_quiet_before_start_witness :
  exists events,
    trace (snd (main scripted 10 "asst" idle (store_of SS.init run_fails)))
    = (trace (store_of SS.init run_fails) ++ events)%list
    /\ Forall (fun ev => is_call ev = false) events.
Proof.
  apply (main_quiet_before_start Scripted scripted 10 "asst" idle
           (store_of SS.init run_fails)).
  - reflexivity.
  - reflexivity.
Defined.

Lemma chat_interface_counts_failed_submission_witness :
  chat_interface scripted 10 "asst" (Some "hi") "Select a predefined question"
    (store_of (chatting 0) no_posting)
  = (Exc AttributeError,
     mkStore (SS.set_messages [mkEntry "user" "hi"] (chatting 1)) None no_posting
             [EvCall (MessagesCreate (Some "T1") "user" "hi")]).
Proof.
  apply (chat_interface_counts_failed_submission Scripted scripted 10 "asst" "hi"
           "Select a predefined question" (store_of (chatting 0) no_posting)).
  - reflexivity.
  - reflexivity.
  - intros a. discriminate.
Defined.

Lemma chat_interface_idle_witness :
  chat_interface scripted 10 "asst" None
    "LinkedIn Request | Hiring Manager (300 characters)" (store_of SS.init run_fails)
  = (Val tt, store_of SS.init run_fails).
Proof.
  apply (chat_interface_idle Scripted scripted 10 "asst" None
           "LinkedIn Request | Hiring Manager (300 characters)"
           (store_of SS.init run_fails)).
  - left. reflexivity.
  - left. reflexivity.
Defined.

Lemma chat_interface_selection_not_resubmitted_witness :
  chat_interface scripted 10 "asst" None
    "LinkedIn Request | Hiring Manager (300 characters)"
    (snd (chat_interface scripted 10 "asst" None
            "LinkedIn Request | Hiring Manager (300 characters)"
            (store_of (chatting 0) four_polls)))
  = (Val tt,
     snd (chat_interface scripted 10 "asst" None
            "LinkedIn Request | Hiring Manager (300 characters)"
            (store_of (chatting 0) four_polls))).
Proof.
  apply (chat_interface_selection_not_resubmitted Scripted scripted 10 10 "asst"
           "LinkedIn Request | Hiring Manager (300 characters)"
           (store_of (chatting 0) four_polls)).
  - reflexivity.
  - vm_compute. reflexivity.
Defined.

Lemma chat_interface_chat_box_first_witness :
  chat_interface scripted 10 "asst" (Some "hi") "Select a predefined question"
    (store_of (chatting 0) four_polls)
  = chat_interface scripted 10 "asst" (Some "hi")
      "LinkedIn Request | Hiring Manager (300 characters)"
      (store_of (chatting 0) four_polls).
Proof.
  apply (chat_interface_chat_box_first Scripted scripted 10 "asst" "hi"
           "Select a predefined question"
           "LinkedIn Request | Hiring Manager (300 characters)"
           (store_of (chatting 0) four_polls)).
  reflexivity.
Defined.

Lemma chat_interface_predefined_posts_prompt_witness :
  SS.question_count
    (state (snd (chat_interface scripted 10 "asst" None
                   "LinkedIn Request | Hiring Manager (300 characters)"
                   (store_of (chatting 0) four_polls))))
  = SS.question_count (state (store_of (chatting 0) four_polls)) + 1.
Proof.
  eapply (fun d H => proj2 (proj2
            (chat_interface_predefined_posts_prompt Scripted scripted 10 "asst"
               "LinkedIn Request | Hiring Manager (300 characters)" d
               (store_of (chatting 0) four_polls)
               eq_refl eq_refl
               ltac:(discriminate) ltac:(discriminate) eq_refl H))).
  vm_compute. reflexivity.
Defined.

Lemma main_exit_chat_resets_witness :
  main scripted 10 "asst" leaving (store_of prior_session run_fails)
  = (Rerun,
     mkStore (SS.mk false None false "" "" "" [] false "Enter Job URL" ""
                    "Paste your context" false 0)
             None run_fails []).
Proof.
  apply (main_exit_chat_resets Scripted scripted 10 "asst" leaving
           (store_of prior_session run_fails)).
  - reflexivity.
  - reflexivity.
  - reflexivity.
  - reflexivity.
  - discriminate.
Defined.

Lemma start_chat_clicked_never_asks_for_valid_url_witness :
  exists events,
    trace (snd (start_chat_clicked idle (store_of form_filled run_fails)))
    = (trace (store_of form_filled run_fails) ++ events)%list
    /\ ~ In (EvError "Please enter a valid Job URL.") events.
Proof.
  apply (start_chat_clicked_never_asks_for_valid_url Scripted idle
           (store_of form_filled run_fails)).
  right. reflexivity.
Defined.

Lemma start_chat_clicked_sets_processing_when_valid_witness :
  fst (start_chat_clicked idle (store_of form_filled run_fails)) = Rerun
  /\ SS.job_type form_filled <> "".
Proof.
  destruct (start_chat_clicked_sets_processing_when_valid Scripted idle
              (store_of form_filled run_fails)) as (Hrerun & Htype & _).
  - reflexivity.
  - reflexivity.
  - split; assumption.
Defined.

Lemma sidebar_form_rejects_bad_upload_witness :
  fst (sidebar_form large_upload (store_of prior_session run_fails)) = Val tt
  /\ SS.resume_text (state (snd (sidebar_form large_upload
                                   (store_of prior_session run_fails))))
     = SS.resume_text prior_session.
Proof.
  destruct (sidebar_form_rejects_bad_upload Scripted large_upload
              (store_of prior_session run_fails)
              (mkUploadedFile (6 * 1024 * 1024) "application/pdf" (inl "resume")))
    as (Hval & Htext & _).
  - reflexivity.
  - reflexivity.
  - left. reflexivity.
  - split; assumption.
Defined.

Lemma clean_text_fixed_on_tidy_lines_witness :
  Forall Scraping.tidy [[72; 105; 32; 116]; [50; 48]]%N
  /\ Scraping.extract_and_clean_text (Scraping.join [10%N] [[72; 105; 32; 116]; [50; 48]]%N)
     = Scraping.join [10%N] [[72; 105; 32; 116]; [50; 48]]%N.
Proof.
  assert (H : Forall Scraping.tidy [[72; 105; 32; 116]; [50; 48]]%N).
  { repeat constructor; try discriminate. }
  split; [exact H|].
  apply (ScrapingFacts.clean_text_fixed_on_tidy_lines _ H).
Defined.
